(** * Signaling server: handshake, session router and session registry

    A shallow embedding of the WebSocket signaling core of the media server
    ([http_server.cpp], [websocket_server.cpp], [websocket_server.h]) and the
    properties its design document states about it.

    Conventions of the embedding:
    - [std::string] is [string] (a sequence of bytes); [size_t] positions are
      [nat], and [std::string::npos] is [None];
    - a C++ exception is a [Throw] in the [result] monad; a [try]/[catch]
      block is [try_catch];
    - [std::map<std::string, T>] is [gmap string T]; the properties proved
      here speak about which entries a loop reaches, never about their order;
    - a [std::shared_ptr<WebSocketSession>] is an address into a store of
      session objects, so that two owners of one session see each other's
      updates; an object whose last owner has gone stays in the store as
      its destructor left it;
    - calls into collaborators and writes on a transport are recorded in a
      trace of events, in program order. *)

From Stdlib Require Import ZArith Ascii String DecimalString.
From stdpp Require Import base tactics option list functions gmap strings.

Local Open Scope Z_scope.

(** ** C++ exceptions *)

Inductive exn :=
  | std_out_of_range      (* thrown by [std::string::substr], [std::stoul] *)
  | std_invalid_argument  (* thrown by [std::stoul] *)
  | boost_system_error.   (* thrown by Asio/Beast operations *)

Inductive result (A : Type) :=
  | Ok (a : A)
  | Throw (e : exn).
Arguments Ok {A} a.
Arguments Throw {A} e.

#[global] Instance result_ret : MRet result := fun A a => Ok a.

#[global] Instance result_bind : MBind result := fun A B k m =>
  match m with
  | Ok a => k a
  | Throw e => Throw e
  end.

(** [try { body } catch (const std::exception&) { handler }] *)
Definition try_catch {A} (body : result A) (handler : exn -> A) : A :=
  match body with
  | Ok a => a
  | Throw e => handler e
  end.

(** ** [std::string] operations used by the sources *)

(** [s.find(pat, pos)]: first position [>= pos] where [pat] occurs. *)
Definition find (s pat : string) (pos : nat) : option nat :=
  String.index pos pat s.

(** [s.find(pat) != std::string::npos] *)
Definition contains (s pat : string) : bool :=
  bool_decide (is_Some (find s pat 0)).

(** [s.substr(pos, len)]: throws [std::out_of_range] when [pos > s.size()],
    otherwise at most [len] characters from [pos]. *)
Definition substr (s : string) (pos len : nat) : result string :=
  if decide (pos <= String.length s)%nat
  then Ok (String.substring pos len s)
  else Throw std_out_of_range.

(** [s.substr(pos)]: the rest of the string from [pos]. *)
Definition substr_from (s : string) (pos : nat) : result string :=
  substr s pos (String.length s - pos).

(** [::tolower] in the "C" locale. *)
Definition tolower (c : ascii) : ascii :=
  let n := nat_of_ascii c in
  if decide (65 <= n <= 90)%nat then ascii_of_nat (n + 32) else c.

(** [std::transform(s.begin(), s.end(), s.begin(), ::tolower)] *)
Fixpoint transform_tolower (s : string) : string :=
  match s with
  | EmptyString => EmptyString
  | String c s' => String (tolower c) (transform_tolower s')
  end.

(** [std::to_string] of a signed integer. *)
Definition to_string (z : Z) : string :=
  NilZero.string_of_int (Z.to_int z).

(** ** OpenSSL primitives used by the handshake

    [compute_websocket_accept] calls [SHA1] and a base64 [BIO] filter of
    OpenSSL.  They are modelled by the algorithms they implement: SHA-1 of
    FIPS 180-4 on 32-bit words held in [Z], and the base64 alphabet of
    RFC 4648 with padding and (because of [BIO_FLAGS_BASE64_NO_NL]) no line
    breaks. *)

Module OpenSSL.

Definition byte := Z.

Definition bytes_of_string (s : string) : list byte :=
  (fun c => Z.of_nat (nat_of_ascii c)) <$> list_ascii_of_string s.

Definition mask32 : Z := 0xFFFFFFFF.

Definition add32 (x y : Z) : Z := Z.land (x + y) mask32.

Definition rotl32 (n x : Z) : Z :=
  Z.land (Z.lor (Z.shiftl x n) (Z.shiftr x (32 - n))) mask32.

Definition not32 (x : Z) : Z := Z.lxor x mask32.

(** Big-endian bytes of the low [8 * n] bits of [x]. *)
Fixpoint be_bytes (n : nat) (x : Z) : list byte :=
  match n with
  | O => []
  | S n' => Z.land (Z.shiftr x (8 * Z.of_nat n')) 0xFF :: be_bytes n' x
  end.

(** Padding: a [0x80] byte, zeros up to 56 modulo 64, then the bit length
    as a 64-bit big-endian integer. *)
Definition sha1_pad (msg : list byte) : list byte :=
  let l := length msg in
  let zeros := ((119 - l mod 64) mod 64)%nat in
  msg ++ [0x80] ++ replicate zeros 0 ++ be_bytes 8 (8 * Z.of_nat l).

Fixpoint blocks (fuel : nat) (l : list byte) : list (list byte) :=
  match fuel, l with
  | O, _ | _, [] => []
  | S fuel', _ => take 64 l :: blocks fuel' (drop 64 l)
  end.

Fixpoint be_words (l : list byte) : list Z :=
  match l with
  | a :: b :: c :: d :: rest =>
      Z.lor (Z.shiftl a 24) (Z.lor (Z.shiftl b 16) (Z.lor (Z.shiftl c 8) d))
      :: be_words rest
  | _ => []
  end.

(** The message schedule, kept newest word first while it is extended. *)
Fixpoint schedule (n : nat) (rw : list Z) : list Z :=
  match n with
  | O => rw
  | S n' =>
      let w := Z.lxor (Z.lxor (nth 2 rw 0) (nth 7 rw 0))
                      (Z.lxor (nth 13 rw 0) (nth 15 rw 0)) in
      schedule n' (rotl32 1 w :: rw)
  end.

Definition message_schedule (block : list byte) : list Z :=
  rev (schedule 64 (rev (be_words block))).

Record sha_state := ShaState { ha : Z; hb : Z; hc : Z; hd : Z; he : Z }.

Definition sha1_init : sha_state :=
  ShaState 0x67452301 0xEFCDAB89 0x98BADCFE 0x10325476 0xC3D2E1F0.

Definition sha1_f (t : nat) (b c d : Z) : Z :=
  if decide (t < 20)%nat then Z.lor (Z.land b c) (Z.land (not32 b) d)
  else if decide (t < 40)%nat then Z.lxor b (Z.lxor c d)
  else if decide (t < 60)%nat
    then Z.lor (Z.land b c) (Z.lor (Z.land b d) (Z.land c d))
  else Z.lxor b (Z.lxor c d).

Definition sha1_k (t : nat) : Z :=
  if decide (t < 20)%nat then 0x5A827999
  else if decide (t < 40)%nat then 0x6ED9EBA1
  else if decide (t < 60)%nat then 0x8F1BBCDC
  else 0xCA62C1D6.

Definition sha1_round (st : sha_state) (tw : nat * Z) : sha_state :=
  let '(t, w) := tw in
  let temp :=
    add32 (add32 (add32 (add32 (rotl32 5 (ha st)) (sha1_f t (hb st) (hc st) (hd st)))
                        (he st)) (sha1_k t)) w in
  ShaState temp (ha st) (rotl32 30 (hb st)) (hc st) (hd st).

Definition sha1_block (h : sha_state) (block : list byte) : sha_state :=
  let st := fold_left sha1_round (imap (fun t w => (t, w)) (message_schedule block)) h in
  ShaState (add32 (ha h) (ha st)) (add32 (hb h) (hb st)) (add32 (hc h) (hc st))
           (add32 (hd h) (hd st)) (add32 (he h) (he st)).

Definition SHA_DIGEST_LENGTH : nat := 20.

(** [SHA1(d, n, md)] on the [n] bytes at [d]; the result is the content of
    [md]. *)
Definition SHA1 (d : list byte) : list byte :=
  let padded := sha1_pad d in
  let h := fold_left sha1_block (blocks (length padded) padded) sha1_init in
  be_bytes 4 (ha h) ++ be_bytes 4 (hb h) ++ be_bytes 4 (hc h)
    ++ be_bytes 4 (hd h) ++ be_bytes 4 (he h).

Definition b64_alphabet : string :=
  "ABCDEFGHIJKLMNOPQRSTUVWXYZabcdefghijklmnopqrstuvwxyz0123456789+/".

Definition b64_char (i : Z) : ascii :=
  default "="%char (String.get (Z.to_nat i) b64_alphabet).

(** What a write of [l] through [BIO_f_base64] with
    [BIO_FLAGS_BASE64_NO_NL], followed by [BIO_flush], leaves in the memory
    sink. *)
Fixpoint base64_encode (l : list byte) : string :=
  match l with
  | [] => EmptyString
  | [a] =>
      String (b64_char (Z.shiftr a 2))
      (String (b64_char (Z.shiftl (Z.land a 3) 4))
      (String "="%char (String "="%char EmptyString)))
  | [a; b] =>
      String (b64_char (Z.shiftr a 2))
      (String (b64_char (Z.lor (Z.shiftl (Z.land a 3) 4) (Z.shiftr b 4)))
      (String (b64_char (Z.shiftl (Z.land b 15) 2))
      (String "="%char EmptyString)))
  | a :: b :: c :: rest =>
      String (b64_char (Z.shiftr a 2))
      (String (b64_char (Z.lor (Z.shiftl (Z.land a 3) 4) (Z.shiftr b 4)))
      (String (b64_char (Z.lor (Z.shiftl (Z.land b 15) 2) (Z.shiftr c 6)))
      (String (b64_char (Z.land c 63)) (base64_encode rest))))
  end.

End OpenSSL.

(** ** Handshake protocol ([http_server.cpp]) *)

(** [HttpServer::compute_websocket_accept] *)
Definition compute_websocket_accept (key : string) : string :=
  let magic := "258EAFA5-E914-47DA-95CA-C5AB0DC85B11" in
  let input := key +:+ magic in
  (* SHA1(input.c_str(), input.length(), hash) *)
  let hash := OpenSSL.SHA1 (take (String.length input) (OpenSSL.bytes_of_string input)) in
  (* BIO_write(bio, hash, SHA_DIGEST_LENGTH) *)
  OpenSSL.base64_encode (take OpenSSL.SHA_DIGEST_LENGTH hash).

(** The accept credential as the design document words it:
    [base64(sha1(key + "258EAFA5-E914-47DA-95CA-C5AB0DC85B11"))]. *)
Definition accept_credential_reference (nonce : string) : string :=
  OpenSSL.base64_encode
    (OpenSSL.SHA1
       (OpenSSL.bytes_of_string (nonce +:+ "258EAFA5-E914-47DA-95CA-C5AB0DC85B11"))).

(** ** Message codec ([websocket_server.h], [websocket_server.cpp]) *)

Inductive MessageType :=
  | OFFER | ANSWER | ICE_CANDIDATE | JOIN | LEAVE | ERROR
  | VIEWER_JOINED | VIEWER_LEFT.

#[global] Instance MessageType_eq_dec : EqDecision MessageType.
Proof. solve_decision. Defined.

Record WebSocketMessage := Message {
  type : MessageType;
  data : string;
  room_id : string;
  peer_id : string
}.

(** The double quote character, and a text between double quotes. *)
Definition dq : string := String (ascii_of_nat 34) EmptyString.
Definition quoted (s : string) : string := dq +:+ s +:+ dq.

(** The marker [quoted k : quoted v] the decoder searches for, without any
    white space, as in [{"type":"join"}]. *)
Definition marker (k v : string) : string := quoted k +:+ ":" +:+ quoted v.

(** The text that opens the room field: [quoted "room_id"], a colon and the
    opening quote of the value; it is 11 characters long. *)
Definition room_id_opening : string := quoted "room_id" +:+ ":" +:+ dq.

(** [WebSocketSession::parse_message] *)
Definition parse_message (json : string) : result WebSocketMessage :=
  if contains json (marker "type" "join") || contains json (marker "type" "JOIN") then
    match find json room_id_opening 0 with
    | Some room_pos =>
        let start := (room_pos + 11)%nat in
        match find json dq start with
        | Some end_ =>
            room ← substr json start (end_ - start);
            Ok (Message JOIN json room EmptyString)
        | None => Ok (Message JOIN json EmptyString EmptyString)
        end
    | None => Ok (Message JOIN json EmptyString EmptyString)
    end
  else if contains json (marker "type" "offer") then
    Ok (Message OFFER json EmptyString EmptyString)
  else if contains json (marker "type" "answer") then
    Ok (Message ANSWER json EmptyString EmptyString)
  else if contains json (marker "type" "ice_candidate")
          || contains json (marker "type" "candidate") then
    Ok (Message ICE_CANDIDATE json EmptyString EmptyString)
  else if contains json (marker "type" "leave") then
    Ok (Message LEAVE json EmptyString EmptyString)
  else
    Ok (Message ERROR json EmptyString EmptyString).

Definition type_name (t : MessageType) : string :=
  match t with
  | OFFER => "offer"
  | ANSWER => "answer"
  | ICE_CANDIDATE => "ice_candidate"
  | JOIN => "join"
  | LEAVE => "leave"
  | VIEWER_JOINED => "viewer_joined"
  | VIEWER_LEFT => "viewer_left"
  | ERROR => "error"
  end.

(** [WebSocketSession::build_message]: [{"type":"<name>","data":<data>}] *)
Definition build_message (t : MessageType) (d : string) : string :=
  "{" +:+ quoted "type" +:+ ":" +:+ dq +:+ type_name t
      +:+ dq +:+ "," +:+ quoted "data" +:+ ":" +:+ d +:+ "}".

(** The payload of the JOIN acknowledgement:
    [{"peer_id":"<peer>","room_id":"<room>"}] *)
Definition join_ack_data (peer room : string) : string :=
  "{" +:+ quoted "peer_id" +:+ ":" +:+ dq +:+ peer
      +:+ dq +:+ "," +:+ quoted "room_id" +:+ ":" +:+ dq +:+ room +:+ dq +:+ "}".

(** ** Session ([WebSocketSession]) *)

(** Modelled from the spec: [ParticipantRole] is declared in
    [streaming_server.h], which is not among the sources; the spec gives a
    session a role in {HOST, VIEWER}, the two values the router uses. *)
Inductive ParticipantRole := HOST | VIEWER.

(** The fields of a session the router reads and writes.  [ws_is_open] is
    [ws_.is_open()]: the session's transport is open. *)
Record WebSocketSession := Session {
  room_id_ : string;
  peer_id_ : string;
  is_host_ : bool;
  ws_is_open : bool
}.

(** What a session does to the outside world. *)
Inductive call :=
  | ws_write (message : string)              (* [ws_.write] *)
  | ws_close                                 (* [ws_.close] *)
  | add_peer_call (room display metadata : string) (role : ParticipantRole)
  | remove_peer_call (peer : string).

#[global] Instance ParticipantRole_eq_dec : EqDecision ParticipantRole.
Proof. solve_decision. Defined.
#[global] Instance call_eq_dec : EqDecision call.
Proof. solve_decision. Defined.

(** [WebSocketSession::send]: one write on the transport; a failing write is
    caught and logged, and leaves the fields of the session as they are. *)
Definition send (s : WebSocketSession) (message : string) : WebSocketSession * list call :=
  (s, [ws_write message]).

(** [WebSocketSession::close]: closes the transport when it is open. *)
Definition close (s : WebSocketSession) : WebSocketSession * list call :=
  if ws_is_open s
  then (Session (room_id_ s) (peer_id_ s) (is_host_ s) false, [ws_close])
  else (s, []).

(** The router states of the design document, read off the session: a session
    whose transport is not open is closed; an open session is joined once a
    peer id is bound to it. *)
Inductive RouterState := UNJOINED | JOINED | CLOSED.

Definition router_state (s : WebSocketSession) : RouterState :=
  if ws_is_open s
  then if decide (peer_id_ s = EmptyString) then UNJOINED else JOINED
  else CLOSED.

(** Completion codes of a read: success, the clean close
    ([websocket::error::closed]), or any other error. *)
Inductive error_code := ec_success | ec_closed | ec_failure.

Section Router.

(** The room/stream collaborator ([StreamingServer], declared in
    [streaming_server.h]), of which the router only uses [add_peer] and
    [remove_peer]; both may read and update the collaborator's state. *)
Variable StreamingServer : Type.
Variable add_peer :
  string -> string -> string -> ParticipantRole -> StreamingServer -> string * StreamingServer.
Variable remove_peer : string -> StreamingServer -> StreamingServer.

(** [WebSocketSession::handle_message] *)
Definition handle_message (s : WebSocketSession) (srv : StreamingServer) (message : string)
  : result (WebSocketSession * StreamingServer * list call) :=
  msg ← parse_message message;
  match type msg with
  | JOIN =>
      let room := room_id msg in
      let host := contains (data msg) (marker "role" "host") in
      let role := if host then HOST else VIEWER in
      let '(peer, srv') := add_peer room (data msg) (data msg) role srv in
      let s1 := Session room peer host (ws_is_open s) in
      let ack := build_message JOIN (join_ack_data peer room) in
      let '(s2, sent) := send s1 ack in
      Ok (s2, srv', add_peer_call room (data msg) (data msg) role :: sent)
  | OFFER =>
      let response := build_message ANSWER (data msg) in
      let '(s1, sent) := send s response in
      Ok (s1, srv, sent)
  | ANSWER => Ok (s, srv, [])
  | ICE_CANDIDATE => Ok (s, srv, [])
  | LEAVE =>
      let '(srv', removed) :=
        if decide (peer_id_ s = EmptyString) then (srv, [])
        else (remove_peer (peer_id_ s) srv, [remove_peer_call (peer_id_ s)]) in
      let '(s1, closed) := close s in
      Ok (s1, srv', removed ++ closed)
  | _ => Ok (s, srv, [])
  end.

(** [ws_.async_read] of Boost.Beast, as the router relies on it: what the
    transport hands to the completion handler of [do_read] is, on an open
    transport, the next incoming completion and, on a transport that is not
    open, an error (the operation is aborted), whatever the peer sent. *)
Definition async_read (s : WebSocketSession) (incoming : error_code * string)
  : error_code * string :=
  if ws_is_open s then incoming else (ec_failure, EmptyString).

(** [WebSocketSession::on_read]; the boolean tells whether [do_read] was
    called again. *)
Definition on_read (s : WebSocketSession) (srv : StreamingServer)
    (ec : error_code) (message : string)
  : result (WebSocketSession * StreamingServer * list call * bool) :=
  match ec with
  | ec_success =>
      '(s', srv', tr) ← handle_message s srv message;
      Ok (s', srv', tr, true)
  | _ => Ok (s, srv, [], false)
  end.

(** [WebSocketSession::~WebSocketSession] *)
Definition session_destructor (s : WebSocketSession) : WebSocketSession * list call :=
  close s.

(** The completion handler [do_read] hands to [ws_.async_read]: a lambda
    that owns a [shared_ptr] to the session ([self]) and calls [on_read].
    Its pointer is released when it returns.  If [on_read] has posted no new
    read -- whose handler would own the session in turn -- and no other
    pointer is left ([owned_elsewhere] is false: the registry does not hold
    the session), the session is destroyed and its destructor runs; the
    session returned is then the object as the destructor left it. *)
Definition do_read_handler (owned_elsewhere : bool) (s : WebSocketSession)
    (srv : StreamingServer) (ec : error_code) (message : string)
  : result (WebSocketSession * StreamingServer * list call * bool) :=
  '(s', srv', tr, again) ← on_read s srv ec message;
  if (again : bool) || owned_elsewhere then Ok (s', srv', tr, again)
  else
    let '(s'', closed) := session_destructor s' in
    Ok (s'', srv', tr ++ closed, again).

(** The read loop of one session, [do_read] and [on_read] calling each
    other, run over the completions the transport offers: the calls the
    two functions make and the state they leave.  What becomes of the
    session object once the loop has ended is the matter of
    [do_read_handler]. *)
Fixpoint read_loop (s : WebSocketSession) (srv : StreamingServer)
    (incoming : list (error_code * string))
  : result (WebSocketSession * StreamingServer * list call) :=
  match incoming with
  | [] => Ok (s, srv, [])
  | i :: rest =>
      let '(ec, message) := async_read s i in
      '(s1, srv1, tr1, again) ← on_read s srv ec message;
      if again : bool then
        '(s2, srv2, tr2) ← read_loop s1 srv1 rest;
        Ok (s2, srv2, tr1 ++ tr2)
      else Ok (s1, srv1, tr1)
  end.

End Router.

Arguments handle_message {StreamingServer} add_peer remove_peer s srv message.
Arguments on_read {StreamingServer} add_peer remove_peer s srv ec message.
Arguments read_loop {StreamingServer} add_peer remove_peer s srv incoming.
Arguments do_read_handler {StreamingServer} add_peer remove_peer
  owned_elsewhere s srv ec message.

(** ** HTTP side of the handshake ([http_server.cpp]) *)

(** Modelled from the spec: [HttpRequest] is declared in [http_server.h],
    which is not among the sources.  The fields are those [http_server.cpp]
    uses; [headers] is filled with [operator[]] and searched with [find], so
    it is taken to be a [std::map] keyed by the header name as written (the
    spec asks for the presence of the three handshake headers, and for the
    value of [Upgrade] to be compared without regard to case). *)
Record HttpRequest := Request {
  method : string;
  path : string;
  headers : gmap string string;
  body : string
}.

(** [HttpServer::is_websocket_upgrade] *)
Definition is_websocket_upgrade (req : HttpRequest) : bool :=
  match headers req !! "Upgrade", headers req !! "Connection",
        headers req !! "Sec-WebSocket-Key" with
  | Some upgrade_val, Some _, Some _ =>
      contains (transform_tolower upgrade_val) "websocket"
  | _, _, _ => false
  end.

(** The path analysis at the head of [HttpServer::handle_websocket_upgrade]:
    [Some (room_id, is_host)] when the function goes on, [None] when it
    returns [false] ("Invalid role" or "Could not extract room_id"). *)
Definition upgrade_path (p : string) : result (option (string * bool)) :=
  match find p "/room/" 0 with
  | Some room_pos =>
      let id_start := (room_pos + 6)%nat in
      match find p "/" id_start with
      | Some id_end =>
          room ← substr p id_start (id_end - id_start);
          role ← substr_from p (id_end + 1);
          if decide (role = "host") then
            Ok (if decide (room = EmptyString) then None else Some (room, true))
          else if decide (role = "viewer") then
            Ok (if decide (room = EmptyString) then None else Some (room, false))
          else mret None
      | None => mret None
      end
  | None => mret None
  end.

Definition crlf : string :=
  String (ascii_of_nat 13) (String (ascii_of_nat 10) EmptyString).

(** The 101 response written on the raw socket. *)
Definition handshake_response (accept_key : string) : string :=
  "HTTP/1.1 101 Switching Protocols" +:+ crlf
    +:+ "Upgrade: websocket" +:+ crlf
    +:+ "Connection: Upgrade" +:+ crlf
    +:+ "Sec-WebSocket-Accept: " +:+ accept_key +:+ crlf
    +:+ crlf.

(** ** Session registry and connection acceptor ([WebSocketServer]) *)

(** The identity of a session object, as held by a [std::shared_ptr]. *)
Definition addr := nat.

Record WebSocketServer := Server {
  running_ : bool;
  acceptor_is_open : bool;           (* [acceptor_.is_open()] *)
  accept_thread_joinable : bool;     (* [accept_thread_.joinable()] *)
  sessions_ : gmap string addr
}.

(** Everything observable outside the two servers, in program order. *)
Inductive event :=
  | session_call (a : addr) (c : call)
  | socket_write (fd : Z) (bytes : string)   (* [write] on a raw socket *)
  | socket_close (fd : Z)                    (* [close] on a raw socket *)
  | set_running (b : bool)                   (* a write to [running_] *)
  | async_accept_posted                      (* [do_accept] *)
  | acceptor_close
  | ioc_stop
  | accept_thread_join
  | ordinary_routing (req : HttpRequest).    (* [match_route] and the handler *)

(** The state of the acceptor after a [start] that threw. *)
Inductive start_outcome := listening | threw_before_open | threw_after_open.

(** What the operating system answers during one upgrade. *)
Record upgrade_env := UpgradeEnv {
  bytes_written : Z;      (* result of [write] for the 101 response *)
  now : Z;                (* [system_clock::now().time_since_epoch().count()] *)
  assign_ok : bool        (* [socket.assign] does not throw *)
}.

(** Some entry of [sessions_] holds a [shared_ptr] to the session object
    [session]. *)
Definition holds_session (srv : WebSocketServer) (session : addr) : bool :=
  bool_decide (session ∈ (map_to_list (sessions_ srv)).*2).

(** [WebSocketServer::register_session] *)
Definition register_session (srv : WebSocketServer) (peer : string) (session : addr)
  : WebSocketServer :=
  Server (running_ srv) (acceptor_is_open srv) (accept_thread_joinable srv)
         (<[peer := session]> (sessions_ srv)).

(** [WebSocketServer::unregister_session] *)
Definition unregister_session (srv : WebSocketServer) (peer : string) : WebSocketServer :=
  Server (running_ srv) (acceptor_is_open srv) (accept_thread_joinable srv)
         (delete peer (sessions_ srv)).

(** [WebSocketServer::broadcast_to_room]: the sends it performs. *)
Definition broadcast_to_room (srv : WebSocketServer) (store : addr -> WebSocketSession)
    (room message exclude_peer_id : string) : list event :=
  '(peer, session) ← map_to_list (sessions_ srv);
  if decide (room_id_ (store session) = room ∧ peer ≠ exclude_peer_id)
  then session_call session <$> (send (store session) message).2
  else [].

(** [WebSocketServer::send_to_peer]: the sends it performs. *)
Definition send_to_peer (srv : WebSocketServer) (store : addr -> WebSocketSession)
    (peer message : string) : list event :=
  match sessions_ srv !! peer with
  | Some session => session_call session <$> (send (store session) message).2
  | None => []
  end.

(** The loop of [WebSocketServer::stop] that closes every registered
    session. *)
Fixpoint close_sessions (entries : list (string * addr)) (store : addr -> WebSocketSession)
  : (addr -> WebSocketSession) * list event :=
  match entries with
  | [] => (store, [])
  | (_, session) :: rest =>
      let '(s', closed) := close (store session) in
      let '(store', tr) := close_sessions rest (<[session := s']> store) in
      (store', (session_call session <$> closed) ++ tr)
  end.

(** [WebSocketServer::stop] *)
Definition stop (srv : WebSocketServer) (store : addr -> WebSocketSession)
  : WebSocketServer * (addr -> WebSocketSession) * list event :=
  if negb (running_ srv) then (srv, store, [])
  else
    let '(store', closed) := close_sessions (map_to_list (sessions_ srv)) store in
    let tr_acceptor := if acceptor_is_open srv then [acceptor_close] else [] in
    let tr_join := if accept_thread_joinable srv then [accept_thread_join] else [] in
    (Server false false false ∅, store',
     [set_running false] ++ closed ++ tr_acceptor ++ [ioc_stop] ++ tr_join).

(** [WebSocketServer::start]; the boolean is the value it returns. *)
Definition start (srv : WebSocketServer) (outcome : start_outcome)
  : bool * WebSocketServer * list event :=
  if running_ srv then (true, srv, [])
  else match outcome with
       | listening =>
           (true, Server true true true (sessions_ srv),
            [set_running true; async_accept_posted])
       | threw_before_open => (false, srv, [])
       | threw_after_open =>
           (false, Server false true (accept_thread_joinable srv) (sessions_ srv), [])
       end.

(** ** The two servers together *)

Section World.

Variable StreamingServer : Type.
Variable add_peer :
  string -> string -> string -> ParticipantRole -> StreamingServer -> string * StreamingServer.
Variable remove_peer : string -> StreamingServer -> StreamingServer.

(** The signaling server, the session objects it and the read loops share,
    the collaborator, and the pointer the HTTP server holds to the
    signaling server ([websocket_server_], [true] when it is not null).
    [native_sessions] records which session objects [on_accept] made. *)
Record World := MkWorld {
  ws_server : WebSocketServer;
  store : addr -> WebSocketSession;
  next_addr : addr;
  native_sessions : gset addr;
  streaming_server_ : StreamingServer;
  websocket_server_ : bool
}.

(** The state the constructors leave. *)
Definition initial_world (srv : StreamingServer) (attached : bool) : World :=
  MkWorld (Server false false false ∅)
          (fun _ => Session EmptyString EmptyString false false)
          0%nat ∅ srv attached.

(** [WebSocketServer::on_accept]: [ec] tells whether the accept failed,
    [handshake_ok] whether the handshake started by [run] succeeds. *)
Definition on_accept (w : World) (ec : bool) (handshake_ok : bool) : World * list event :=
  let again := if running_ (ws_server w) then [async_accept_posted] else [] in
  if ec then (w, again)
  else
    let a := next_addr w in
    let session := Session EmptyString EmptyString false handshake_ok in
    (MkWorld (ws_server w) (<[a := session]> (store w)) (S a)
             ({[a]} ∪ native_sessions w) (streaming_server_ w) (websocket_server_ w),
     again).

(** [WebSocketServer::accept_upgraded_connection]; the session it makes
    owns a connected, already upgraded socket, and its transport is taken to
    be open. *)
Definition accept_upgraded_connection (w : World) (socket_fd : Z)
    (room peer : string) (is_host : bool) (assign_succeeds : bool) : World :=
  try_catch
    (_ ← (if assign_succeeds then Ok () else Throw boost_system_error);
     let a := next_addr w in
     let session := Session room peer is_host true in
     Ok (MkWorld (register_session (ws_server w) peer a)
                   (<[a := session]> (store w)) (S a)
                   (native_sessions w) (streaming_server_ w) (websocket_server_ w)))
    (fun _ => w).

(** [HttpServer::handle_websocket_upgrade]; the boolean is the value it
    returns. *)
Definition handle_websocket_upgrade (w : World) (client_socket : Z)
    (req : HttpRequest) (env : upgrade_env) : result (bool * World * list event) :=
  if negb (websocket_server_ w) then Ok (false, w, [])
  else
    target ← upgrade_path (path req);
    match target with
    | None => Ok (false, w, [])
    | Some (room, is_host) =>
        match headers req !! "Sec-WebSocket-Key" with
        | None => Ok (false, w, [])
        | Some key =>
            let accept_key := compute_websocket_accept key in
            if bytes_written env <? 0 then Ok (false, w, [])
            else
              let peer := room +:+ "_" +:+ (if is_host : bool then "host" else "viewer")
                               +:+ "_" +:+ to_string (now env) in
              Ok (true,
                    accept_upgraded_connection w client_socket room peer is_host
                                               (assign_ok env),
                    [socket_write client_socket (handshake_response accept_key)])
        end
    end.

(** [HttpServer::handle_client], from the parsed request on: the upgrade
    test and what follows it.  The read loop and the call of [parse_request]
    that come before are in [read_request] and
    [handle_client_from_socket]. *)
Definition handle_client (w : World) (client_socket : Z)
    (req : HttpRequest) (env : upgrade_env) : World * list event :=
  try_catch
    (if is_websocket_upgrade req then
       '(upgraded, w', tr) ← handle_websocket_upgrade w client_socket req env;
       if upgraded : bool then Ok (w', tr)
       else Ok (w', tr ++ [socket_close client_socket])
     else Ok (w, [ordinary_routing req; socket_close client_socket]))
    (fun _ => (w, [socket_close client_socket])).

(** One completion of the pending read of session [a]: the handler of
    [do_read] runs, and the session is destroyed when the handler held the
    last pointer to it.  The store keeps the object as its destructor left
    it. *)
Definition deliver (w : World) (a : addr) (incoming : error_code * string)
  : result (World * list event) :=
  if decide (a < next_addr w)%nat then
    let '(ec, message) := async_read (store w a) incoming in
    match do_read_handler add_peer remove_peer (holds_session (ws_server w) a)
            (store w a) (streaming_server_ w) ec message with
    | Ok (s', srv', tr, _) =>
        Ok (MkWorld (ws_server w) (<[a := s']> (store w)) (next_addr w)
                    (native_sessions w) srv' (websocket_server_ w),
            session_call a <$> tr)
    | Throw e => Throw e
    end
  else Ok (w, []).

(** What can happen to the system: the public operations of the signaling
    server, an accepted connection, an HTTP request, and a completed read
    of a session. *)
Inductive op :=
  | op_start (outcome : start_outcome)
  | op_stop
  | op_accept (ec handshake_ok : bool)
  | op_http (client_socket : Z) (req : HttpRequest) (env : upgrade_env)
  | op_handoff (socket_fd : Z) (room peer : string) (is_host assign_succeeds : bool)
  | op_read (a : addr) (incoming : error_code * string)
  | op_broadcast (room message exclude_peer_id : string)
  | op_send_to_peer (peer message : string)
  | op_unregister (peer : string).

Definition with_server (w : World) (srv : WebSocketServer) : World :=
  MkWorld srv (store w) (next_addr w) (native_sessions w)
          (streaming_server_ w) (websocket_server_ w).

Definition step (w : World) (o : op) : result (World * list event) :=
  match o with
  | op_start outcome =>
      let '(_, srv', tr) := start (ws_server w) outcome in
      Ok (with_server w srv', tr)
  | op_stop =>
      let '(srv', store', tr) := stop (ws_server w) (store w) in
      Ok (MkWorld srv' store' (next_addr w) (native_sessions w)
                    (streaming_server_ w) (websocket_server_ w), tr)
  | op_accept ec handshake_ok => Ok (on_accept w ec handshake_ok)
  | op_http fd req env => Ok (handle_client w fd req env)
  | op_handoff fd room peer is_host ok =>
      Ok (accept_upgraded_connection w fd room peer is_host ok, [])
  | op_read a incoming => deliver w a incoming
  | op_broadcast room message exclude =>
      Ok (w, broadcast_to_room (ws_server w) (store w) room message exclude)
  | op_send_to_peer peer message =>
      Ok (w, send_to_peer (ws_server w) (store w) peer message)
  | op_unregister peer => Ok (with_server w (unregister_session (ws_server w) peer), [])
  end.

Fixpoint run (w : World) (ops : list op) : result (World * list event) :=
  match ops with
  | [] => Ok (w, [])
  | o :: rest =>
      '(w1, tr1) ← step w o;
      '(w2, tr2) ← run w1 rest;
      Ok (w2, tr1 ++ tr2)
  end.

End World.

Arguments MkWorld {StreamingServer}.
Arguments ws_server {StreamingServer}.
Arguments store {StreamingServer}.
Arguments next_addr {StreamingServer}.
Arguments native_sessions {StreamingServer}.
Arguments streaming_server_ {StreamingServer}.
Arguments websocket_server_ {StreamingServer}.
Arguments initial_world {StreamingServer}.
Arguments on_accept {StreamingServer}.
Arguments accept_upgraded_connection {StreamingServer}.
Arguments handle_websocket_upgrade {StreamingServer}.
Arguments handle_client {StreamingServer}.
Arguments deliver {StreamingServer}.
Arguments with_server {StreamingServer}.
Arguments step {StreamingServer}.
Arguments run {StreamingServer}.

(** ** Vocabulary of the properties *)

(** The type markers [parse_message] recognizes. *)
Definition type_markers : list string :=
  [ marker "type" "join"; marker "type" "JOIN"; marker "type" "offer";
    marker "type" "answer"; marker "type" "ice_candidate";
    marker "type" "candidate"; marker "type" "leave" ].

(** A session whose transport has been closed. *)
Definition closed_session (s : WebSocketSession) : WebSocketSession :=
  Session (room_id_ s) (peer_id_ s) (is_host_ s) false.

(** The registry only holds session objects made by
    [accept_upgraded_connection]: allocated, and not made by [on_accept]. *)
Definition registry_from_handoff {SS : Type} (w : World SS) : Prop :=
  (forall k a, sessions_ (ws_server w) !! k = Some a ->
     (a < next_addr w)%nat /\ a ∉ native_sessions w)
  /\ (forall a, a ∈ native_sessions w -> (a < next_addr w)%nat).

(** In a trace, every session is closed only after the acceptor was. *)
Definition acceptor_closed_before_sessions (tr : list event) : Prop :=
  forall i j a, tr !! i = Some (session_call a ws_close) ->
                tr !! j = Some acceptor_close -> (j < i)%nat.

(** *** Sample inputs *)

(** A collaborator that numbers the peers it admits. *)
Definition counting_add_peer (room display metadata : string) (role : ParticipantRole)
    (n : nat) : string * nat :=
  ("peer_" +:+ to_string (Z.of_nat n), S n).
Definition counting_remove_peer (peer : string) (n : nat) : nat := n.

(** A collaborator whose [add_peer] fails, returning the empty id. *)
Definition failing_add_peer (room display metadata : string) (role : ParticipantRole)
    (n : nat) : string * nat :=
  (EmptyString, n).

(** [{"type":"join","room_id":"r1","role":"host"}] *)
Definition sample_join : string :=
  "{" +:+ marker "type" "join" +:+ "," +:+ marker "room_id" "r1"
      +:+ "," +:+ marker "role" "host" +:+ "}".

(** [{"type":"leave"}] *)
Definition sample_leave : string := "{" +:+ marker "type" "leave" +:+ "}".

Definition sample_unjoined : WebSocketSession :=
  Session EmptyString EmptyString false true.

Definition sample_upgrade_headers : gmap string string :=
  <["Upgrade" := "WebSocket"]>
    (<["Connection" := "Upgrade"]>
       (<["Sec-WebSocket-Key" := "dGhlIHNhbXBsZSBub25jZQ=="]> ∅)).

Definition sample_upgrade (p : string) : HttpRequest :=
  Request "GET" p sample_upgrade_headers EmptyString.

Definition sample_env : upgrade_env := UpgradeEnv 129 1730000000000000000 true.


(** An operation that calls [accept_upgraded_connection] directly, not
    through the HTTP server. *)
Definition is_direct_handoff (o : op) : bool :=
  match o with
  | op_handoff _ _ _ _ _ => true
  | _ => false
  end.


(** ** HTTP request parsing and routing ([http_server.cpp]) *)

(** The lines successive calls of [std::getline(stream, line, delim)] return
    on a [std::istringstream] holding [s], until the call that fails: the
    text between delimiters, without a last empty piece (a read that meets
    the end of the text before any character fails). *)
Fixpoint getlines (delim : ascii) (s : string) : list string :=
  match s with
  | EmptyString => []
  | String c s' =>
      if decide (c = delim) then EmptyString :: getlines delim s'
      else match getlines delim s' with
           | [] => [String c EmptyString]
           | l :: ls => String c l :: ls
           end
  end.

Definition LF : ascii := ascii_of_nat 10.
Definition CR : ascii := ascii_of_nat 13.

(** [isspace] in the "C" locale. *)
Definition isspace (c : ascii) : bool :=
  let n := nat_of_ascii c in
  bool_decide (9 <= n <= 13)%nat || bool_decide (n = 32%nat).

Fixpoint skip_ws (s : string) : string :=
  match s with
  | String c s' => if isspace c then skip_ws s' else s
  | EmptyString => EmptyString
  end.

Fixpoint read_word (s : string) : string * string :=
  match s with
  | String c s' =>
      if isspace c then (EmptyString, s)
      else let '(w, rest) := read_word s' in (String c w, rest)
  | EmptyString => (EmptyString, EmptyString)
  end.

(** [stream >> word] on a stream holding [s]: the word read (empty when the
    extraction fails) and what is left in the stream. *)
Definition extract (s : string) : string * string := read_word (skip_ws s).

(** [if (!value.empty() && value.back() == '\r') value.pop_back();] *)
Fixpoint pop_back_cr (value : string) : string :=
  match value with
  | EmptyString => EmptyString
  | String c EmptyString => if decide (c = CR) then EmptyString else value
  | String c rest => String c (pop_back_cr rest)
  end.

(** The body of the header loop of [HttpServer::parse_request]: the entry a
    line adds to [request.headers], if any. *)
Definition parse_header_line (line : string) : result (option (string * string)) :=
  match find line ":" 0 with
  | Some colon_pos =>
      if decide (colon_pos + 2 < String.length line)%nat then
        key ← substr line 0 colon_pos;
        value ← substr_from line (colon_pos + 2);
        Ok (Some (key, pop_back_cr value))
      else Ok None
  | None => Ok None
  end.

Fixpoint parse_header_lines (lines : list string) (headers : gmap string string)
  : result (gmap string string) :=
  match lines with
  | [] => Ok headers
  | line :: rest =>
      entry ← parse_header_line line;
      match entry with
      | Some (key, value) => parse_header_lines rest (<[key := value]> headers)
      | None => parse_header_lines rest headers
      end
  end.

(** The lines read by [while (std::getline(stream, line) && line != "\r")],
    and what the stream still holds afterwards: nothing when the loop ended
    on a failed read, the lines after the first ["\r"] line otherwise. *)
Fixpoint header_block (lines : list string) : list string * list string :=
  match lines with
  | [] => ([], [])
  | line :: rest =>
      if decide (line = String CR EmptyString) then ([], rest)
      else let '(hs, body) := header_block rest in (line :: hs, body)
  end.

(** [remaining += line + "\n"] for every line left. *)
Fixpoint join_lines (lines : list string) : string :=
  match lines with
  | [] => EmptyString
  | line :: rest => line +:+ String LF (join_lines rest)
  end.

(** [HttpServer::parse_request] *)
Definition parse_request (raw_request : string) : result HttpRequest :=
  match getlines LF raw_request with
  | [] => Ok (Request EmptyString EmptyString ∅ EmptyString)
  | line :: rest =>
      let '(method_, after) := extract line in
      let '(path_query, _) := extract after in
      path_ ← match find path_query "?" 0 with
              | Some query_pos =>
                  p ← substr path_query 0 query_pos;
                  _ ← substr_from path_query (query_pos + 1);
                  Ok p
              | None => Ok path_query
              end;
      let '(header_lines, body_lines) := header_block rest in
      headers_ ← parse_header_lines header_lines ∅;
      Ok (Request method_ path_ headers_ (join_lines body_lines))
  end.

(** The handlers [setup_routes] registers. *)
Inductive route_handler :=
  | handle_create_room_route      (* [handle_create_room] *)
  | handle_delete_room_route      (* [handle_delete_room] *)
  | handle_get_room_stats_route   (* [handle_get_room_stats] *)
  | handle_get_server_stats_route (* [handle_get_server_stats] *)
  | handle_health_check_route.    (* [handle_health_check] *)

(** [routes_[method][path] = handler] on the inner [std::map], whose entries
    are kept, as the loops of [match_route] visit them, in the order of
    their keys. *)
Fixpoint route_insert (pattern : string) (h : route_handler)
    (entries : list (string * route_handler)) : list (string * route_handler) :=
  match entries with
  | [] => [(pattern, h)]
  | (p, h') :: rest =>
      match String.compare pattern p with
      | Lt => (pattern, h) :: entries
      | Eq => (pattern, h) :: rest
      | Gt => (p, h') :: route_insert pattern h rest
      end
  end.

(** [HttpServer::register_route] *)
Definition register_route (routes : gmap string (list (string * route_handler)))
    (method_ pattern : string) (h : route_handler)
  : gmap string (list (string * route_handler)) :=
  <[method_ := route_insert pattern h (default [] (routes !! method_))]> routes.

(** [HttpServer::setup_routes], on an empty table. *)
Definition setup_routes : gmap string (list (string * route_handler)) :=
  let r1 := register_route ∅ "POST" "/room/create" handle_create_room_route in
  let r2 := register_route r1 "POST" "/room/:room_id/stop" handle_delete_room_route in
  let r3 := register_route r2 "GET" "/room/:room_id/stats" handle_get_room_stats_route in
  let r4 := register_route r3 "GET" "/stats" handle_get_server_stats_route in
  register_route r4 "GET" "/health" handle_health_check_route.

(** The segment loop of [match_route] and the test that follows it, on the
    pieces the two streams still hold; [None] when the pattern does not
    match. *)
Fixpoint match_parts (pattern_parts path_parts : list string)
    (params : gmap string string) : result (option (gmap string string)) :=
  match pattern_parts with
  | [] =>
      (* the read of a pattern piece failed: the pattern is used up, the
         path must be too *)
      Ok (match path_parts with [] => Some params | _ => None end)
  | pattern_part :: pattern_rest =>
      match path_parts with
      | [] =>
          (* a pattern piece was read, the read of a path piece failed *)
          Ok (match pattern_rest with [] => Some params | _ => None end)
      | path_part :: path_rest =>
          if decide (pattern_part = EmptyString /\ path_part = EmptyString) then
            match_parts pattern_rest path_rest params
          else if bool_decide (String.get 0 pattern_part = Some ":"%char) then
            param_name ← substr_from pattern_part 1;
            match_parts pattern_rest path_rest (<[param_name := path_part]> params)
          else if decide (pattern_part <> path_part) then Ok None
          else match_parts pattern_rest path_rest params
      end
  end.

(** First pass of [match_route]: routes without parameters. *)
Fixpoint match_exact (entries : list (string * route_handler)) (path_ : string)
  : option route_handler :=
  match entries with
  | [] => None
  | (pattern, h) :: rest =>
      if negb (contains pattern ":") && bool_decide (pattern = path_) then Some h
      else match_exact rest path_
  end.

(** Second pass of [match_route]: routes with parameters. *)
Fixpoint match_parametrized (entries : list (string * route_handler)) (path_ : string)
  : result (option (route_handler * gmap string string)) :=
  match entries with
  | [] => Ok None
  | (pattern, h) :: rest =>
      if contains pattern ":" then
        matched ← match_parts (getlines "/" pattern) (getlines "/" path_) ∅;
        match matched with
        | Some params => Ok (Some (h, params))
        | None => match_parametrized rest path_
        end
      else match_parametrized rest path_
  end.

(** [HttpServer::match_route], called as [handle_client] does, with an empty
    [params]: the handler and the path parameters of the route found. *)
Definition match_route (routes : gmap string (list (string * route_handler)))
    (method_ path_ : string) : result (option (route_handler * gmap string string)) :=
  match routes !! method_ with
  | None => Ok None
  | Some entries =>
      match match_exact entries path_ with
      | Some h => Ok (Some (h, ∅))
      | None => match_parametrized entries path_
      end
  end.


(** *** Request texts *)

(** No character of [s] is white space. *)
Fixpoint no_space (s : string) : bool :=
  match s with
  | EmptyString => true
  | String c s' => negb (isspace c) && no_space s'
  end.

(** The last character of [s] is a line feed. *)
Fixpoint ends_with_lf (s : string) : bool :=
  match s with
  | EmptyString => false
  | String c EmptyString => bool_decide (c = LF)
  | String _ s' => ends_with_lf s'
  end.

(** Header lines [name: value] ended by CR LF. *)
Fixpoint header_text (hs : list (string * string)) : string :=
  match hs with
  | [] => EmptyString
  | (k, v) :: rest => k +:+ ": " +:+ v +:+ crlf +:+ header_text rest
  end.

(** A request as a client writes it: request line, header lines, an empty
    line, body. *)
Definition request_text (method_ target : string) (hs : list (string * string))
    (body_ : string) : string :=
  method_ +:+ " " +:+ target +:+ " HTTP/1.1" +:+ crlf
    +:+ header_text hs +:+ crlf +:+ body_.

(** The header map the lines of [hs] build, later lines replacing earlier
    ones of the same name. *)
Definition headers_of (hs : list (string * string)) : gmap string string :=
  foldl (fun m kv => <[kv.1 := kv.2]> m) ∅ hs.

(** The line a header entry is written on, as [getline] returns it. *)
Definition header_line_of (kv : string * string) : string :=
  kv.1 +:+ ":" +:+ String " " (kv.2 +:+ String CR EmptyString).


(** *** Room handlers ([handle_create_room], [handle_delete_room]) *)

(** [HttpResponse] is declared in [http_server.h], which is not among the
    sources.  A handler is modelled by what it does to the response it
    returns, which starts default-constructed: the calls of [set_error] and
    [set_json] and the assignments to [status_code], in order. *)
Inductive response_call :=
  | set_error (code : Z) (message : string)
  | set_json (json : string)
  | assign_status_code (code : Z).

(** The calls of a handler on the room/stream collaborator. *)
Inductive room_call :=
  | create_room_call (post host : string)
  | delete_room_call (room : string).

#[global] Instance response_call_eq_dec : EqDecision response_call.
Proof. solve_decision. Defined.
#[global] Instance room_call_eq_dec : EqDecision room_call.
Proof. solve_decision. Defined.

(** The block of [handle_create_room] that reads one quoted field of the
    body; the handler has it twice, for [post_id] and for [host_user_id].
    [Some v] is the value the field variable holds after the block
    ([EmptyString], its initial value, when nothing was assigned); [None]
    stands for the early return taken when the value read is longer than 256
    characters. *)
Definition quoted_field (body_ key : string) : result (option string) :=
  match find body_ (quoted key) 0 with
  | Some key_pos =>
      match find body_ ":" key_pos with
      | Some colon_pos =>
          match find body_ dq colon_pos with
          | Some quote_start =>
              let start := (quote_start + 1)%nat in
              if decide (start < String.length body_)%nat then
                match find body_ dq start with
                | Some end_ =>
                    if decide (start < end_)%nat then
                      v ← substr body_ start (end_ - start);
                      if decide (256 < String.length v)%nat then Ok None
                      else Ok (Some v)
                    else Ok (Some EmptyString)
                | None => Ok (Some EmptyString)
                end
              else Ok (Some EmptyString)
          | None => Ok (Some EmptyString)
          end
      | None => Ok (Some EmptyString)
      end
  | None => Ok (Some EmptyString)
  end.

(** The body of the 201 answer:
    [{"room_id":"<room>","post_id":"<post>"}] *)
Definition created_json (room post : string) : string :=
  "{" +:+ quoted "room_id" +:+ ":" +:+ dq +:+ room
      +:+ dq +:+ "," +:+ quoted "post_id" +:+ ":" +:+ dq +:+ post +:+ dq +:+ "}".

(** The body of the answer to a stopped room:
    [{"status":"stopped","room_id":"<room>"}] *)
Definition stopped_json (room : string) : string :=
  "{" +:+ marker "status" "stopped" +:+ "," +:+ quoted "room_id" +:+ ":"
      +:+ dq +:+ room +:+ dq +:+ "}".

Section Handlers.

(** The room/stream collaborator, of which the two handlers use
    [create_room], which answers the id of the new room or the empty string,
    and [delete_room], which tells whether there was such a room. *)
Variable StreamingServer : Type.
Variable create_room : string -> string -> StreamingServer -> string * StreamingServer.
Variable delete_room : string -> StreamingServer -> bool * StreamingServer.

(** [HttpServer::handle_create_room] *)
Definition handle_create_room (req : HttpRequest) (srv : StreamingServer)
  : result (list response_call * StreamingServer * list room_call) :=
  post ← quoted_field (body req) "post_id";
  match post with
  | None => Ok ([set_error 400 "post_id too long"], srv, [])
  | Some post_id =>
      host ← quoted_field (body req) "host_user_id";
      match host with
      | None => Ok ([set_error 400 "host_user_id too long"], srv, [])
      | Some host_user_id =>
          if decide (post_id = EmptyString \/ host_user_id = EmptyString) then
            Ok ([set_error 400 "Missing post_id or host_user_id"], srv, [])
          else
            let '(room, srv') := create_room post_id host_user_id srv in
            if decide (room = EmptyString) then
              Ok ([set_error 500 "Failed to create room"], srv',
                  [create_room_call post_id host_user_id])
            else
              Ok ([assign_status_code 201; set_json (created_json room post_id)],
                  srv', [create_room_call post_id host_user_id])
      end
  end.

(** [HttpServer::handle_delete_room]; [path_params] is the field of the
    request [handle_client] fills with the parameters [match_route] found. *)
Definition handle_delete_room (path_params : gmap string string) (srv : StreamingServer)
  : list response_call * StreamingServer * list room_call :=
  match path_params !! "room_id" with
  | None => ([set_error 400 "Missing room_id parameter"], srv, [])
  | Some room =>
      let '(deleted, srv') := delete_room room srv in
      if deleted : bool then
        ([set_json (stopped_json room)], srv', [delete_room_call room])
      else ([set_error 404 "Room not found"], srv', [delete_room_call room])
  end.

End Handlers.

Arguments handle_create_room {StreamingServer} create_room req srv.
Arguments handle_delete_room {StreamingServer} delete_room path_params srv.

(** A collaborator that names the room after the post and counts the rooms
    it made. *)
Definition counting_create_room (post host : string) (n : nat) : string * nat :=
  ("room_" +:+ post, S n).

(** A collaborator whose only room is [abc]. *)
Definition counting_delete_room (room : string) (n : nat) : bool * nat :=
  (bool_decide (room = "abc"), n).


(** The body [body_] holds the field [key] with value [v] where the handler
    looks for it: the first occurrence of the quoted key is followed by
    [gap0], a colon, [gap1] and the quoted value, with no colon in [gap0] and
    no double quote in [gap1] or in the value. *)
Definition field_at (body_ key pre gap0 gap1 v post : string) : Prop :=
  body_ = pre +:+ quoted key +:+ gap0 +:+ ":" +:+ gap1 +:+ dq +:+ v +:+ dq +:+ post
  /\ find body_ (quoted key) 0 = Some (String.length pre)
  /\ contains gap0 ":" = false
  /\ contains gap1 dq = false
  /\ contains v dq = false.

(** The body [{"post_id":"p1","host_user_id": "u1"}] and a request that
    carries it. *)
Definition sample_create_body : string :=
  "{" +:+ quoted "post_id" +:+ ":" +:+ dq +:+ "p1" +:+ dq +:+ ","
      +:+ quoted "host_user_id" +:+ ": " +:+ dq +:+ "u1" +:+ dq +:+ "}".

Definition sample_create : HttpRequest :=
  Request "POST" "/room/create" ∅ sample_create_body.

(** A request whose [post_id] is written as a number:
    [{"post_id":42,"host_user_id":"u1"}]. *)
Definition sample_create_number : HttpRequest :=
  Request "POST" "/room/create" ∅
    ("{" +:+ quoted "post_id" +:+ ":" +:+ "42" +:+ "," +:+ quoted "host_user_id"
         +:+ ":" +:+ dq +:+ "u1" +:+ dq +:+ "}").


(** *** The read loop of [handle_client] *)

(** What one call of [read(client_socket, ...)] returns: some bytes, the end
    of the stream (0), or -1 with [errno] telling whether the call timed out
    ([EAGAIN] or [EWOULDBLOCK]) or failed. *)
Inductive read_result :=
  | read_bytes (bytes : string)
  | read_end
  | read_would_block
  | read_failed.

Definition MAX_REQUEST_SIZE : Z := 16384.

(** The value of a decimal digit. *)
Definition digit_value (c : ascii) : option Z :=
  let n := nat_of_ascii c in
  if decide (48 <= n <= 57)%nat then Some (Z.of_nat n - 48) else None.

(** The decimal digits at the head of [s]: their value on top of [acc], and
    whether there was any. *)
Fixpoint read_digits (s : string) (acc : Z) (any : bool) : Z * bool :=
  match s with
  | String c s' =>
      match digit_value c with
      | Some d => read_digits s' (10 * acc + d) true
      | None => (acc, any)
      end
  | EmptyString => (acc, any)
  end.

(** [ULONG_MAX] where [unsigned long] has 64 bits. *)
Definition ULONG_MAX : Z := 2 ^ 64 - 1.

(** [std::stoul(str)], which reads like [strtoul] in base 10: white space is
    skipped, one sign is accepted, the digits that follow are read and
    whatever comes after them is ignored.  Without a digit the call throws
    [std::invalid_argument]; a value above [ULONG_MAX] throws
    [std::out_of_range]; a minus sign negates the value modulo
    [ULONG_MAX + 1]. *)
Definition stoul (str : string) : result Z :=
  let s := skip_ws str in
  let '(negative, digits) :=
    match s with
    | String "-" s' => (true, s')
    | String "+" s' => (false, s')
    | _ => (false, s)
    end in
  let '(value, any) := read_digits digits 0 false in
  if negb any then Throw std_invalid_argument
  else if ULONG_MAX <? value then Throw std_out_of_range
  else Ok (if negative : bool then (- value) mod (ULONG_MAX + 1) else value).

(** [while (value_start < headers.length() && (headers[value_start] == ' '
    || headers[value_start] == '\t')) value_start++;]: the position the loop
    leaves in [value_start], which it enters as [pos]. *)
Fixpoint skip_blanks (headers : string) (pos : nat) : nat :=
  match headers with
  | EmptyString => pos
  | String c rest =>
      match pos with
      | O =>
          if bool_decide (c = " "%char) || bool_decide (c = ascii_of_nat 9)
          then S (skip_blanks rest O)
          else O
      | S pos' => S (skip_blanks rest pos')
      end
  end.

(** The [content_length] the read loop takes from the head of the request,
    the text in front of the first empty line: 0 unless [Content-Length:]
    (or, failing that, [content-length:]) occurs somewhere in it and a
    carriage return follows. *)
Definition content_length_of (headers : string) : result Z :=
  let cl_pos :=
    match find headers "Content-Length:" 0 with
    | Some cl_pos => Some cl_pos
    | None => find headers "content-length:" 0
    end in
  match cl_pos with
  | Some cl_pos =>
      let value_start := skip_blanks headers (cl_pos + 15) in
      match find headers (String CR EmptyString) value_start with
      | Some value_end =>
          cl_str ← substr headers value_start (value_end - value_start);
          stoul cl_str
      | None => Ok 0
      end
  | None => Ok 0
  end.

(** The test the read loop makes on what it has read so far: the head is
    there, up to the empty line, and the body is as long as
    [content_length]. *)
Definition request_complete (raw_request : string) : result bool :=
  match find raw_request (crlf +:+ crlf) 0 with
  | Some header_end =>
      headers ← substr raw_request 0 header_end;
      content_length ← content_length_of headers;
      let body_start := (header_end + 4)%nat in
      let current_body_length := (String.length raw_request - body_start)%nat in
      Ok (bool_decide (content_length <= Z.of_nat current_body_length))
  | None => Ok false
  end.

(** The read loop at the head of [HttpServer::handle_client], run over what
    the calls of [read] return, in order; a call for which [reads] has
    nothing left returns when the receive timeout of the socket expires,
    with [EAGAIN].  [Some raw_request] when the loop is left by a [break],
    [None] when a read fails and the function closes the socket and
    returns. *)
Fixpoint read_request (reads : list read_result) (raw_request : string)
    (total_bytes : nat) : result (option string) :=
  match reads with
  | [] => Ok (Some raw_request)
  | read_failed :: _ => Ok None
  | read_would_block :: _ => Ok (Some raw_request)
  | read_end :: _ => Ok (Some raw_request)
  | read_bytes bytes :: rest =>
      if decide (bytes = EmptyString) then Ok (Some raw_request)
      else
        let raw_request := raw_request +:+ bytes in
        let total_bytes := (total_bytes + String.length bytes)%nat in
        complete ← request_complete raw_request;
        if complete : bool then Ok (Some raw_request)
        else if MAX_REQUEST_SIZE <=? Z.of_nat total_bytes then Ok (Some raw_request)
        else read_request rest raw_request total_bytes
  end.

(** [HttpServer::handle_client] as a whole: the read loop, the parse, and
    then [handle_client] above, all inside the one [try] block whose
    handlers close the socket. *)
Definition handle_client_from_socket {StreamingServer : Type}
    (w : World StreamingServer) (client_socket : Z) (reads : list read_result)
    (env : upgrade_env) : World StreamingServer * list event :=
  try_catch
    (raw ← read_request reads EmptyString 0;
     match raw with
     | None => Ok (w, [socket_close client_socket])
     | Some raw_request =>
         if decide (raw_request = EmptyString) then Ok (w, [socket_close client_socket])
         else
           request ← parse_request raw_request;
           Ok (handle_client w client_socket request env)
     end)
    (fun _ => (w, [socket_close client_socket])).



(** The same upgrade request with the query string [?Content-Length:x]. *)
Definition sample_upgrade_trap : string :=
  request_text "GET" ("/room/abc/host" +:+ "?Content-Length:x")
    [("Upgrade", "WebSocket"); ("Connection", "Upgrade");
     ("Sec-WebSocket-Key", "dGhlIHNhbXBsZSBub25jZQ==")] EmptyString.

(** * Properties *)

(** ** Facts about [std::string] operations *)

#[local] Arguments String.prefix : simpl never.

Lemma string_app_cons c (s1 s2 : string) : String c s1 +:+ s2 = String c (s1 +:+ s2).
Proof. reflexivity. Qed.

Lemma string_app_nil_l (s : string) : EmptyString +:+ s = s.
Proof. reflexivity. Qed.

Ltac str_simpl :=
  repeat (rewrite ?string_app_cons, ?string_app_nil_l; simpl).
Tactic Notation "str_simpl" "in" hyp(H) :=
  repeat (rewrite ?string_app_cons, ?string_app_nil_l in H; simpl in H).

Section StringFacts.

Implicit Types s pat pre post : string.

Lemma string_app_nil_r s : s +:+ EmptyString = s.
Proof. induction s as [|c s IH]; str_simpl; [done | by rewrite IH]. Qed.

Lemma string_app_assoc s1 s2 s3 : (s1 +:+ s2) +:+ s3 = s1 +:+ (s2 +:+ s3).
Proof. induction s1 as [|c s1 IH]; str_simpl; [done | by rewrite IH]. Qed.

Lemma string_app_length s1 s2 :
  String.length (s1 +:+ s2) = (String.length s1 + String.length s2)%nat.
Proof. induction s1 as [|c s1 IH]; str_simpl; [done | by rewrite IH]. Qed.

Lemma prefix_cons pat c s :
  String.prefix pat (String c s)
  = match pat with
    | EmptyString => true
    | String a pat' => if decide (a = c) then String.prefix pat' s else false
    end.
Proof.
  destruct pat as [|a pat']; [done|].
  change (String.prefix (String a pat') (String c s))
    with (if ascii_dec a c then String.prefix pat' s else false).
  destruct (ascii_dec a c), (decide (a = c)); done.
Qed.

Lemma prefix_nil_l s : String.prefix EmptyString s = true.
Proof. by destruct s. Qed.

Lemma prefix_app pat post : String.prefix pat (pat +:+ post) = true.
Proof.
  induction pat as [|a pat IH]; str_simpl; [apply prefix_nil_l|].
  rewrite prefix_cons. by rewrite decide_True.
Qed.

Lemma prefix_inv pat s : String.prefix pat s = true -> exists post, s = pat +:+ post.
Proof.
  revert s. induction pat as [|a pat IH]; intros s H; [by exists s|].
  destruct s as [|c s]; [done|].
  rewrite prefix_cons in H. case_decide; [|done]. subst c.
  destruct (IH _ H) as [post ->]. by exists post.
Qed.

(** [find] returns a position at which the pattern occurs. *)
Lemma find_Some_split s pat pos m :
  find s pat pos = Some m ->
  exists pre post, s = pre +:+ pat +:+ post /\ String.length pre = m /\ (pos <= m)%nat.
Proof.
  unfold find. revert pos m.
  induction s as [|c s IH]; intros pos m H; str_simpl in H.
  - destruct pos; [|done]. destruct pat; [|done].
    injection H as <-. by exists EmptyString, EmptyString.
  - destruct pos as [|pos].
    + destruct (String.prefix pat (String c s)) eqn:Hp.
      * injection H as <-. destruct (prefix_inv _ _ Hp) as [post ->].
        by exists EmptyString, post.
      * destruct (String.index 0 pat s) as [k|] eqn:Hk; [|done].
        injection H as <-.
        destruct (IH _ _ Hk) as (pre & post & -> & <- & _).
        exists (String c pre), post. str_simpl. split_and!; [done | done | lia].
    + destruct (String.index pos pat s) as [k|] eqn:Hk; [|done].
      injection H as <-.
      destruct (IH _ _ Hk) as (pre & post & -> & <- & Hle).
      exists (String c pre), post. str_simpl. split_and!; [done | done | lia].
Qed.

Lemma find_Some_bound s pat pos m :
  find s pat pos = Some m -> (m + String.length pat <= String.length s)%nat.
Proof.
  intros H. destruct (find_Some_split _ _ _ _ H) as (pre & post & -> & <- & _).
  rewrite !string_app_length. lia.
Qed.

Lemma find_app_is_Some pre pat post : is_Some (find (pre +:+ pat +:+ post) pat 0).
Proof.
  unfold find. induction pre as [|c pre IH]; str_simpl.
  - destruct (pat +:+ post) as [|c s] eqn:E.
    + destruct pat; [by eexists | done].
    + str_simpl. rewrite <- E, prefix_app. by eexists.
  - destruct (String.prefix pat (String c (pre +:+ pat +:+ post))); [by eexists|].
    destruct IH as [k ->]. by eexists.
Qed.

(** [contains s pat] holds exactly when [pat] occurs in [s] as a block of
    consecutive characters. *)
Lemma contains_spec s pat :
  contains s pat = true <-> exists pre post, s = pre +:+ pat +:+ post.
Proof.
  unfold contains. rewrite bool_decide_eq_true. split.
  - intros [m Hm]. destruct (find_Some_split _ _ _ _ Hm) as (pre & post & -> & _).
    by exists pre, post.
  - intros (pre & post & ->). apply find_app_is_Some.
Qed.

Lemma contains_false s pat : contains s pat = false <-> find s pat 0 = None.
Proof.
  unfold contains. rewrite bool_decide_eq_false, <- eq_None_not_Some. done.
Qed.

Lemma substring_0_app s1 s2 : String.substring 0 (String.length s1) (s1 +:+ s2) = s1.
Proof.
  induction s1 as [|c s1 IH]; str_simpl; [by destruct s2 | by rewrite IH].
Qed.

Lemma substring_all s : String.substring 0 (String.length s) s = s.
Proof. rewrite <- (string_app_nil_r s) at 2. apply substring_0_app. Qed.

Lemma substring_skip s1 s2 n :
  String.substring (String.length s1) n (s1 +:+ s2) = String.substring 0 n s2.
Proof. induction s1 as [|c s1 IH]; str_simpl; done. Qed.

Lemma find_skip s1 s2 pat :
  find (s1 +:+ s2) pat (String.length s1)
  = (fun k => (String.length s1 + k)%nat) <$> find s2 pat 0.
Proof.
  unfold find. induction s1 as [|c s1 IH]; str_simpl.
  - by destruct (String.index 0 pat s2).
  - rewrite IH. by destruct (String.index 0 pat s2).
Qed.

(** The first [/] of [id/rest] when [id] holds none. *)
Lemma find_slash_after id rest :
  contains id "/" = false ->
  find (id +:+ "/" +:+ rest) "/" 0 = Some (String.length id).
Proof.
  rewrite contains_false. unfold find.
  induction id as [|c id IH]; intros H.
  - str_simpl. by rewrite prefix_cons, decide_True, prefix_nil_l.
  - str_simpl in H; str_simpl. rewrite prefix_cons in H |- *.
    case_decide.
    + by rewrite prefix_nil_l in H.
    + destruct (String.index 0 "/" id) eqn:E; [done|].
      specialize (IH eq_refl). str_simpl in IH. by rewrite IH.
Qed.



End StringFacts.

(** ** Handshake *)

Lemma be_bytes_length n x : length (OpenSSL.be_bytes n x) = n.
Proof. induction n as [|n IH]; simpl; [done | by rewrite IH]. Qed.

Lemma SHA1_length d : length (OpenSSL.SHA1 d) = OpenSSL.SHA_DIGEST_LENGTH.
Proof. unfold OpenSSL.SHA1. cbv zeta. by rewrite !length_app, !be_bytes_length. Qed.

Lemma bytes_of_string_length s :
  length (OpenSSL.bytes_of_string s) = String.length s.
Proof.
  unfold OpenSSL.bytes_of_string. rewrite length_fmap.
  induction s as [|c s IH]; simpl; [done | by rewrite IH].
Qed.

(** C4: for every client nonce the accept credential computed by
    [compute_websocket_accept] is the base64 encoding of the SHA-1 digest of
    the bytes of the nonce followed by the protocol GUID; for the nonce of the
    known vector it is exactly the expected text. *)
Theorem C4_accept_credential :
  (forall nonce, compute_websocket_accept nonce = accept_credential_reference nonce)
  /\ compute_websocket_accept "dGhlIHNhbXBsZSBub25jZQ==" = "s3pPLMBiTxaQ9kYGzzhZRbK+xOo=".
Proof.
  split.
  - intros nonce. unfold compute_websocket_accept, accept_credential_reference.
    cbv zeta.
    rewrite (take_ge (OpenSSL.bytes_of_string _))
      by (rewrite bytes_of_string_length; lia).
    by rewrite take_ge by (rewrite SHA1_length; lia).
  - vm_compute. reflexivity.
Qed.





(** ** Message codec and router *)

Lemma room_id_opening_length : String.length room_id_opening = 11%nat.
Proof. reflexivity. Qed.

Lemma substr_in_range s pos len :
  (pos <= String.length s)%nat -> substr s pos len = Ok (String.substring pos len s).
Proof. intros H. unfold substr. by rewrite decide_True. Qed.

(** The decoder never throws, and hands the raw text on as the payload. *)
Lemma parse_message_total json :
  exists msg, parse_message json = Ok msg /\ data msg = json.
Proof.
  unfold parse_message.
  repeat match goal with
         | |- context [if ?b then _ else _] => destruct b
         end; try (eexists; split; reflexivity).
  destruct (find json room_id_opening 0) as [room_pos|] eqn:Hroom;
    [|eexists; split; reflexivity].
  destruct (find json dq (room_pos + 11)) as [end_|];
    [|eexists; split; reflexivity].
  apply find_Some_bound in Hroom. rewrite room_id_opening_length in Hroom.
  rewrite substr_in_range by done.
  eexists; split; reflexivity.
Qed.

Lemma parse_message_unrecognized json :
  Forall (fun m => contains json m = false) type_markers ->
  parse_message json = Ok (Message ERROR json EmptyString EmptyString).
Proof.
  unfold type_markers. rewrite !Forall_cons.
  intros (H1 & H2 & H3 & H4 & H5 & H6 & H7 & _).
  unfold parse_message. by rewrite H1, H2, H3, H4, H5, H6, H7.
Qed.

Section RouterFacts.

Context {SS : Type}.
Variable add_peer :
  string -> string -> string -> ParticipantRole -> SS -> string * SS.
Variable remove_peer : string -> SS -> SS.

#[local] Abbreviation handle := (handle_message add_peer remove_peer).

Lemma handle_message_decoded s srv json msg :
  parse_message json = Ok msg ->
  handle s srv json =
  match type msg with
  | JOIN =>
      let room := room_id msg in
      let host := contains (data msg) (marker "role" "host") in
      let role := if host then HOST else VIEWER in
      let r := add_peer room (data msg) (data msg) role srv in
      Ok (Session room r.1 host (ws_is_open s), r.2,
          [add_peer_call room (data msg) (data msg) role;
           ws_write (build_message JOIN (join_ack_data r.1 room))])
  | OFFER => Ok (s, srv, [ws_write (build_message ANSWER (data msg))])
  | LEAVE =>
      Ok ((close s).1,
          if decide (peer_id_ s = EmptyString) then srv else remove_peer (peer_id_ s) srv,
          (if decide (peer_id_ s = EmptyString) then []
           else [remove_peer_call (peer_id_ s)]) ++ (close s).2)
  | _ => Ok (s, srv, [])
  end.
Proof.
  intros Hp. unfold handle_message. rewrite Hp. simpl.
  destruct (type msg); try reflexivity.
  - by destruct (add_peer _ _ _ _ _).
  - destruct (decide (peer_id_ s = EmptyString)); by destruct (close s).
Qed.

(** The router never throws. *)
Lemma handle_message_total s srv json : exists r, handle s srv json = Ok r.
Proof.
  destruct (parse_message_total json) as (msg & Hp & _).
  rewrite (handle_message_decoded _ _ _ _ Hp).
  destruct (type msg); by eexists.
Qed.

Lemma on_read_total s srv ec json :
  exists r, on_read add_peer remove_peer s srv ec json = Ok r.
Proof.
  unfold on_read. destruct ec; try by eexists.
  destruct (handle_message_total s srv json) as [[[s' srv'] tr] ->].
  by eexists.
Qed.

Lemma close_fst s : (close s).1 = closed_session s.
Proof.
  unfold close, closed_session. destruct s as [r p h o]; simpl.
  by destruct o.
Qed.

Lemma close_snd s : (close s).2 = if ws_is_open s then [ws_close] else [].
Proof. unfold close. by destruct (ws_is_open s). Qed.

(** The handler of [do_read] when [on_read] has posted the next read: the
    session lives on. *)
Lemma do_read_handler_rearmed owned s srv ec m s' srv' tr :
  on_read add_peer remove_peer s srv ec m = Ok (s', srv', tr, true) ->
  do_read_handler add_peer remove_peer owned s srv ec m = Ok (s', srv', tr, true).
Proof. intros H. unfold do_read_handler. by rewrite H. Qed.


Lemma do_read_handler_total owned s srv ec m :
  exists r, do_read_handler add_peer remove_peer owned s srv ec m = Ok r.
Proof.
  unfold do_read_handler.
  destruct (on_read_total s srv ec m) as [[[[s' srv'] tr] again] ->].
  cbn [mbind result_bind].
  destruct (again || owned); [by eexists|].
  destruct (session_destructor s'). by eexists.
Qed.

Lemma read_loop_closed s srv incoming :
  ws_is_open s = false ->
  read_loop add_peer remove_peer s srv incoming = Ok (s, srv, []).
Proof.
  intros Hc. destruct incoming as [|[ec m] rest]; [done|].
  simpl. unfold async_read. by rewrite Hc.
Qed.

(** C6: the decoder returns a message for every input text; a text that
    holds none of the recognized type markers decodes to an ERROR message;
    and the router handles a frame that decodes to ERROR without changing
    the session or the collaborator, without any reply, and goes on
    reading from the open connection. *)
Theorem C6_decoder_total_error_noop :
  (forall json, exists msg, parse_message json = Ok msg)
  /\ (forall json,
        Forall (fun m => contains json m = false) type_markers ->
        parse_message json = Ok (Message ERROR json EmptyString EmptyString))
  /\ (forall s srv json msg,
        parse_message json = Ok msg -> type msg = ERROR ->
        handle s srv json = Ok (s, srv, [])
        /\ on_read add_peer remove_peer s srv ec_success json = Ok (s, srv, [], true)).
Proof.
  split_and!.
  - intros json. destruct (parse_message_total json) as (msg & ? & _). by exists msg.
  - apply parse_message_unrecognized.
  - intros s srv json msg Hp Ht.
    assert (handle s srv json = Ok (s, srv, [])) as Hh.
    { rewrite (handle_message_decoded _ _ _ _ Hp). by rewrite Ht. }
    split; [done|]. unfold on_read. by rewrite Hh.
Qed.

(** C2: a LEAVE frame handled by a session bound to a non-empty peer id
    makes exactly one [remove_peer] call, for that id, and leaves the
    session closed; once a session is closed its read loop dispatches
    nothing more, so whatever follows the first LEAVE on the connection,
    a second LEAVE included, makes no further [remove_peer] call. *)
Theorem C2_leave_removes_once :
  (forall s srv json msg,
      parse_message json = Ok msg -> type msg = LEAVE ->
      peer_id_ s <> EmptyString ->
      handle s srv json
      = Ok (closed_session s, remove_peer (peer_id_ s) srv,
            remove_peer_call (peer_id_ s) :: (if ws_is_open s then [ws_close] else []))
      /\ router_state (closed_session s) = CLOSED)
  /\ (forall s srv incoming,
        router_state s = CLOSED ->
        read_loop add_peer remove_peer s srv incoming = Ok (s, srv, []))
  /\ (forall s srv json msg rest,
        parse_message json = Ok msg -> type msg = LEAVE ->
        peer_id_ s <> EmptyString -> ws_is_open s = true ->
        read_loop add_peer remove_peer s srv ((ec_success, json) :: rest)
        = Ok (closed_session s, remove_peer (peer_id_ s) srv,
              [remove_peer_call (peer_id_ s); ws_close])).
Proof.
  assert (forall s srv json msg,
             parse_message json = Ok msg -> type msg = LEAVE ->
             peer_id_ s <> EmptyString ->
             handle s srv json
             = Ok (closed_session s, remove_peer (peer_id_ s) srv,
                   remove_peer_call (peer_id_ s)
                     :: (if ws_is_open s then [ws_close] else []))) as Hleave.
  { intros s srv json msg Hp Ht Hbound.
    rewrite (handle_message_decoded _ _ _ _ Hp), Ht.
    rewrite close_fst, close_snd. by rewrite !decide_False. }
  split_and!.
  - intros s srv json msg Hp Ht Hbound. split; [by eapply Hleave | done].
  - intros s srv incoming Hc. apply read_loop_closed.
    unfold router_state in Hc. destruct (ws_is_open s); [|done].
    by case_decide.
  - intros s srv json msg rest Hp Ht Hbound Hopen.
    cbn [read_loop]. unfold async_read. rewrite Hopen.
    unfold on_read. rewrite (Hleave _ _ _ _ Hp Ht Hbound), Hopen. simpl.
    rewrite read_loop_closed by done. done.
Qed.

End RouterFacts.

Lemma parse_message_data json msg : parse_message json = Ok msg -> data msg = json.
Proof.
  intros H. destruct (parse_message_total json) as (msg' & H' & Hd).
  rewrite H in H'. by injection H' as ->.
Qed.

Section JoinFacts.

Context {SS : Type}.
Variable add_peer :
  string -> string -> string -> ParticipantRole -> SS -> string * SS.
Variable remove_peer : string -> SS -> SS.

(** C1 (amended): when the read of an UNJOINED session completes with a
    frame that decodes to JOIN, the router stores the room id of the message
    in the session, takes the role HOST exactly when the payload holds the
    text ["role":"host"] and VIEWER otherwise, calls [add_peer] with the room
    id, the payload twice and that role, binds the id it returns to the
    session, and writes one frame, on the transport of that session only:
    [{"type":"join","data":{"peer_id":"<id>","room_id":"<room>"}}] with the
    id returned and the room id of the message.  No other session and no
    registry entry changes.  The session is then JOINED exactly when the id
    the collaborator returned is not empty. *)
Theorem C1_join_binds_identity (w : World SS) (a : addr) json msg :
  (a < next_addr w)%nat ->
  router_state (store w a) = UNJOINED ->
  parse_message json = Ok msg ->
  type msg = JOIN ->
  let host := contains (data msg) (marker "role" "host") in
  let role := if host then HOST else VIEWER in
  let r := add_peer (room_id msg) (data msg) (data msg) role (streaming_server_ w) in
  let s' := Session (room_id msg) r.1 host true in
  let ack :=
    "{" +:+ dq +:+ "type" +:+ dq +:+ ":" +:+ dq +:+ "join" +:+ dq +:+ ","
        +:+ dq +:+ "data" +:+ dq +:+ ":"
        +:+ "{" +:+ dq +:+ "peer_id" +:+ dq +:+ ":" +:+ dq +:+ r.1 +:+ dq +:+ ","
        +:+ dq +:+ "room_id" +:+ dq +:+ ":" +:+ dq +:+ room_id msg +:+ dq +:+ "}"
        +:+ "}" in
  deliver add_peer remove_peer w a (ec_success, json)
  = Ok (MkWorld (ws_server w) (<[a := s']> (store w)) (next_addr w)
                (native_sessions w) r.2 (websocket_server_ w),
        [session_call a (add_peer_call (room_id msg) (data msg) (data msg) role);
         session_call a (ws_write ack)])
  /\ data msg = json
  /\ (role = HOST <-> exists pre post, json = pre +:+ marker "role" "host" +:+ post)
  /\ (router_state s' = JOINED <-> r.1 <> EmptyString).
Proof.
  intros Ha Hst Hp Ht host role r s' ack.
  assert (ws_is_open (store w a) = true) as Hopen.
  { unfold router_state in Hst. by destruct (ws_is_open (store w a)). }
  pose proof (parse_message_data _ _ Hp) as Hd.
  assert (build_message JOIN (join_ack_data r.1 (room_id msg)) = ack) as Hack.
  { unfold build_message, join_ack_data, quoted, ack. cbn [type_name].
    by rewrite !string_app_assoc. }
  split_and!.
  - unfold deliver. rewrite decide_True by done.
    unfold async_read. rewrite Hopen.
    rewrite (do_read_handler_rearmed add_peer remove_peer _ _ _ _ _ s' r.2
               [add_peer_call (room_id msg) (data msg) (data msg) role; ws_write ack]);
      [done|].
    unfold on_read.
    rewrite (handle_message_decoded _ _ _ _ _ _ Hp), Ht. cbv zeta.
    rewrite <- Hack. by rewrite Hopen.
  - done.
  - rewrite <- Hd, <- contains_spec. subst role host.
    by destruct (contains (data msg) (marker "role" "host")).
  - unfold router_state, s'. simpl. by case_decide.
Qed.

(** C1 as stated fails: when the collaborator's [add_peer] returns the empty
    id, an UNJOINED session that receives a JOIN is bound to the empty peer
    id and is not JOINED afterwards. *)
Lemma C1_counterexample :
  let w := (on_accept (initial_world 0%nat true) false true).1 in
  (0 < next_addr w)%nat
  /\ router_state (store w 0%nat) = UNJOINED
  /\ parse_message sample_join = Ok (Message JOIN sample_join "r1" EmptyString)
  /\ exists w' tr,
       deliver failing_add_peer counting_remove_peer w 0%nat (ec_success, sample_join)
       = Ok (w', tr)
       /\ store w' 0%nat = Session "r1" EmptyString true true
       /\ router_state (store w' 0%nat) = UNJOINED
       /\ router_state (store w' 0%nat) <> JOINED.
Proof.
  split_and!; [simpl; lia | reflexivity | reflexivity |].
  eexists _, _. split_and!; [reflexivity | reflexivity | reflexivity | discriminate].
Qed.

End JoinFacts.

(** A session accepted on the native path that sends the sample JOIN frame
    ends up JOINED, bound to the first id of the counting collaborator. *)
Lemma C1_join_binds_identity_witness :
  router_state (Session "r1" "peer_0" true true) = JOINED.
Proof.
  pose (w := (on_accept (initial_world 0%nat true) false true).1).
  refine (proj2 (proj2 (proj2 (proj2
    (C1_join_binds_identity counting_add_peer counting_remove_peer w 0%nat
       sample_join (Message JOIN sample_join "r1" EmptyString) _ _ _ _)))) _).
  - vm_compute. lia.
  - reflexivity.
  - reflexivity.
  - reflexivity.
  - vm_compute. discriminate.
Defined.

(** The text [hello] holds no type marker and decodes to ERROR; handling it
    changes nothing and writes nothing. *)
Lemma C6_decoder_total_error_noop_witness :
  parse_message "hello" = Ok (Message ERROR "hello" EmptyString EmptyString)
  /\ handle_message counting_add_peer counting_remove_peer sample_unjoined 0%nat "hello"
     = Ok (sample_unjoined, 0%nat, []).
Proof.
  destruct (C6_decoder_total_error_noop counting_add_peer counting_remove_peer)
    as (_ & Herr & Hnoop).
  split.
  - apply Herr. unfold type_markers. repeat constructor.
  - apply (Hnoop sample_unjoined 0%nat "hello"
             (Message ERROR "hello" EmptyString EmptyString)); reflexivity.
Defined.

(** Two LEAVE frames in a row on an open session bound to [p]: one
    [remove_peer] call, one close. *)
Lemma C2_leave_removes_once_witness :
  read_loop counting_add_peer counting_remove_peer
    (Session "r1" "p" false true) 7%nat
    [(ec_success, sample_leave); (ec_success, sample_leave)]
  = Ok (Session "r1" "p" false false, 7%nat, [remove_peer_call "p"; ws_close]).
Proof.
  destruct (C2_leave_removes_once counting_add_peer counting_remove_peer)
    as (_ & _ & Hloop).
  apply (Hloop (Session "r1" "p" false true) 7%nat sample_leave
           (Message LEAVE sample_leave EmptyString EmptyString)
           [(ec_success, sample_leave)]).
  - reflexivity.
  - reflexivity.
  - discriminate.
  - reflexivity.
Defined.

(** C7 (the code at the failing inputs): when [add_peer] fails and returns
    the empty id, [handle_message] still returns normally, keeps the room and
    the role of the failed JOIN in the session with an empty peer id, leaves
    the transport open and answers with an ordinary JOIN acknowledgement
    whose peer id is empty; nothing tells the caller or the client that the
    join failed.  And when [socket.assign] throws during a handoff,
    [accept_upgraded_connection] swallows the exception,
    [handle_websocket_upgrade] still returns [true] after the 101 response,
    and [handle_client] neither closes the socket nor creates a session. *)
Theorem C7_collaborator_failure_not_surfaced :
  handle_message failing_add_peer counting_remove_peer sample_unjoined 0%nat sample_join
  = Ok (Session "r1" EmptyString true true, 0%nat,
        [add_peer_call "r1" sample_join sample_join HOST;
         ws_write (build_message JOIN (join_ack_data EmptyString "r1"))])
  /\ router_state (Session "r1" EmptyString true true) = UNJOINED
  /\ handle_client (initial_world 0%nat true) 5 (sample_upgrade "/room/abc/host")
       (UpgradeEnv 129 1730000000000000000 false)
     = (initial_world 0%nat true,
        [socket_write 5 (handshake_response "s3pPLMBiTxaQ9kYGzzhZRbK+xOo=")]).
Proof. split_and!; reflexivity. Qed.

(** ** Session registry *)

Lemma elem_of_broadcast_to_room srv (store : addr -> WebSocketSession) R m E ev :
  ev ∈ broadcast_to_room srv store R m E <->
  exists k a, ev = session_call a (ws_write m)
              /\ sessions_ srv !! k = Some a
              /\ room_id_ (store a) = R /\ k <> E.
Proof.
  unfold broadcast_to_room. rewrite list_elem_of_bind. split.
  - intros ([k a] & Hev & Hin). apply elem_of_map_to_list in Hin.
    destruct (decide _) as [Hc|]; [|by apply elem_of_nil in Hev].
    simpl in Hev. apply list_elem_of_singleton in Hev.
    exists k, a. by destruct Hc.
  - intros (k & a & -> & Hin & HR & HE). exists (k, a). split.
    + rewrite decide_True by done. simpl. by apply list_elem_of_singleton.
    + by apply elem_of_map_to_list.
Qed.

(** C3 (amended): [broadcast_to_room R m E] sends [m] to every registered
    session whose room id is [R] and whose registry key differs from [E],
    and sends nothing else: every send it makes carries [m] and goes to a
    registered session of room [R] under a key other than [E].  When [E] is
    the empty string, no session registered under a non-empty key is
    excluded. *)
Theorem C3_broadcast_delivery srv (store : addr -> WebSocketSession) R m E :
  (forall k a,
      sessions_ srv !! k = Some a -> room_id_ (store a) = R -> k <> E ->
      session_call a (ws_write m) ∈ broadcast_to_room srv store R m E)
  /\ (forall ev,
        ev ∈ broadcast_to_room srv store R m E ->
        exists k a, ev = session_call a (ws_write m)
                    /\ sessions_ srv !! k = Some a
                    /\ room_id_ (store a) = R /\ k <> E)
  /\ (E = EmptyString ->
      forall k a,
        sessions_ srv !! k = Some a -> room_id_ (store a) = R ->
        k <> EmptyString ->
        session_call a (ws_write m) ∈ broadcast_to_room srv store R m E).
Proof.
  split_and!.
  - intros k a Hk HR HE. apply elem_of_broadcast_to_room. by exists k, a.
  - intros ev Hev. by apply elem_of_broadcast_to_room.
  - intros -> k a Hk HR HE. apply elem_of_broadcast_to_room. by exists k, a.
Qed.

(** C3 as stated fails: a session of room [R] registered under the empty key
    receives nothing from a broadcast to [R] whose exclude argument is the
    empty string. *)
Lemma C3_counterexample :
  let srv := Server true true true {[ EmptyString := 0%nat ]} in
  let store := fun _ : addr => Session "R" EmptyString false true in
  sessions_ srv !! EmptyString = Some 0%nat
  /\ room_id_ (store 0%nat) = "R"
  /\ broadcast_to_room srv store "R" "m" EmptyString = [].
Proof. split_and!; reflexivity. Qed.

Lemma C3_broadcast_delivery_witness :
  session_call 0%nat (ws_write "m")
    ∈ broadcast_to_room (Server true true true {[ "p1" := 0%nat ]})
        (fun _ => Session "R" "p1" false true) "R" "m" EmptyString.
Proof.
  refine (proj2 (proj2
    (C3_broadcast_delivery (Server true true true {[ "p1" := 0%nat ]})
       (fun _ => Session "R" "p1" false true) "R" "m" EmptyString)) _ "p1" 0%nat _ _ _).
  - reflexivity.
  - reflexivity.
  - reflexivity.
  - discriminate.
Defined.

Lemma closed_session_idemp s : closed_session (closed_session s) = closed_session s.
Proof. reflexivity. Qed.

Lemma close_sessions_store entries (store : addr -> WebSocketSession) a :
  (close_sessions entries store).1 a
  = if decide (a ∈ entries.*2) then closed_session (store a) else store a.
Proof.
  revert store. induction entries as [|[k b] rest IH]; intros store.
  - simpl. done.
  - cbn [close_sessions]. rewrite fmap_cons. cbn [snd].
    destruct (close (store b)) as [s' closed] eqn:Hc.
    specialize (IH (<[b := s']> store)).
    destruct (close_sessions rest (<[b := s']> store)) as [store' tr].
    cbn [fst] in *.
    assert (s' = closed_session (store b)) as ->.
    { by rewrite <- close_fst, Hc. }
    rewrite IH. destruct (decide (a = b)) as [->|Hne].
    + rewrite fn_lookup_insert.
      destruct (decide (b ∈ rest.*2)), (decide (b ∈ b :: rest.*2)) as [|Hn];
        try done; destruct Hn; apply list_elem_of_here.
    + rewrite fn_lookup_insert_ne by done.
      destruct (decide (a ∈ rest.*2)), (decide (a ∈ b :: rest.*2)) as [Hy|Hn];
        try done.
      * destruct Hn. by apply list_elem_of_further.
      * apply elem_of_cons in Hy as [?|?]; done.
Qed.

Lemma elem_of_close_sessions entries (store : addr -> WebSocketSession) ev :
  ev ∈ (close_sessions entries store).2 <->
  exists a, ev = session_call a ws_close /\ a ∈ entries.*2 /\ ws_is_open (store a) = true.
Proof.
  revert store. induction entries as [|[k b] rest IH]; intros store.
  - simpl. split; [by intros ?%elem_of_nil | by intros (? & _ & ?%elem_of_nil & _)].
  - cbn [close_sessions]. rewrite fmap_cons. cbn [snd].
    destruct (close (store b)) as [s' closed] eqn:Hc.
    specialize (IH (<[b := s']> store)).
    destruct (close_sessions rest (<[b := s']> store)) as [store' tr].
    cbn [snd] in *.
    assert (s' = closed_session (store b)) as -> by by rewrite <- close_fst, Hc.
    assert (closed = if ws_is_open (store b) then [ws_close] else []) as ->
      by by rewrite <- close_snd, Hc.
    rewrite elem_of_app, IH. split.
    + intros [Hhere | (a & -> & Ha & Hopen)].
      * destruct (ws_is_open (store b)) eqn:Hopen; [|by apply elem_of_nil in Hhere].
        simpl in Hhere. apply list_elem_of_singleton in Hhere as ->.
        exists b. split_and!; [done | apply list_elem_of_here | done].
      * destruct (decide (a = b)) as [->|Hne].
        { by rewrite fn_lookup_insert in Hopen. }
        rewrite fn_lookup_insert_ne in Hopen by done.
        exists a. split_and!; [done | by apply list_elem_of_further | done].
    + intros (a & -> & Ha & Hopen).
      destruct (decide (a = b)) as [->|Hne].
      * left. rewrite Hopen. simpl. by apply list_elem_of_singleton.
      * right. exists a. rewrite fn_lookup_insert_ne by done.
        split_and!; [done | | done].
        by apply elem_of_cons in Ha as [?|?].
Qed.

Lemma elem_of_registered (m : gmap string addr) a :
  a ∈ (map_to_list m).*2 <-> exists k, m !! k = Some a.
Proof.
  rewrite list_elem_of_fmap. split.
  - intros ([k b] & -> & Hin). exists k. by apply elem_of_map_to_list.
  - intros (k & Hk). exists (k, a). split; [done | by apply elem_of_map_to_list].
Qed.

(** C8 (amended): [stop] on a running server clears [running_] (after which
    [on_accept] no longer posts a new accept), then closes every registered
    session whose transport is open and empties the map, then closes the
    acceptor if it is open and stops the io context, then joins the accept
    thread if it is joinable.  A second [stop] does nothing.
    Right after [stop] the map is empty, so [broadcast_to_room] and
    [send_to_peer] send nothing and [unregister_session] changes nothing;
    [register_session] is not guarded by [running_] and still inserts its
    entry. *)
Theorem C8_stop_teardown srv (store : addr -> WebSocketSession) :
  running_ srv = true ->
  let stopped := Server false false false ∅ in
  exists store' closed,
    stop srv store
    = (stopped, store',
       [set_running false]
         ++ closed
         ++ (if acceptor_is_open srv then [acceptor_close] else [])
         ++ [ioc_stop]
         ++ (if accept_thread_joinable srv then [accept_thread_join] else []))
    /\ (forall ev, ev ∈ closed <->
          exists k a, ev = session_call a ws_close
                      /\ sessions_ srv !! k = Some a /\ ws_is_open (store a) = true)
    /\ (forall k a, sessions_ srv !! k = Some a -> store' a = closed_session (store a))
    /\ (forall a, (forall k, sessions_ srv !! k <> Some a) -> store' a = store a)
    /\ stop stopped store' = (stopped, store', [])
    /\ (forall R m E, broadcast_to_room stopped store' R m E = [])
    /\ (forall p m, send_to_peer stopped store' p m = [])
    /\ (forall p, unregister_session stopped p = stopped)
    /\ (forall p a, sessions_ (register_session stopped p a) !! p = Some a)
    /\ (forall (SS : Type) (w : World SS) ec handshake_ok,
          ws_server w = stopped -> (on_accept w ec handshake_ok).2 = []).
Proof.
  intros Hrun stopped.
  exists (close_sessions (map_to_list (sessions_ srv)) store).1,
         (close_sessions (map_to_list (sessions_ srv)) store).2.
  split_and!.
  - unfold stop. rewrite Hrun. simpl.
    by destruct (close_sessions (map_to_list (sessions_ srv)) store).
  - intros ev. rewrite elem_of_close_sessions. split.
    + intros (a & -> & Ha & Hopen). apply elem_of_registered in Ha as [k Hk].
      by exists k, a.
    + intros (k & a & -> & Hk & Hopen). exists a. split_and!; try done.
      apply elem_of_registered. by exists k.
  - intros k a Hk. rewrite close_sessions_store, decide_True; [done|].
    apply elem_of_registered. by exists k.
  - intros a Hno. rewrite close_sessions_store, decide_False; [done|].
    intros [k Hk]%elem_of_registered. by apply (Hno k).
  - done.
  - intros R m E. unfold broadcast_to_room. simpl. by rewrite map_to_list_empty.
  - intros p m. unfold send_to_peer. simpl. by rewrite lookup_empty.
  - intros p. unfold unregister_session, stopped. simpl. by rewrite delete_empty.
  - intros p a. simpl. apply lookup_insert_eq.
  - intros SS w ec hs Hw. unfold on_accept. rewrite Hw. by destruct ec.
Qed.

Lemma C8_stop_teardown_witness :
  exists store' closed,
    stop (Server true true true {[ "p" := 0%nat ]})
         (fun _ => Session "R" "p" false true)
    = (Server false false false ∅, store',
       [set_running false] ++ closed ++ [acceptor_close] ++ [ioc_stop]
         ++ [accept_thread_join]).
Proof.
  destruct (C8_stop_teardown (Server true true true {[ "p" := 0%nat ]})
              (fun _ => Session "R" "p" false true) eq_refl)
    as (store' & closed & Hstop & _).
  exists store', closed. exact Hstop.
Defined.

(** C8 as stated fails.  On a running server with one registered session,
    [stop] closes the session before it closes the acceptor; and a
    [register_session] after [stop] is not a no-op: the entry is inserted
    and a later broadcast reaches it. *)
Lemma C8_counterexample :
  let srv := Server true true true {[ "p" := 0%nat ]} in
  let store := fun _ : addr => Session "R" "p" false true in
  let after := stop srv store in
  after.2 = [set_running false; session_call 0%nat ws_close; acceptor_close;
             ioc_stop; accept_thread_join]
  /\ ~ acceptor_closed_before_sessions after.2
  /\ sessions_ after.1.1 !! "q" = None
  /\ sessions_ (register_session after.1.1 "q" 1%nat) !! "q" = Some 1%nat
  /\ broadcast_to_room (register_session after.1.1 "q" 1%nat) store "R" "m" EmptyString
     = [session_call 1%nat (ws_write "m")].
Proof.
  split_and!; try reflexivity.
  intros H. specialize (H 1%nat 2%nat 0%nat eq_refl eq_refl). lia.
Qed.

(** ** Pre-negotiated handoff *)

Lemma find_at_start pat post : find (pat +:+ post) pat 0 = Some 0%nat.
Proof.
  unfold find. destruct (pat +:+ post) as [|c s] eqn:E.
  - by destruct pat.
  - simpl. by rewrite <- E, prefix_app.
Qed.

Lemma substr_app_mid a b c :
  substr (a +:+ b +:+ c) (String.length a) (String.length b) = Ok b.
Proof.
  rewrite substr_in_range by (rewrite string_app_length; lia).
  by rewrite substring_skip, substring_0_app.
Qed.

Lemma substr_from_app a b : substr_from (a +:+ b) (String.length a) = Ok b.
Proof.
  unfold substr_from.
  rewrite substr_in_range by (rewrite string_app_length; lia).
  rewrite substring_skip, string_app_length.
  replace (String.length a + String.length b - String.length a)%nat
    with (String.length b) by lia.
  by rewrite substring_all.
Qed.

(** The path analysis never throws. *)
Lemma upgrade_path_total p : exists r, upgrade_path p = Ok r.
Proof.
  unfold upgrade_path.
  destruct (find p "/room/" 0) as [room_pos|] eqn:Hroom; [|by eexists].
  destruct (find p "/" (room_pos + 6)) as [id_end|] eqn:Hend; [|by eexists].
  apply find_Some_bound in Hroom, Hend. simpl in Hroom, Hend.
  unfold substr_from. rewrite !substr_in_range by lia. simpl.
  repeat case_decide; by eexists.
Qed.

(** The path analysis on a path [/room/<id>/<role>]. *)
Lemma upgrade_path_room id role :
  contains id "/" = false ->
  upgrade_path ("/room/" +:+ id +:+ "/" +:+ role)
  = Ok (if decide (role = "host") then
          if decide (id = EmptyString) then None else Some (id, true)
        else if decide (role = "viewer") then
          if decide (id = EmptyString) then None else Some (id, false)
        else None).
Proof.
  intros Hid. unfold upgrade_path.
  rewrite find_at_start. cbn [Nat.add].
  change 6%nat with (String.length "/room/") at 1.
  rewrite find_skip, (find_slash_after id role Hid). cbn [fmap option_fmap option_map].
  replace (String.length "/room/" + String.length id - 6)%nat
    with (String.length id) by (simpl; lia).
  change 6%nat with (String.length "/room/").
  rewrite substr_app_mid. cbn [mbind result_bind].
  replace (String.length "/room/" + String.length id + 1)%nat
    with (String.length ("/room/" +:+ id +:+ "/"))
    by (rewrite !string_app_length; simpl; lia).
  replace ("/room/" +:+ id +:+ "/" +:+ role)
    with (("/room/" +:+ id +:+ "/") +:+ role)
    by (rewrite !string_app_assoc; done).
  rewrite substr_from_app. cbn [mbind result_bind].
  destruct (decide (role = "host")), (decide (role = "viewer")); reflexivity.
Qed.

(** The path analysis lets a path through only when it reads
    [.../room/<room>/host] or [.../room/<room>/viewer] with a non-empty
    [<room>]. *)
Lemma upgrade_path_accepts p room is_host :
  upgrade_path p = Ok (Some (room, is_host)) ->
  room <> EmptyString
  /\ exists pre,
       p = pre +:+ "/room/" +:+ room +:+ "/" +:+ (if is_host then "host" else "viewer").
Proof.
  unfold upgrade_path.
  destruct (find p "/room/" 0) as [room_pos|] eqn:Hroom; [|done].
  destruct (find_Some_split _ _ _ _ Hroom) as (pre & post & -> & <- & _).
  replace (pre +:+ "/room/" +:+ post) with ((pre +:+ "/room/") +:+ post)
    by (rewrite string_app_assoc; done).
  replace (String.length pre + 6)%nat with (String.length (pre +:+ "/room/"))
    by (rewrite string_app_length; done).
  rewrite find_skip.
  destruct (find post "/" 0) as [k|] eqn:Hend; [|done].
  destruct (find_Some_split _ _ _ _ Hend) as (r & role & -> & <- & _).
  cbn [fmap option_fmap option_map].
  replace (String.length (pre +:+ "/room/") + String.length r
           - String.length (pre +:+ "/room/"))%nat
    with (String.length r) by lia.
  rewrite substr_app_mid. cbn [mbind result_bind].
  replace (String.length (pre +:+ "/room/") + String.length r + 1)%nat
    with (String.length ((pre +:+ "/room/") +:+ r +:+ "/"))
    by (rewrite !string_app_length; simpl; lia).
  replace ((pre +:+ "/room/") +:+ r +:+ "/" +:+ role)
    with (((pre +:+ "/room/") +:+ r +:+ "/") +:+ role)
    by (rewrite !string_app_assoc; done).
  rewrite substr_from_app. cbn [mbind result_bind].
  destruct (decide (role = "host")) as [->|]; [|destruct (decide (role = "viewer")) as [->|]];
    [| |done];
    (destruct (decide (r = EmptyString)); [done|]);
    intros [= <- <-]; (split; [done|]); exists pre;
    by rewrite !string_app_assoc.
Qed.

Section HandoffFacts.

Context {SS : Type}.
Implicit Types w : World SS.

(** C5: for an upgrade request on a path [/room/<id>/<role>] in which [<id>]
    is a path segment: when [<role>] is neither [host] nor [viewer] the
    upgrade is rejected, nothing is written, no session is created, and
    [handle_client] closes the socket; when [<role>] is [host] (or [viewer])
    and the upgrade goes through (signaling server attached, key header
    present, 101 response written, socket adopted), one session is created,
    with room id [<id>] and the role HOST (or VIEWER), and registered under
    the synthesized peer id.  For any path at all, the upgrade is accepted
    only if the text after the room segment is exactly [host] or [viewer],
    and a rejected upgrade writes nothing and creates no session. *)
Theorem C5_upgrade_path_role w fd req env :
  (forall id role,
      path req = "/room/" +:+ id +:+ "/" +:+ role ->
      contains id "/" = false ->
      (role <> "host" -> role <> "viewer" ->
         handle_websocket_upgrade w fd req env = Ok (false, w, [])
         /\ (is_websocket_upgrade req = true ->
             handle_client w fd req env = (w, [socket_close fd])))
      /\ (role = "host" \/ role = "viewer" ->
          id <> EmptyString ->
          websocket_server_ w = true ->
          forall key,
            headers req !! "Sec-WebSocket-Key" = Some key ->
            0 <= bytes_written env ->
            assign_ok env = true ->
            let peer := id +:+ "_" +:+ role +:+ "_" +:+ to_string (now env) in
            let a := next_addr w in
            let session := Session id peer (bool_decide (role = "host")) true in
            handle_websocket_upgrade w fd req env
            = Ok (true,
                  MkWorld (register_session (ws_server w) peer a)
                          (<[a := session]> (store w)) (S a)
                          (native_sessions w) (streaming_server_ w)
                          (websocket_server_ w),
                  [socket_write fd (handshake_response (compute_websocket_accept key))])))
  /\ (forall upgraded w' tr,
        handle_websocket_upgrade w fd req env = Ok (upgraded, w', tr) ->
        if upgraded : bool then
          exists pre room role,
            path req = pre +:+ "/room/" +:+ room +:+ "/" +:+ role
            /\ (role = "host" \/ role = "viewer")
            /\ room <> EmptyString
            /\ w' = accept_upgraded_connection w fd room
                      (room +:+ "_" +:+ role +:+ "_" +:+ to_string (now env))
                      (bool_decide (role = "host")) (assign_ok env)
        else w' = w /\ tr = []).
Proof.
  split.
  - intros id role Hpath Hid. split.
    + intros Hh Hv.
      assert (handle_websocket_upgrade w fd req env = Ok (false, w, [])) as Hrej.
      { unfold handle_websocket_upgrade.
        destruct (websocket_server_ w); [|done]. simpl.
        rewrite Hpath, (upgrade_path_room id role Hid).
        by rewrite !decide_False. }
      split; [done|]. intros Hup. unfold handle_client. by rewrite Hup, Hrej.
    + intros Hrole Hne Hws key Hkey Hwritten Hassign peer a session.
      unfold handle_websocket_upgrade. rewrite Hws. simpl.
      rewrite Hpath, (upgrade_path_room id role Hid).
      assert ((bytes_written env <? 0) = false) as -> by lia.
      unfold accept_upgraded_connection. rewrite Hassign.
      destruct Hrole as [-> | ->]; simpl;
        (destruct (decide (id = EmptyString)); [done|]);
        rewrite Hkey; simpl; by rewrite ?Hws.
  - intros upgraded w' tr. unfold handle_websocket_upgrade.
    destruct (websocket_server_ w); [|by intros [= <- <- <-]]. simpl.
    destruct (upgrade_path (path req)) as [target|] eqn:Htarget; [|done]. simpl.
    destruct target as [[room is_host]|]; [|by intros [= <- <- <-]].
    destruct (headers req !! "Sec-WebSocket-Key"); [|by intros [= <- <- <-]].
    destruct (bytes_written env <? 0); [by intros [= <- <- <-]|].
    intros [= <- <- <-].
    destruct (upgrade_path_accepts _ _ _ Htarget) as [Hne [pre Hpath]].
    exists pre, room, (if is_host then "host" else "viewer").
    destruct is_host; split_and!; auto.
Qed.

End HandoffFacts.

(** The path [/room/abc/host] yields a HOST session in room [abc]; the path
    [/room/abc/admin] is rejected. *)
Lemma C5_upgrade_path_role_witness :
  (exists w' tr,
      handle_websocket_upgrade (initial_world 0%nat true) 5
        (sample_upgrade "/room/abc/host") sample_env = Ok (true, w', tr)
      /\ store w' 0%nat = Session "abc" "abc_host_1730000000000000000" true true)
  /\ handle_websocket_upgrade (initial_world 0%nat true) 5
       (sample_upgrade "/room/abc/admin") sample_env
     = Ok (false, initial_world 0%nat true, []).
Proof.
  split.
  - eexists _, _. split.
    + refine (proj2 (proj1 (C5_upgrade_path_role (initial_world 0%nat true) 5
                (sample_upgrade "/room/abc/host") sample_env) "abc" "host" _ _)
                _ _ _ "dGhlIHNhbXBsZSBub25jZQ==" _ _ _).
      * reflexivity.
      * reflexivity.
      * left. reflexivity.
      * discriminate.
      * reflexivity.
      * reflexivity.
      * vm_compute. discriminate.
      * reflexivity.
    + reflexivity.
  - refine (proj1 (proj1 (proj1 (C5_upgrade_path_role (initial_world 0%nat true) 5
              (sample_upgrade "/room/abc/admin") sample_env) "abc" "admin" _ _) _ _)).
    + reflexivity.
    + reflexivity.
    + discriminate.
    + discriminate.
Defined.

(** ** Which sessions the registry holds *)

Section RegistryInvariant.

Context {SS : Type}.
Variable add_peer :
  string -> string -> string -> ParticipantRole -> SS -> string * SS.
Variable remove_peer : string -> SS -> SS.
Implicit Types w : World SS.

Lemma registry_from_handoff_initial (srv : SS) attached :
  registry_from_handoff (initial_world srv attached).
Proof.
  split.
  - intros k a H. simpl in H. by rewrite lookup_empty in H.
  - intros a H. simpl in H. by apply not_elem_of_empty in H.
Qed.

(** Only the registry, the allocation mark and the set of native sessions
    matter to the invariant. *)
Lemma registry_from_handoff_same w w' :
  sessions_ (ws_server w') = sessions_ (ws_server w) ->
  next_addr w' = next_addr w ->
  native_sessions w' = native_sessions w ->
  registry_from_handoff w -> registry_from_handoff w'.
Proof. unfold registry_from_handoff. intros -> -> ->. done. Qed.

Lemma accept_upgraded_connection_inv w fd room peer is_host ok :
  registry_from_handoff w ->
  registry_from_handoff (accept_upgraded_connection w fd room peer is_host ok).
Proof.
  intros [Hreg Hnat]. unfold accept_upgraded_connection.
  destruct ok; simpl; [|done].
  split; simpl.
  - intros k a Hk. destruct (decide (peer = k)) as [->|Hne].
    + rewrite lookup_insert_eq in Hk. injection Hk as <-.
      split; [lia|]. intros Hin. apply Hnat in Hin. lia.
    + rewrite lookup_insert_ne in Hk by done.
      destruct (Hreg _ _ Hk). split; [lia | done].
  - intros a Ha. apply Hnat in Ha. lia.
Qed.

Lemma on_accept_inv w ec handshake_ok :
  registry_from_handoff w -> registry_from_handoff (on_accept w ec handshake_ok).1.
Proof.
  intros [Hreg Hnat]. unfold on_accept. destruct ec; simpl; [done|].
  split; simpl.
  - intros k a Hk. destruct (Hreg _ _ Hk) as [Hlt Hnot]. split; [lia|].
    rewrite elem_of_union, elem_of_singleton. intros [-> | ?]; [lia | done].
  - intros a. rewrite elem_of_union, elem_of_singleton.
    intros [-> | Ha]; [lia|]. apply Hnat in Ha. lia.
Qed.

Lemma handle_client_world w fd req env :
  (handle_client w fd req env).1 = w
  \/ exists room peer is_host ok,
       (handle_client w fd req env).1
       = accept_upgraded_connection w fd room peer is_host ok.
Proof.
  unfold handle_client. destruct (is_websocket_upgrade req); [|by left].
  unfold handle_websocket_upgrade.
  destruct (websocket_server_ w); [|by left]. simpl.
  destruct (upgrade_path_total (path req)) as [target ->]. simpl.
  destruct target as [[room is_host]|]; [|by left].
  destruct (headers req !! "Sec-WebSocket-Key"); [|by left].
  destruct (bytes_written env <? 0); [by left|].
  right. by eexists _, _, _, _.
Qed.

Lemma deliver_registry w a incoming w' tr :
  deliver add_peer remove_peer w a incoming = Ok (w', tr) ->
  ws_server w' = ws_server w
  /\ next_addr w' = next_addr w /\ native_sessions w' = native_sessions w.
Proof.
  unfold deliver. case_decide; [|by intros [= <- <-]].
  destruct (async_read (store w a) incoming) as [ec message].
  destruct (do_read_handler _ _ _ _ _ _ _) as [[[[s' srv'] tr'] again]|]; [|done].
  by intros [= <- <-].
Qed.

Lemma deliver_total w a incoming :
  exists r, deliver add_peer remove_peer w a incoming = Ok r.
Proof.
  unfold deliver. case_decide; [|by eexists].
  destruct (async_read (store w a) incoming) as [ec message].
  destruct (do_read_handler_total add_peer remove_peer
              (holds_session (ws_server w) a) (store w a) (streaming_server_ w)
              ec message) as [[[[s' srv'] tr'] again] ->].
  by eexists.
Qed.

(** No operation throws. *)
Lemma step_total w o : exists r, step add_peer remove_peer w o = Ok r.
Proof.
  destruct o; simpl; try by eexists.
  - destruct (start _ _) as [[? ?] ?]. by eexists.
  - destruct (stop _ _) as [[? ?] ?]. by eexists.
  - apply deliver_total.
Qed.

Lemma step_inv w o w' tr :
  step add_peer remove_peer w o = Ok (w', tr) ->
  registry_from_handoff w -> registry_from_handoff w'.
Proof.
  destruct o; simpl.
  - destruct (start (ws_server w) outcome) as [[b srv'] tr'] eqn:Hs.
    intros [= <- <-]. apply registry_from_handoff_same; try done. simpl.
    unfold start in Hs. destruct (running_ (ws_server w)); [by injection Hs as <- <- <-|].
    destruct outcome; by injection Hs as <- <- <-.
  - destruct (stop (ws_server w) (store w)) as [[srv' store'] tr'] eqn:Hs.
    intros [= <- <-]. unfold stop in Hs.
    destruct (negb (running_ (ws_server w))).
    + injection Hs as <- <- <-. by apply registry_from_handoff_same.
    + destruct (close_sessions _ _). injection Hs as <- <- <-.
      intros [Hreg Hnat]. split; simpl; [|done].
      intros k a H. by rewrite lookup_empty in H.
  - intros [= H]. replace w' with (on_accept w ec handshake_ok).1 by by rewrite H.
    apply on_accept_inv.
  - intros [= H] Hinv.
    replace w' with (handle_client w client_socket req env).1 by by rewrite H.
    destruct (handle_client_world w client_socket req env)
      as [-> | (room & peer & h & ok & ->)]; [done|].
    by apply accept_upgraded_connection_inv.
  - intros [= <- <-]. apply accept_upgraded_connection_inv.
  - intros (Hs & Hn & Hnat)%deliver_registry.
    apply registry_from_handoff_same; [by rewrite Hs | done | done].
  - by intros [= <- <-].
  - by intros [= <- <-].
  - intros [= <- <-] [Hreg Hnat]. split; simpl; [|done].
    intros k a [_ Hk]%lookup_delete_Some. exact (Hreg k a Hk).
Qed.

(** Every sequence of operations runs to the end, and the worlds it reaches
    satisfy the invariant. *)
Lemma run_reaches w ops :
  registry_from_handoff w ->
  exists w' tr, run add_peer remove_peer w ops = Ok (w', tr)
                /\ registry_from_handoff w'.
Proof.
  revert w. induction ops as [|o rest IH]; intros w Hinv.
  - by exists w, [].
  - destruct (step_total w o) as [[w1 tr1] Hstep].
    destruct (IH w1 (step_inv _ _ _ _ Hstep Hinv)) as (w2 & tr2 & Hrun & Hinv2).
    exists w2, (tr1 ++ tr2). simpl. by rewrite Hstep; simpl; rewrite Hrun.
Qed.

(** C10: in every world the system reaches from its initial state, each
    registry entry points to a session object made by
    [accept_upgraded_connection], the only caller of [register_session]; a
    session made by [on_accept] is under no key of the registry --
    [on_accept] leaves the registry as it is, and so does every read such a
    session completes, a JOIN included -- and neither [broadcast_to_room] nor
    [send_to_peer] ever sends anything to it. *)
Theorem C10_native_sessions_never_registered (srv0 : SS) (attached : bool) (ops : list op) :
  exists w tr,
    run add_peer remove_peer (initial_world srv0 attached) ops = Ok (w, tr)
    /\ registry_from_handoff w
    /\ (forall ec handshake_ok,
          sessions_ (ws_server (on_accept w ec handshake_ok).1) = sessions_ (ws_server w)
          /\ (ec = false ->
              next_addr w ∈ native_sessions (on_accept w ec handshake_ok).1))
    /\ (forall a incoming w' tr',
          deliver add_peer remove_peer w a incoming = Ok (w', tr') ->
          sessions_ (ws_server w') = sessions_ (ws_server w))
    /\ (forall a,
          a ∈ native_sessions w ->
          (forall k, sessions_ (ws_server w) !! k <> Some a)
          /\ (forall R m E c,
                session_call a c ∉ broadcast_to_room (ws_server w) (store w) R m E)
          /\ (forall p m c,
                session_call a c ∉ send_to_peer (ws_server w) (store w) p m)).
Proof.
  destruct (run_reaches (initial_world srv0 attached) ops
              (registry_from_handoff_initial srv0 attached))
    as (w & tr & Hrun & Hinv).
  exists w, tr. split_and!; try done.
  - intros ec hs. unfold on_accept. destruct ec; simpl; split; try done.
    intros _. apply elem_of_union_l. by apply elem_of_singleton.
  - intros a incoming w' tr' (-> & _)%deliver_registry. done.
  - intros a Hnative. destruct Hinv as [Hreg _].
    assert (forall k, sessions_ (ws_server w) !! k <> Some a) as Hno.
    { intros k Hk. by destruct (Hreg _ _ Hk). }
    split_and!; [done | |].
    + intros R m E c (k & b & [= <- _] & Hk & _)%elem_of_broadcast_to_room.
      by apply (Hno k).
    + intros p m c. unfold send_to_peer.
      destruct (sessions_ (ws_server w) !! p) as [b|] eqn:Hp; simpl.
      * intros [= <- _]%list_elem_of_singleton. by apply (Hno p).
      * apply not_elem_of_nil.
Qed.

End RegistryInvariant.

(** A session accepted on the native path joins room [r1]; a broadcast to
    [r1] that follows sends it nothing. *)
Lemma C10_native_sessions_never_registered_witness :
  exists w tr,
    run counting_add_peer counting_remove_peer (initial_world 0%nat true)
      [op_start listening; op_accept false true;
       op_read 0%nat (ec_success, sample_join)] = Ok (w, tr)
    /\ room_id_ (store w 0%nat) = "r1"
    /\ 0%nat ∈ native_sessions w
    /\ forall m c,
         session_call 0%nat c ∉ broadcast_to_room (ws_server w) (store w) "r1" m EmptyString.
Proof.
  destruct (C10_native_sessions_never_registered counting_add_peer counting_remove_peer
              0%nat true
              [op_start listening; op_accept false true;
               op_read 0%nat (ec_success, sample_join)])
    as (w & tr & Hrun & _ & _ & _ & Hnative).
  exists w, tr.
  assert (0%nat ∈ native_sessions w /\ room_id_ (store w 0%nat) = "r1") as [Hin Hroom].
  { vm_compute in Hrun. injection Hrun as <- <-. split; reflexivity. }
  split_and!; try done.
  intros m c. by apply (Hnative 0%nat Hin).
Defined.

(** * Further properties of the code *)

(** ** Decoder *)

(** X1: what a decoded message can hold: the payload is the whole text, the peer
    id is never filled in, the types VIEWER_JOINED and VIEWER_LEFT are never
    produced, and only a JOIN carries a room id. *)
Theorem parse_message_fields json msg :
  parse_message json = Ok msg ->
  data msg = json
  /\ peer_id msg = EmptyString
  /\ type msg <> VIEWER_JOINED
  /\ type msg <> VIEWER_LEFT
  /\ (type msg <> JOIN -> room_id msg = EmptyString).
Proof.
  intros Hp. split; [by apply parse_message_data|].
  revert Hp. unfold parse_message.
  repeat match goal with
         | |- context [if ?b then _ else _] => destruct b
         end; try (by intros [= <-]).
  destruct (find json room_id_opening 0) as [room_pos|]; [|by intros [= <-]].
  destruct (find json dq (room_pos + 11)) as [end_|]; [|by intros [= <-]].
  destruct (substr json (room_pos + 11) (end_ - (room_pos + 11))); [|done].
  by intros [= <-].
Qed.

Lemma parse_message_fields_witness :
  data (Message JOIN sample_join "r1" EmptyString) = sample_join
  /\ peer_id (Message JOIN sample_join "r1" EmptyString) = EmptyString.
Proof.
  destruct (parse_message_fields sample_join (Message JOIN sample_join "r1" EmptyString)
              eq_refl) as (H1 & H2 & _).
  by split.
Defined.

(** X2: the decoder tests the markers in a fixed order: a text that holds a join
    marker anywhere decodes to JOIN whatever else it holds, and a text
    decodes to LEAVE only if it holds the leave marker and no other
    recognized marker. *)
Theorem parse_message_precedence json :
  (forall pre post v,
      v = "join" \/ v = "JOIN" ->
      json = pre +:+ marker "type" v +:+ post ->
      exists room, parse_message json = Ok (Message JOIN json room EmptyString))
  /\ (forall msg,
        parse_message json = Ok msg -> type msg = LEAVE ->
        (exists pre post, json = pre +:+ marker "type" "leave" +:+ post)
        /\ Forall (fun m => contains json m = false)
             [ marker "type" "join"; marker "type" "JOIN"; marker "type" "offer";
               marker "type" "answer"; marker "type" "ice_candidate";
               marker "type" "candidate" ]).
Proof.
  split.
  - intros pre post v Hv Hjson.
    assert (contains json (marker "type" "join") || contains json (marker "type" "JOIN")
            = true) as Hc.
    { apply orb_true_iff. destruct Hv as [-> | ->]; [left | right];
        apply contains_spec; by exists pre, post. }
    destruct (parse_message_total json) as (msg & Hp & _).
    revert Hp. unfold parse_message. rewrite Hc.
    destruct (find json room_id_opening 0) as [room_pos|]; [|by eexists].
    destruct (find json dq (room_pos + 11)) as [end_|]; [|by eexists].
    destruct (substr json (room_pos + 11) (end_ - (room_pos + 11))); [|done].
    by eexists.
  - intros msg. unfold parse_message.
    destruct (contains json (marker "type" "join")) eqn:H1;
      [simpl; destruct (find json room_id_opening 0) as [room_pos|];
       [destruct (find json dq (room_pos + 11)) as [end_|];
        [destruct (substr json (room_pos + 11) (end_ - (room_pos + 11)))|]|];
       try done; by intros [= <-] |].
    destruct (contains json (marker "type" "JOIN")) eqn:H2;
      [simpl; destruct (find json room_id_opening 0) as [room_pos|];
       [destruct (find json dq (room_pos + 11)) as [end_|];
        [destruct (substr json (room_pos + 11) (end_ - (room_pos + 11)))|]|];
       try done; by intros [= <-] |].
    simpl.
    destruct (contains json (marker "type" "offer")) eqn:H3; [by intros [= <-]|].
    destruct (contains json (marker "type" "answer")) eqn:H4; [by intros [= <-]|].
    destruct (contains json (marker "type" "ice_candidate")) eqn:H5; [by intros [= <-]|].
    destruct (contains json (marker "type" "candidate")) eqn:H6; [by intros [= <-]|].
    simpl.
    destruct (contains json (marker "type" "leave")) eqn:H7; [|by intros [= <-]].
    intros _ _. split; [by apply contains_spec|].
    repeat constructor; done.
Qed.

Lemma parse_message_precedence_witness :
  exists room,
    parse_message (sample_join +:+ sample_leave)
    = Ok (Message JOIN (sample_join +:+ sample_leave) room EmptyString).
Proof.
  refine (proj1 (parse_message_precedence (sample_join +:+ sample_leave))
            "{" ("," +:+ marker "room_id" "r1" +:+ "," +:+ marker "role" "host"
                     +:+ "}" +:+ sample_leave) "join" _ _).
  - left. reflexivity.
  - reflexivity.
Defined.

(** The first occurrence of a character [c] in [id c rest] when [id] holds
    none. *)
Lemma find_char_after c id rest :
  contains id (String c EmptyString) = false ->
  find (id +:+ String c rest) (String c EmptyString) 0 = Some (String.length id).
Proof.
  rewrite contains_false. unfold find.
  induction id as [|d id IH]; intros H.
  - str_simpl. by rewrite prefix_cons, decide_True, prefix_nil_l.
  - str_simpl in H; str_simpl. rewrite prefix_cons in H |- *.
    case_decide.
    + by rewrite prefix_nil_l in H.
    + destruct (String.index 0 (String c EmptyString) id) eqn:E; [done|].
      specialize (IH eq_refl). by rewrite IH.
Qed.

(** X3: the room id of a JOIN is the text between the first occurrence of
    [room_id_opening] and the next double quote; without such a field, or when
    the quote that should close it is missing, the room id is empty. *)
Theorem parse_message_room_id json :
  contains json (marker "type" "join") || contains json (marker "type" "JOIN") = true ->
  (forall pre r post,
      json = pre +:+ room_id_opening +:+ r +:+ dq +:+ post ->
      find json room_id_opening 0 = Some (String.length pre) ->
      contains r dq = false ->
      parse_message json = Ok (Message JOIN json r EmptyString))
  /\ (contains json room_id_opening = false ->
      parse_message json = Ok (Message JOIN json EmptyString EmptyString))
  /\ (forall pre r,
        json = pre +:+ room_id_opening +:+ r ->
        find json room_id_opening 0 = Some (String.length pre) ->
        contains r dq = false ->
        parse_message json = Ok (Message JOIN json EmptyString EmptyString)).
Proof.
  intros Hjoin. split_and!.
  - intros pre r post Hjson Hfirst Hr.
    unfold parse_message. rewrite Hjoin, Hfirst.
    assert (json = (pre +:+ room_id_opening) +:+ r +:+ dq +:+ post) as Hsplit
      by by rewrite Hjson, !string_app_assoc.
    assert (String.length pre + 11 = String.length (pre +:+ room_id_opening))%nat as Hlen
      by by rewrite string_app_length.
    rewrite Hlen. rewrite Hsplit at 1. rewrite find_skip.
    assert (find (r +:+ dq +:+ post) dq 0 = Some (String.length r)) as ->
      by exact (find_char_after (ascii_of_nat 34) r post Hr).
    cbn [fmap option_fmap option_map].
    replace (String.length (pre +:+ room_id_opening) + String.length r
             - String.length (pre +:+ room_id_opening))%nat
      with (String.length r) by lia.
    rewrite Hsplit at 1.
    by rewrite substr_app_mid.
  - intros Hno. unfold parse_message. rewrite Hjoin.
    apply contains_false in Hno. by rewrite Hno.
  - intros pre r Hjson Hfirst Hr.
    unfold parse_message. rewrite Hjoin, Hfirst.
    assert (json = (pre +:+ room_id_opening) +:+ r) as Hsplit
      by by rewrite Hjson, !string_app_assoc.
    assert (String.length pre + 11 = String.length (pre +:+ room_id_opening))%nat as Hlen
      by by rewrite string_app_length.
    rewrite Hlen. rewrite Hsplit at 1. rewrite find_skip.
    apply contains_false in Hr. by rewrite Hr.
Qed.

Lemma parse_message_room_id_witness :
  parse_message sample_join = Ok (Message JOIN sample_join "r1" EmptyString).
Proof.
  refine (proj1 (parse_message_room_id sample_join _)
            ("{" +:+ marker "type" "join" +:+ ",") "r1"
            ("," +:+ marker "role" "host" +:+ "}") _ _ _); reflexivity.
Defined.

(** ** Router *)


Section RouterMore.

Context {SS : Type}.
Variable add_peer :
  string -> string -> string -> ParticipantRole -> SS -> string * SS.
Variable remove_peer : string -> SS -> SS.

#[local] Abbreviation handle' := (handle_message add_peer remove_peer).

(** X4: an OFFER is answered, whatever the state of the session (joined or not,
    open or not), with one ANSWER frame whose data is the complete frame
    received; an ANSWER or an ICE candidate is answered with nothing.  None
    of the three touches the session or the collaborator. *)
Theorem handle_message_offer_answer_ice s srv json msg :
  parse_message json = Ok msg ->
  (type msg = OFFER ->
     handle' s srv json = Ok (s, srv, [ws_write (build_message ANSWER json)]))
  /\ (type msg = ANSWER \/ type msg = ICE_CANDIDATE ->
      handle' s srv json = Ok (s, srv, [])).
Proof.
  intros Hp. rewrite (handle_message_decoded _ _ _ _ _ _ Hp).
  rewrite (parse_message_data _ _ Hp).
  split; [by intros -> | by intros [-> | ->]].
Qed.

(** X5: a JOIN is handled without regard to the identity the session already
    has: the outcome only depends on the frame, the collaborator and whether
    the transport is open, and no [remove_peer] call is made for a peer id
    bound before. *)
Theorem handle_message_rejoin s1 s2 srv json msg :
  parse_message json = Ok msg ->
  type msg = JOIN ->
  ws_is_open s1 = ws_is_open s2 ->
  handle' s1 srv json = handle' s2 srv json
  /\ exists s' srv' tr,
       handle' s1 srv json = Ok (s', srv', tr)
       /\ (forall p, remove_peer_call p ∉ tr)
       /\ ws_close ∉ tr.
Proof.
  intros Hp Ht Hopen.
  rewrite !(handle_message_decoded _ _ _ _ _ _ Hp), Ht. cbv zeta.
  rewrite Hopen. split; [done|].
  eexists _, _, _. split; [done|].
  split; [intros p|]; rewrite !elem_of_cons, elem_of_nil; by intros [?|[?|?]].
Qed.

(** X6: a LEAVE on a session with no peer id bound makes no call to the
    collaborator; it only closes the transport, if it is open. *)
Theorem handle_message_leave_unbound s srv json msg :
  parse_message json = Ok msg ->
  type msg = LEAVE ->
  peer_id_ s = EmptyString ->
  handle' s srv json
  = Ok (closed_session s, srv, if ws_is_open s then [ws_close] else []).
Proof.
  intros Hp Ht Hunbound.
  rewrite (handle_message_decoded _ _ _ _ _ _ Hp), Ht.
  rewrite close_fst, close_snd. by rewrite !decide_True.
Qed.


End RouterMore.

Lemma handle_message_rejoin_witness :
  handle_message counting_add_peer counting_remove_peer
    (Session "old_room" "old_peer" false true) 3%nat sample_join
  = handle_message counting_add_peer counting_remove_peer sample_unjoined 3%nat sample_join.
Proof.
  refine (proj1 (handle_message_rejoin counting_add_peer counting_remove_peer
            (Session "old_room" "old_peer" false true) sample_unjoined 3%nat sample_join
            (Message JOIN sample_join "r1" EmptyString) _ _ _)); reflexivity.
Defined.

Lemma handle_message_offer_answer_ice_witness :
  handle_message counting_add_peer counting_remove_peer sample_unjoined 0%nat
    ("{" +:+ marker "type" "offer" +:+ "}")
  = Ok (sample_unjoined, 0%nat,
        [ws_write (build_message ANSWER ("{" +:+ marker "type" "offer" +:+ "}"))]).
Proof.
  refine (proj1 (handle_message_offer_answer_ice counting_add_peer counting_remove_peer
            sample_unjoined 0%nat ("{" +:+ marker "type" "offer" +:+ "}")
            (Message OFFER ("{" +:+ marker "type" "offer" +:+ "}") EmptyString EmptyString)
            _) _); reflexivity.
Defined.

Lemma handle_message_leave_unbound_witness :
  handle_message counting_add_peer counting_remove_peer sample_unjoined 0%nat sample_leave
  = Ok (Session EmptyString EmptyString false false, 0%nat, [ws_close]).
Proof.
  apply (handle_message_leave_unbound counting_add_peer counting_remove_peer
           sample_unjoined 0%nat sample_leave
           (Message LEAVE sample_leave EmptyString EmptyString)); reflexivity.
Defined.


(** ** Registry *)

(** X8: registering a session and unregistering its key leaves the registry as
    if the key had been erased from the start: the key is absent, every other
    key keeps its session, and unregistering an absent key changes nothing.
    The flags of the server are never touched. *)
Theorem register_then_unregister srv p a :
  sessions_ (unregister_session (register_session srv p a) p) = delete p (sessions_ srv)
  /\ sessions_ (unregister_session (register_session srv p a) p) !! p = None
  /\ (forall q, q <> p ->
        sessions_ (unregister_session (register_session srv p a) p) !! q
        = sessions_ srv !! q)
  /\ (sessions_ srv !! p = None -> unregister_session srv p = srv)
  /\ running_ (unregister_session (register_session srv p a) p) = running_ srv.
Proof.
  unfold unregister_session, register_session. simpl.
  rewrite delete_insert_eq. split_and!.
  - done.
  - apply lookup_delete_eq.
  - intros q Hq. by apply lookup_delete_ne.
  - intros Hp. rewrite delete_id by done. by destruct srv.
  - done.
Qed.

(** X9: [send_to_peer] after [register_session]: the key just registered reaches
    the session just registered, with exactly one write, also when the key
    was taken before (the earlier session is replaced); other keys are served
    as before; an unregistered key reaches nobody.  The write is attempted
    whether or not the transport of the session is open. *)
Theorem send_to_peer_after_register srv (store : addr -> WebSocketSession) p a m :
  send_to_peer (register_session srv p a) store p m = [session_call a (ws_write m)]
  /\ (forall b,
        send_to_peer (register_session (register_session srv p b) p a) store p m
        = [session_call a (ws_write m)])
  /\ (forall q, q <> p ->
        send_to_peer (register_session srv p a) store q m = send_to_peer srv store q m)
  /\ send_to_peer (unregister_session (register_session srv p a) p) store p m = []
  /\ (sessions_ srv !! p = None -> send_to_peer srv store p m = []).
Proof.
  unfold send_to_peer, register_session, unregister_session. simpl. split_and!.
  - by rewrite lookup_insert_eq.
  - intros b. by rewrite lookup_insert_eq.
  - intros q Hq. by rewrite lookup_insert_ne.
  - by rewrite lookup_delete_eq.
  - by intros ->.
Qed.

Lemma send_to_peer_after_register_witness :
  send_to_peer (Server true true true ∅) (fun _ => sample_unjoined) "p" "m" = [].
Proof.
  refine (proj2 (proj2 (proj2 (proj2
    (send_to_peer_after_register (Server true true true ∅)
       (fun _ => sample_unjoined) "p" 0%nat "m")))) _).
  reflexivity.
Defined.

Lemma register_then_unregister_witness :
  unregister_session (Server true true true ∅) "p" = Server true true true ∅.
Proof.
  refine (proj1 (proj2 (proj2 (proj2
    (register_then_unregister (Server true true true ∅) "p" 0%nat)))) _).
  reflexivity.
Defined.

Lemma broadcast_to_room_as_filter srv (store : addr -> WebSocketSession) R m E :
  broadcast_to_room srv store R m E
  = (fun ka : string * addr => session_call ka.2 (ws_write m))
      <$> filter (fun ka : string * addr => room_id_ (store ka.2) = R /\ ka.1 <> E)
                 (map_to_list (sessions_ srv)).
Proof.
  unfold broadcast_to_room.
  induction (map_to_list (sessions_ srv)) as [|[k a] l IH]; [done|].
  rewrite bind_cons, filter_cons, IH. simpl.
  destruct (decide (room_id_ (store a) = R /\ k <> E)); done.
Qed.

Lemma NoDup_fst_filter {A} (P : string * A -> Prop) `{!forall x, Decision (P x)}
    (l : list (string * A)) :
  NoDup (l.*1) -> NoDup ((filter P l).*1).
Proof.
  induction l as [|[k a] l IH]; [done|].
  rewrite fmap_cons, filter_cons. simpl. intros [Hk Hl]%NoDup_cons.
  destruct (decide (P (k, a))); [|by apply IH].
  rewrite fmap_cons. apply NoDup_cons. split; [|by apply IH].
  intros Hin. apply Hk.
  apply list_elem_of_fmap in Hin as ([k' a'] & Heq & Hin').
  apply list_elem_of_filter in Hin' as [_ Hin'].
  apply list_elem_of_fmap. by exists (k', a').
Qed.

(** X10: [broadcast_to_room] makes one write per registry key that passes the
    test, no more and no less: a session registered under two keys of the
    room receives the message twice. *)
Theorem broadcast_to_room_count srv (store : addr -> WebSocketSession) R m E :
  length (broadcast_to_room srv store R m E)
  = size (filter (fun ka : string * addr => room_id_ (store ka.2) = R /\ ka.1 <> E)
                 (sessions_ srv))
  /\ (forall k1 k2 a,
        k1 <> k2 -> k1 <> E -> k2 <> E -> room_id_ (store a) = R ->
        broadcast_to_room (Server true true true {[ k1 := a; k2 := a ]}) store R m E
        = [session_call a (ws_write m); session_call a (ws_write m)]).
Proof.
  assert (forall srv',
    length (broadcast_to_room srv' store R m E)
    = size (filter (fun ka : string * addr => room_id_ (store ka.2) = R /\ ka.1 <> E)
                   (sessions_ srv'))) as Hcount.
  { intros srv'. rewrite broadcast_to_room_as_filter, length_fmap.
    rewrite <- length_map_to_list, map_filter_alt.
    symmetry. apply Permutation_length, map_to_list_to_map.
    apply NoDup_fst_filter, NoDup_fst_map_to_list. }
  split; [apply Hcount|].
  intros k1 k2 a Hne H1 H2 HR.
  pose proof (Hcount (Server true true true {[ k1 := a; k2 := a ]})) as Hlen.
  assert (filter (fun ka : string * addr => room_id_ (store ka.2) = R /\ ka.1 <> E)
                 ({[ k1 := a; k2 := a ]} : gmap string addr)
          = {[ k1 := a; k2 := a ]}) as Hall.
  { apply map_filter_id. intros k b. rewrite lookup_insert_Some, lookup_singleton_Some.
    simpl. intros [[<- <-] | [_ [<- <-]]]; done. }
  simpl in Hlen. rewrite Hall in Hlen.
  rewrite map_size_insert_None in Hlen by by rewrite lookup_singleton_ne.
  rewrite map_size_singleton in Hlen.
  assert (forall ev, ev ∈ broadcast_to_room (Server true true true {[ k1 := a; k2 := a ]})
                            store R m E -> ev = session_call a (ws_write m)) as Hev.
  { intros ev (k & b & -> & Hk & _)%elem_of_broadcast_to_room. simpl in Hk.
    apply lookup_insert_Some in Hk as [[_ <-] | [_ Hk]]; [done|].
    by apply lookup_singleton_Some in Hk as [_ <-]. }
  destruct (broadcast_to_room _ _ _ _ _) as [|e1 [|e2 [|e3 l]]]; try done.
  rewrite (Hev e1), (Hev e2); [done | |].
  - apply list_elem_of_further, list_elem_of_here.
  - apply list_elem_of_here.
Qed.

Lemma broadcast_to_room_count_witness :
  broadcast_to_room (Server true true true {[ "k1" := 0%nat; "k2" := 0%nat ]})
    (fun _ => Session "R" "p" false true) "R" "m" EmptyString
  = [session_call 0%nat (ws_write "m"); session_call 0%nat (ws_write "m")].
Proof.
  apply (proj2 (broadcast_to_room_count (Server true true true ∅)
                  (fun _ => Session "R" "p" false true) "R" "m" EmptyString)
           "k1" "k2" 0%nat); try discriminate.
  reflexivity.
Defined.

(** ** Sessions shared between the registry and the read loops *)

Lemma send_to_peer_registered srv (store : addr -> WebSocketSession) p m a :
  sessions_ srv !! p = Some a ->
  send_to_peer srv store p m = [session_call a (ws_write m)].
Proof. unfold send_to_peer. by intros ->. Qed.

Lemma send_to_peer_unregistered srv (store : addr -> WebSocketSession) p m :
  sessions_ srv !! p = None -> send_to_peer srv store p m = [].
Proof. unfold send_to_peer. by intros ->. Qed.

Section SharedSessions.

Context {SS : Type}.
Variable add_peer :
  string -> string -> string -> ParticipantRole -> SS -> string * SS.
Variable remove_peer : string -> SS -> SS.
Implicit Types w : World SS.

(** X11: a JOIN handled by a session that is in the registry rebinds the session
    but not the registry: the entry stays under the key given at the handoff
    while the session now carries the peer id the collaborator returned, so
    [send_to_peer] reaches it under the old key and, unless the new id
    happens to be a key, not under the new one; [broadcast_to_room] follows
    the session into the room of the JOIN. *)
Theorem join_leaves_registry_key w a k json msg :
  sessions_ (ws_server w) !! k = Some a ->
  (a < next_addr w)%nat ->
  ws_is_open (store w a) = true ->
  parse_message json = Ok msg ->
  type msg = JOIN ->
  let role := if contains (data msg) (marker "role" "host") then HOST else VIEWER in
  let new_id :=
    (add_peer (room_id msg) (data msg) (data msg) role (streaming_server_ w)).1 in
  exists w' tr,
    deliver add_peer remove_peer w a (ec_success, json) = Ok (w', tr)
    /\ sessions_ (ws_server w') = sessions_ (ws_server w)
    /\ peer_id_ (store w' a) = new_id
    /\ room_id_ (store w' a) = room_id msg
    /\ (forall m,
          send_to_peer (ws_server w') (store w') k m = [session_call a (ws_write m)])
    /\ (forall m,
          sessions_ (ws_server w) !! new_id = None ->
          send_to_peer (ws_server w') (store w') new_id m = [])
    /\ (forall m E,
          k <> E ->
          session_call a (ws_write m)
            ∈ broadcast_to_room (ws_server w') (store w') (room_id msg) m E)
    /\ (forall R m E c,
          R <> room_id msg ->
          session_call a c ∉ broadcast_to_room (ws_server w') (store w') R m E).
Proof.
  intros Hk Ha Hopen Hp Ht role new_id.
  eexists _, _. split.
  { unfold deliver. rewrite decide_True by done.
    unfold async_read. rewrite Hopen.
    erewrite do_read_handler_rearmed; [reflexivity|].
    unfold on_read.
    rewrite (handle_message_decoded _ _ _ _ _ _ Hp), Ht. cbv zeta.
    reflexivity. }
  simpl. rewrite !fn_lookup_insert. simpl. split_and!; try done.
  - intros m. by apply send_to_peer_registered.
  - intros m Hnew. by apply send_to_peer_unregistered.
  - intros m E HE. apply elem_of_broadcast_to_room. exists k, a.
    by rewrite fn_lookup_insert.
  - intros R m E c HR (k' & b & [= <- _] & _ & Hroom & _)%elem_of_broadcast_to_room.
    by rewrite fn_lookup_insert in Hroom.
Qed.

(** The path analysis, the key lookup and the write of one accepted
    upgrade. *)
Lemma handle_websocket_upgrade_accepted w fd req env id role key :
  websocket_server_ w = true ->
  path req = "/room/" +:+ id +:+ "/" +:+ role ->
  contains id "/" = false ->
  id <> EmptyString ->
  role = "host" \/ role = "viewer" ->
  headers req !! "Sec-WebSocket-Key" = Some key ->
  0 <= bytes_written env ->
  handle_websocket_upgrade w fd req env
  = Ok (true,
        accept_upgraded_connection w fd id
          (id +:+ "_" +:+ role +:+ "_" +:+ to_string (now env))
          (bool_decide (role = "host")) (assign_ok env),
        [socket_write fd (handshake_response (compute_websocket_accept key))]).
Proof.
  intros Hws Hpath Hid Hne Hrole Hkey Hwritten.
  unfold handle_websocket_upgrade. rewrite Hws. simpl.
  rewrite Hpath, (upgrade_path_room id role Hid).
  assert ((bytes_written env <? 0) = false) as -> by lia.
  destruct Hrole as [-> | ->]; simpl;
    (destruct (decide (id = EmptyString)); [done|]); by rewrite Hkey.
Qed.

(** X12: two handoffs under one peer id -- what two upgrades for the same room
    and role produce when the clock reads the same for both -- leave the
    registry with the second session only.  The first session is still
    there, open, but under no key: no broadcast and no [send_to_peer]
    reaches it, and [stop] does not close it. *)
Theorem same_peer_id_orphans_first_session w fd1 fd2 req env id role key :
  registry_from_handoff w ->
  websocket_server_ w = true ->
  path req = "/room/" +:+ id +:+ "/" +:+ role ->
  contains id "/" = false ->
  id <> EmptyString ->
  role = "host" \/ role = "viewer" ->
  headers req !! "Sec-WebSocket-Key" = Some key ->
  0 <= bytes_written env ->
  assign_ok env = true ->
  let a1 := next_addr w in
  let peer := id +:+ "_" +:+ role +:+ "_" +:+ to_string (now env) in
  exists w1 w2 tr1 tr2,
    handle_websocket_upgrade w fd1 req env = Ok (true, w1, tr1)
    /\ handle_websocket_upgrade w1 fd2 req env = Ok (true, w2, tr2)
    /\ sessions_ (ws_server w2) !! peer = Some (S a1)
    /\ store w2 a1 = Session id peer (bool_decide (role = "host")) true
    /\ (forall k, sessions_ (ws_server w2) !! k <> Some a1)
    /\ (forall R m E c,
          session_call a1 c ∉ broadcast_to_room (ws_server w2) (store w2) R m E)
    /\ (forall p m c, session_call a1 c ∉ send_to_peer (ws_server w2) (store w2) p m)
    /\ (forall srv' store' tr,
          stop (ws_server w2) (store w2) = (srv', store', tr) ->
          ws_is_open (store' a1) = true).
Proof.
  intros [Hreg Hnat] Hws Hpath Hid Hne Hrole Hkey Hwritten Hassign a1 peer.
  eexists _, _, _, _. split.
  { by apply handle_websocket_upgrade_accepted. }
  split.
  { apply handle_websocket_upgrade_accepted; try done.
    unfold accept_upgraded_connection. by rewrite Hassign. }
  unfold accept_upgraded_connection. rewrite Hassign. simpl.
  assert (forall k, <[peer := S a1]> (<[peer := a1]> (sessions_ (ws_server w))) !! k
                    <> Some a1) as Hno.
  { intros k. rewrite insert_insert_eq.
    destruct (decide (peer = k)) as [<-|Hk].
    - rewrite lookup_insert_eq. intros [= ?]. lia.
    - rewrite lookup_insert_ne by done. intros Hin.
      destruct (Hreg _ _ Hin). unfold a1 in *. lia. }
  split_and!.
  - apply lookup_insert_eq.
  - rewrite fn_lookup_insert_ne by (unfold a1; lia). by rewrite fn_lookup_insert.
  - done.
  - intros R m E c (k & b & [= <- _] & Hk & _)%elem_of_broadcast_to_room.
    by apply (Hno k).
  - intros p m c. unfold send_to_peer. simpl.
    destruct (_ !! p) as [b|] eqn:Hp; simpl.
    + intros [= <- _]%list_elem_of_singleton. by apply (Hno p).
    + apply not_elem_of_nil.
  - intros srv' store' tr. unfold stop. simpl.
    destruct (negb (running_ (ws_server w))).
    + intros [= <- <- <-]. rewrite fn_lookup_insert_ne by (unfold a1; lia).
      by rewrite fn_lookup_insert.
    + pose proof (close_sessions_store
        (map_to_list (<[peer := S a1]> (<[peer := a1]> (sessions_ (ws_server w)))))
        (<[S a1 := Session id peer (bool_decide (role = "host")) true]>
           (<[a1 := Session id peer (bool_decide (role = "host")) true]> (store w)))
        a1) as Hstore.
      destruct (close_sessions _ _) as [st cl]. intros [= <- <- <-].
      simpl in Hstore. rewrite Hstore.
      rewrite decide_False; [|by intros [k Hk]%elem_of_registered; apply (Hno k)].
      rewrite fn_lookup_insert_ne by (unfold a1; lia). by rewrite fn_lookup_insert.
Qed.

(** What [handle_client] does to the world: nothing, or one handoff under a
    key that ends in an underscore and the clock value. *)
Lemma handle_client_world_key w fd req env :
  (handle_client w fd req env).1 = w
  \/ exists room role is_host,
       (handle_client w fd req env).1
       = accept_upgraded_connection w fd room
           (room +:+ "_" +:+ role +:+ "_" +:+ to_string (now env)) is_host (assign_ok env).
Proof.
  unfold handle_client. destruct (is_websocket_upgrade req); [|by left].
  unfold handle_websocket_upgrade.
  destruct (websocket_server_ w); [|by left]. simpl.
  destruct (upgrade_path_total (path req)) as [target ->]. simpl.
  destruct target as [[room is_host]|]; [|by left].
  destruct (headers req !! "Sec-WebSocket-Key"); [|by left].
  destruct (bytes_written env <? 0); [by left|].
  right. by eexists _, _, _.
Qed.

Lemma step_keeps_empty_key_free w o w' tr :
  is_direct_handoff o = false ->
  step add_peer remove_peer w o = Ok (w', tr) ->
  sessions_ (ws_server w) !! EmptyString = None ->
  sessions_ (ws_server w') !! EmptyString = None.
Proof.
  destruct o; simpl; try done; intros _.
  - destruct (start (ws_server w) outcome) as [[b srv'] tr'] eqn:Hs.
    intros [= <- <-]. simpl.
    unfold start in Hs. destruct (running_ (ws_server w)); [by injection Hs as <- <- <-|].
    destruct outcome; by injection Hs as <- <- <-.
  - destruct (stop (ws_server w) (store w)) as [[srv' store'] tr'] eqn:Hs.
    intros [= <- <-]. simpl. unfold stop in Hs.
    destruct (negb (running_ (ws_server w))); [by injection Hs as <- <- <-|].
    destruct (close_sessions _ _). by injection Hs as <- <- <-.
  - intros [= H]. replace w' with (on_accept w ec handshake_ok).1 by by rewrite H.
    unfold on_accept. by destruct ec.
  - intros [= H] Hfree.
    replace w' with (handle_client w client_socket req env).1 by by rewrite H.
    destruct (handle_client_world_key w client_socket req env)
      as [-> | (room & role & h & ->)]; [done|].
    unfold accept_upgraded_connection. destruct (assign_ok env); simpl; [|done].
    rewrite lookup_insert_ne; [done|]. by destruct room.
  - intros (-> & _)%deliver_registry. done.
  - by intros [= <- <-].
  - by intros [= <- <-].
  - intros [= <- <-] Hfree. simpl. rewrite lookup_delete_None. by right.
Qed.

(** X13: as long as [accept_upgraded_connection] is only called by the HTTP
    server, no session is ever registered under the empty key, and a
    broadcast whose exclude argument is empty reaches every registered
    session of the room. *)
Theorem empty_exclude_reaches_all (srv0 : SS) (attached : bool) (ops : list op) :
  Forall (fun o => is_direct_handoff o = false) ops ->
  exists w tr,
    run add_peer remove_peer (initial_world srv0 attached) ops = Ok (w, tr)
    /\ sessions_ (ws_server w) !! EmptyString = None
    /\ forall k a R m,
         sessions_ (ws_server w) !! k = Some a ->
         room_id_ (store w a) = R ->
         session_call a (ws_write m)
           ∈ broadcast_to_room (ws_server w) (store w) R m EmptyString.
Proof.
  intros Hops.
  assert (forall w,
    sessions_ (ws_server w) !! EmptyString = None ->
    exists w' tr, run add_peer remove_peer w ops = Ok (w', tr)
                  /\ sessions_ (ws_server w') !! EmptyString = None) as Hrun.
  { induction Hops as [|o rest Ho _ IH]; intros w Hfree.
    - by exists w, [].
    - destruct (step_total add_peer remove_peer w o) as [[w1 tr1] Hstep].
      destruct (IH w1 (step_keeps_empty_key_free _ _ _ _ Ho Hstep Hfree))
        as (w2 & tr2 & Hrun & Hfree2).
      exists w2, (tr1 ++ tr2). simpl. by rewrite Hstep; simpl; rewrite Hrun. }
  destruct (Hrun (initial_world srv0 attached)) as (w & tr & Hw & Hfree).
  { simpl. apply lookup_empty. }
  exists w, tr. split_and!; try done.
  intros k a R m Hk HR. apply elem_of_broadcast_to_room. exists k, a.
  split_and!; try done. intros ->. by rewrite Hfree in Hk.
Qed.

End SharedSessions.

Lemma join_leaves_registry_key_witness :
  exists w' tr,
    deliver counting_add_peer counting_remove_peer
      (accept_upgraded_connection (initial_world 0%nat true) 5 "abc" "abc_host_1" true true)
      0%nat (ec_success, sample_join) = Ok (w', tr)
    /\ peer_id_ (store w' 0%nat) = "peer_0"
    /\ forall m,
         send_to_peer (ws_server w') (store w') "abc_host_1" m
         = [session_call 0%nat (ws_write m)].
Proof.
  destruct (join_leaves_registry_key counting_add_peer counting_remove_peer
              (accept_upgraded_connection (initial_world 0%nat true) 5 "abc" "abc_host_1"
                 true true)
              0%nat "abc_host_1" sample_join (Message JOIN sample_join "r1" EmptyString))
    as (w' & tr & Hd & _ & Hid & _ & Hsend & _).
  - reflexivity.
  - simpl. lia.
  - reflexivity.
  - reflexivity.
  - reflexivity.
  - exists w', tr. split_and!; [exact Hd | exact Hid | exact Hsend].
Defined.

Lemma same_peer_id_orphans_first_session_witness :
  exists w1 w2 tr1 tr2,
    handle_websocket_upgrade (initial_world 0%nat true) 5
      (sample_upgrade "/room/abc/host") sample_env = Ok (true, w1, tr1)
    /\ handle_websocket_upgrade w1 6
         (sample_upgrade "/room/abc/host") sample_env = Ok (true, w2, tr2)
    /\ forall k, sessions_ (ws_server w2) !! k <> Some 0%nat.
Proof.
  destruct (same_peer_id_orphans_first_session (initial_world 0%nat true) 5 6
              (sample_upgrade "/room/abc/host") sample_env "abc" "host"
              "dGhlIHNhbXBsZSBub25jZQ==")
    as (w1 & w2 & tr1 & tr2 & H1 & H2 & _ & _ & Hno & _).
  - apply (registry_from_handoff_initial 0%nat true).
  - reflexivity.
  - reflexivity.
  - reflexivity.
  - discriminate.
  - left. reflexivity.
  - reflexivity.
  - vm_compute. discriminate.
  - reflexivity.
  - exists w1, w2, tr1, tr2. split_and!; [exact H1 | exact H2 | exact Hno].
Defined.

Lemma empty_exclude_reaches_all_witness :
  exists w tr,
    run counting_add_peer counting_remove_peer (initial_world 0%nat true)
      [op_start listening; op_http 5 (sample_upgrade "/room/abc/host") sample_env]
    = Ok (w, tr)
    /\ sessions_ (ws_server w) !! EmptyString = None.
Proof.
  destruct (empty_exclude_reaches_all counting_add_peer counting_remove_peer 0%nat true
              [op_start listening; op_http 5 (sample_upgrade "/room/abc/host") sample_env])
    as (w & tr & Hrun & Hfree & _).
  - repeat constructor.
  - exists w, tr. split; [exact Hrun | exact Hfree].
Defined.

(** ** Teardown *)

Lemma NoDup_close_sessions entries (store : addr -> WebSocketSession) :
  NoDup (close_sessions entries store).2.
Proof.
  revert store. induction entries as [|[k b] rest IH]; intros store.
  - simpl. apply NoDup_nil_2.
  - cbn [close_sessions].
    destruct (close (store b)) as [s' closed] eqn:Hc.
    pose proof (IH (<[b := s']> store)) as Hrest.
    pose proof (elem_of_close_sessions rest (<[b := s']> store)) as Hin.
    destruct (close_sessions rest (<[b := s']> store)) as [store' tr].
    cbn [snd] in *.
    assert (s' = closed_session (store b)) as -> by by rewrite <- close_fst, Hc.
    assert (closed = if ws_is_open (store b) then [ws_close] else []) as ->
      by by rewrite <- close_snd, Hc.
    destruct (ws_is_open (store b)); [|done].
    simpl. apply NoDup_cons. split; [|done].
    intros (a & [= <-] & _ & Hopen)%Hin.
    by rewrite fn_lookup_insert in Hopen.
Qed.

Lemma elem_of_optional {A} (b : bool) (x ev : A) :
  ev ∈ (if b then [x] else []) -> ev = x.
Proof. destruct b; [by intros ?%list_elem_of_singleton | by intros ?%elem_of_nil]. Qed.

Lemma NoDup_optional {A} (b : bool) (x : A) : NoDup (if b then [x] else []).
Proof. destruct b; [apply NoDup_singleton | apply NoDup_nil_2]. Qed.

(** X14: [stop] closes each registered session at most once, also when the
    session is registered under several keys, and does not call [close] on
    the transport of a session that is already closed; no step of the
    teardown is repeated. *)
Theorem stop_closes_each_session_once srv (store : addr -> WebSocketSession) :
  NoDup (stop srv store).2
  /\ (forall a, ws_is_open (store a) = false ->
                session_call a ws_close ∉ (stop srv store).2).
Proof.
  unfold stop. destruct (negb (running_ srv)).
  { split; [apply NoDup_nil_2 | intros a _; apply not_elem_of_nil]. }
  pose proof (NoDup_close_sessions (map_to_list (sessions_ srv)) store) as Hnd.
  pose proof (elem_of_close_sessions (map_to_list (sessions_ srv)) store) as Hin.
  destruct (close_sessions (map_to_list (sessions_ srv)) store) as [store' closed].
  cbn [snd] in *.
  assert (forall ev, ev ∈ closed -> exists a, ev = session_call a ws_close) as Hkind.
  { intros ev (a & -> & _)%Hin. by exists a. }
  split.
  - apply NoDup_app. split_and!.
    + apply NoDup_singleton.
    + intros ev ->%list_elem_of_singleton. rewrite !elem_of_app.
      intros [(a & ?)%Hkind | [?%elem_of_optional
              | [?%list_elem_of_singleton | ?%elem_of_optional]]]; done.
    + apply NoDup_app. split_and!; [done | |].
      * intros ev (a & ->)%Hkind. rewrite !elem_of_app.
        intros [?%elem_of_optional
                | [?%list_elem_of_singleton | ?%elem_of_optional]]; done.
      * apply NoDup_app. split_and!; [apply NoDup_optional | |].
        -- intros ev ->%elem_of_optional. rewrite elem_of_app.
           intros [?%list_elem_of_singleton | ?%elem_of_optional]; done.
        -- apply NoDup_app. split_and!; [apply NoDup_singleton | | apply NoDup_optional].
           by intros ev ->%list_elem_of_singleton ?%elem_of_optional.
  - intros a Hclosed. rewrite !elem_of_app.
    intros [?%list_elem_of_singleton | [(b & [= <-] & _ & Hopen)%Hin
            | [?%elem_of_optional
               | [?%list_elem_of_singleton | ?%elem_of_optional]]]]; try done.
    congruence.
Qed.

Lemma stop_closes_each_session_once_witness :
  session_call 0%nat ws_close
    ∉ (stop (Server true true true {[ "p" := 0%nat ]})
            (fun _ => Session "R" "p" false false)).2.
Proof.
  apply (proj2 (stop_closes_each_session_once (Server true true true {[ "p" := 0%nat ]})
                  (fun _ => Session "R" "p" false false)) 0%nat).
  reflexivity.
Defined.

(** ** Accept credential *)

Lemma list_ind_by_three {A} (P : list A -> Prop) :
  P [] -> (forall a, P [a]) -> (forall a b, P [a; b]) ->
  (forall a b c l, P l -> P (a :: b :: c :: l)) ->
  forall l, P l.
Proof.
  intros H0 H1 H2 H3. fix IH 1.
  intros [|a [|b [|c l]]];
    [exact H0 | exact (H1 a) | exact (H2 a b) | exact (H3 a b c l (IH l))].
Qed.

Lemma base64_encode_length l :
  String.length (OpenSSL.base64_encode l) = (4 * ((length l + 2) / 3))%nat.
Proof.
  induction l as [| | |a b c l IH] using list_ind_by_three; try reflexivity.
  cbn [OpenSSL.base64_encode String.length length]. rewrite IH.
  replace (S (S (S (length l))) + 2)%nat with ((length l + 2) + 1 * 3)%nat by lia.
  rewrite Nat.div_add by lia. lia.
Qed.

Lemma base64_encode_padded l :
  (length l mod 3 <> 0)%nat ->
  exists body, OpenSSL.base64_encode l = body +:+ "=".
Proof.
  induction l as [|a|a b|a b c l IH] using list_ind_by_three.
  - done.
  - intros _. by eexists (String _ (String _ (String _ EmptyString))).
  - intros _. by eexists (String _ (String _ (String _ EmptyString))).
  - intros Hmod. destruct IH as [body Hbody].
    { cbn [length] in Hmod.
      replace (S (S (S (length l)))) with (length l + 1 * 3)%nat in Hmod by lia.
      by rewrite Nat.Div0.mod_add in Hmod. }
    cbn [OpenSSL.base64_encode]. rewrite Hbody.
    by eexists (String _ (String _ (String _ (String _ body)))).
Qed.

(** X15: whatever the client key, the accept credential is 28 characters long and
    ends with the padding character [=]. *)
Theorem compute_websocket_accept_shape key :
  String.length (compute_websocket_accept key) = 28%nat
  /\ exists body, compute_websocket_accept key = body +:+ "=".
Proof.
  unfold compute_websocket_accept. cbv zeta.
  set (hash := OpenSSL.SHA1 _).
  assert (length (take OpenSSL.SHA_DIGEST_LENGTH hash) = 20%nat) as Hlen.
  { rewrite length_take. unfold hash. rewrite SHA1_length. reflexivity. }
  split.
  - by rewrite base64_encode_length, Hlen.
  - apply base64_encode_padded. by rewrite Hlen.
Qed.

(** ** HTTP request parsing *)

Lemma contains_char_cons c d s :
  contains (String c s) (String d EmptyString) = false
  <-> c <> d /\ contains s (String d EmptyString) = false.
Proof.
  rewrite !contains_false. unfold find. simpl. rewrite prefix_cons.
  destruct (decide (d = c)) as [->|Hne].
  - rewrite prefix_nil_l. split; [done | by intros [? _]].
  - destruct (String.index 0 (String d EmptyString) s).
    + split; [done | by intros [_ ?]].
    + split; [intros _; split; [congruence | done] | done].
Qed.

Lemma contains_char_app s1 s2 d :
  contains (s1 +:+ s2) (String d EmptyString) = false
  <-> contains s1 (String d EmptyString) = false
      /\ contains s2 (String d EmptyString) = false.
Proof.
  induction s1 as [|c s1 IH]; str_simpl.
  - split; [by intros ? | by intros [_ ?]].
  - rewrite !contains_char_cons, IH. tauto.
Qed.

(** [getline] cuts at the first delimiter. *)
Lemma getlines_app d s rest :
  contains s (String d EmptyString) = false ->
  getlines d (s +:+ String d rest) = s :: getlines d rest.
Proof.
  induction s as [|c s IH]; intros H; str_simpl.
  - by rewrite decide_True.
  - apply contains_char_cons in H as [Hc Hs].
    rewrite decide_False by done. by rewrite IH.
Qed.

Lemma getlines_last d s :
  s <> EmptyString ->
  contains s (String d EmptyString) = false ->
  getlines d s = [s].
Proof.
  induction s as [|c s IH]; intros Hne H; [done|].
  apply contains_char_cons in H as [Hc Hs]. simpl.
  rewrite decide_False by done.
  destruct s as [|c' s']; [done|]. by rewrite IH.
Qed.

Lemma pop_back_cr_app value : pop_back_cr (value +:+ String CR EmptyString) = value.
Proof.
  induction value as [|c value IH]; [done|].
  str_simpl. rewrite IH. by destruct value.
Qed.

(** A header line with a value, as [parse_header_line] sees it. *)
Lemma parse_header_line_value key c value :
  contains key ":" = false ->
  parse_header_line (key +:+ ":" +:+ String c (value +:+ String CR EmptyString))
  = Ok (Some (key, value)).
Proof.
  intros Hkey. unfold parse_header_line.
  assert (find (key +:+ ":" +:+ String c (value +:+ String CR EmptyString)) ":" 0
          = Some (String.length key)) as ->
    by exact (find_char_after ":"%char key _ Hkey).
  rewrite decide_True by (rewrite !string_app_length; simpl;
                          rewrite string_app_length; simpl; lia).
  assert (substr (key +:+ ":" +:+ String c (value +:+ String CR EmptyString)) 0
            (String.length key) = Ok key) as ->.
  { exact (substr_app_mid EmptyString key _). }
  cbn [mbind result_bind].
  replace (key +:+ ":" +:+ String c (value +:+ String CR EmptyString))
    with ((key +:+ ":" +:+ String c EmptyString) +:+ (value +:+ String CR EmptyString))
    by (rewrite !string_app_assoc; done).
  replace (String.length key + 2)%nat
    with (String.length (key +:+ ":" +:+ String c EmptyString))
    by (rewrite !string_app_length; simpl; lia).
  rewrite substr_from_app. cbn [mbind result_bind].
  by rewrite pop_back_cr_app.
Qed.

(** X16: a header line [name:] followed by one character, the value and a
    carriage return gives the entry [name -> value]: the character after the
    colon is dropped whatever it is (normally a space).  A line that ends
    right after that character, or has no colon, adds nothing. *)
Theorem parse_header_line_entry key :
  contains key ":" = false ->
  (forall c value,
      parse_header_line (key +:+ ":" +:+ String c (value +:+ String CR EmptyString))
      = Ok (Some (key, value)))
  /\ (forall c, parse_header_line (key +:+ ":" +:+ String c EmptyString) = Ok None)
  /\ parse_header_line key = Ok None.
Proof.
  intros Hkey. split_and!.
  - intros c value. by apply parse_header_line_value.
  - intros c. unfold parse_header_line.
    assert (find (key +:+ ":" +:+ String c EmptyString) ":" 0
            = Some (String.length key)) as ->
      by exact (find_char_after ":"%char key _ Hkey).
    rewrite decide_False; [done|].
    rewrite !string_app_length. simpl. lia.
  - unfold parse_header_line. apply contains_false in Hkey. by rewrite Hkey.
Qed.

Lemma parse_header_line_entry_witness :
  parse_header_line ("Connection:Upgrade" +:+ String CR EmptyString)
  = Ok (Some ("Connection", "pgrade")).
Proof.
  refine (proj1 (parse_header_line_entry "Connection" _) "U"%char "pgrade").
  reflexivity.
Defined.

Lemma parse_header_line_total line : exists r, parse_header_line line = Ok r.
Proof.
  unfold parse_header_line.
  destruct (find line ":" 0) as [colon_pos|]; [|by eexists].
  case_decide; [|by eexists].
  unfold substr_from. rewrite !substr_in_range by lia. by eexists.
Qed.

Lemma parse_header_lines_total lines headers_ :
  exists r, parse_header_lines lines headers_ = Ok r.
Proof.
  revert headers_. induction lines as [|line rest IH]; intros headers_; [by eexists|].
  simpl. destruct (parse_header_line_total line) as [[[k v]|] ->]; simpl; apply IH.
Qed.

(** [parse_request] never throws. *)
Lemma parse_request_total raw : exists r, parse_request raw = Ok r.
Proof.
  unfold parse_request.
  destruct (getlines LF raw) as [|line rest]; [by eexists|].
  destruct (extract line) as [method_ after].
  destruct (extract after) as [path_query ?].
  destruct (header_block rest) as [hs bs].
  destruct (parse_header_lines_total hs ∅) as [hm Hhm].
  destruct (find path_query "?" 0) as [q|] eqn:Hq.
  - apply find_Some_bound in Hq. simpl in Hq.
    unfold substr_from. rewrite !substr_in_range by lia. simpl.
    rewrite Hhm. by eexists.
  - simpl. rewrite Hhm. by eexists.
Qed.

Lemma isspace_LF : isspace LF = true.
Proof. reflexivity. Qed.

Lemma no_space_no_lf s : no_space s = true -> contains s (String LF EmptyString) = false.
Proof.
  induction s as [|c s IH]; [done|]. simpl.
  intros [Hc Hs]%andb_true_iff. apply contains_char_cons. split; [|by apply IH].
  intros ->. by rewrite isspace_LF in Hc.
Qed.

Lemma read_word_app w c rest :
  no_space w = true -> isspace c = true ->
  read_word (w +:+ String c rest) = (w, String c rest).
Proof.
  intros Hw Hc. induction w as [|d w IH]; str_simpl.
  - by rewrite Hc.
  - simpl in Hw. apply andb_true_iff in Hw as [Hd Hw].
    apply negb_true_iff in Hd. by rewrite Hd, IH.
Qed.

Lemma skip_ws_word w rest :
  w <> EmptyString -> no_space w = true -> skip_ws (w +:+ rest) = w +:+ rest.
Proof.
  destruct w as [|d w]; [done|]. intros _ Hw. simpl in Hw.
  apply andb_true_iff in Hw as [Hd _]. apply negb_true_iff in Hd.
  str_simpl. by rewrite Hd.
Qed.

(** [stream >> word] reads the next word and stops in front of the white
    space that ends it. *)
Lemma extract_word w c rest :
  w <> EmptyString -> no_space w = true -> isspace c = true ->
  extract (w +:+ String c rest) = (w, String c rest)
  /\ extract (String " " (w +:+ String c rest)) = (w, String c rest).
Proof.
  intros Hne Hw Hc. unfold extract. simpl.
  by rewrite skip_ws_word, read_word_app.
Qed.

Lemma getlines_crlf s rest :
  contains s (String LF EmptyString) = false ->
  getlines LF (s +:+ crlf +:+ rest) = (s +:+ String CR EmptyString) :: getlines LF rest.
Proof.
  intros Hs.
  replace (s +:+ crlf +:+ rest) with ((s +:+ String CR EmptyString) +:+ String LF rest)
    by (rewrite string_app_assoc; done).
  apply getlines_app. apply contains_char_app. by split.
Qed.

Lemma getlines_header_text hs rest :
  Forall (fun kv : string * string =>
            contains kv.1 (String LF EmptyString) = false
            /\ contains kv.2 (String LF EmptyString) = false) hs ->
  getlines LF (header_text hs +:+ rest) = (header_line_of <$> hs) ++ getlines LF rest.
Proof.
  induction 1 as [|[k v] hs [Hk Hv] _ IH]; [done|].
  cbn [header_text]. simpl in Hk, Hv.
  replace ((k +:+ ": " +:+ v +:+ crlf +:+ header_text hs) +:+ rest)
    with ((k +:+ ": " +:+ v) +:+ crlf +:+ (header_text hs +:+ rest))
    by (rewrite !string_app_assoc; done).
  rewrite getlines_crlf, IH.
  - rewrite fmap_cons. f_equal. unfold header_line_of. simpl.
    by rewrite !string_app_assoc.
  - rewrite !contains_char_app. split_and!; done.
Qed.

Lemma header_block_lines hs body_lines :
  header_block ((header_line_of <$> hs) ++ String CR EmptyString :: body_lines)
  = (header_line_of <$> hs, body_lines).
Proof.
  induction hs as [|[k v] hs IH]; [done|].
  rewrite fmap_cons. cbn [app header_block]. rewrite IH.
  rewrite decide_False; [done|].
  unfold header_line_of. simpl. intros Heq.
  apply (f_equal String.length) in Heq. rewrite !string_app_length in Heq.
  simpl in Heq. rewrite string_app_length in Heq. simpl in Heq. lia.
Qed.

Lemma parse_header_lines_entries hs headers_ :
  Forall (fun kv : string * string => contains kv.1 ":" = false) hs ->
  parse_header_lines (header_line_of <$> hs) headers_
  = Ok (foldl (fun m kv => <[kv.1 := kv.2]> m) headers_ hs).
Proof.
  intros Hhs. revert headers_.
  induction Hhs as [|[k v] hs Hk _ IH]; intros headers_; [done|].
  rewrite fmap_cons. cbn [parse_header_lines].
  change (header_line_of (k, v))
    with (k +:+ ":" +:+ String " " (v +:+ String CR EmptyString)).
  simpl in Hk.
  rewrite (parse_header_line_value k " "%char v Hk). simpl. apply IH.
Qed.

Lemma ends_with_lf_cons c c' s :
  ends_with_lf (String c (String c' s)) = ends_with_lf (String c' s).
Proof. reflexivity. Qed.

Lemma bool_decide_cons_empty c s : bool_decide (String c s = EmptyString) = false.
Proof. by apply bool_decide_eq_false_2. Qed.

(** The body [parse_request] keeps is the text after the empty line, with a
    line feed added at the end unless the text is empty or ends with one. *)
Lemma join_getlines s :
  join_lines (getlines LF s)
  = if bool_decide (s = EmptyString) || ends_with_lf s then s
    else s +:+ String LF EmptyString.
Proof.
  induction s as [|c s IH]; [done|].
  rewrite bool_decide_cons_empty, orb_false_l.
  cbn [getlines]. destruct (decide (c = LF)) as [->|Hc].
  - cbn [join_lines]. rewrite string_app_nil_l, IH.
    destruct s as [|c' s']; [done|].
    rewrite bool_decide_cons_empty, orb_false_l, ends_with_lf_cons.
    by destruct (ends_with_lf (String c' s')).
  - destruct s as [|c' s'].
    + cbn [join_lines ends_with_lf]. by rewrite bool_decide_eq_false_2.
    + rewrite bool_decide_cons_empty, orb_false_l in IH.
      rewrite ends_with_lf_cons.
      destruct (getlines LF (String c' s')) as [|l ls] eqn:Hl.
      * exfalso. simpl in Hl. destruct (decide (c' = LF)); [done|].
        by destruct (getlines LF s').
      * cbn [join_lines] in IH |- *. rewrite string_app_cons, IH.
        by destruct (ends_with_lf (String c' s')).
Qed.

(** The split of the request target at its first question mark. *)
Lemma target_path p query :
  contains p "?" = false ->
  query = EmptyString \/ (exists q, query = String "?" q) ->
  match find (p +:+ query) "?" 0 with
  | Some query_pos =>
      p0 ← substr (p +:+ query) 0 query_pos;
      _ ← substr_from (p +:+ query) (query_pos + 1);
      Ok p0
  | None => Ok (p +:+ query)
  end = Ok p.
Proof.
  intros Hpq [-> | [q ->]].
  - rewrite string_app_nil_r. apply contains_false in Hpq. by rewrite Hpq.
  - rewrite (find_char_after "?"%char p q Hpq).
    assert (substr (p +:+ String "?" q) 0 (String.length p) = Ok p) as ->
      by exact (substr_app_mid EmptyString p _).
    cbn [mbind result_bind]. unfold substr_from.
    rewrite substr_in_range; [done|]. rewrite string_app_length. simpl. lia.
Qed.

(** What [parse_request] reads from a request text, up to the split of the
    target. *)
Lemma parse_request_of_text method_ target hs body_ :
  method_ <> EmptyString -> no_space method_ = true ->
  target <> EmptyString -> no_space target = true ->
  Forall (fun kv : string * string =>
            contains kv.1 ":" = false
            /\ contains kv.1 (String LF EmptyString) = false
            /\ contains kv.2 (String LF EmptyString) = false) hs ->
  parse_request (request_text method_ target hs body_)
  = (path_ ← match find target "?" 0 with
             | Some query_pos =>
                 p ← substr target 0 query_pos;
                 _ ← substr_from target (query_pos + 1);
                 Ok p
             | None => Ok target
             end;
     Ok (Request method_ path_ (headers_of hs)
           (if bool_decide (body_ = EmptyString) || ends_with_lf body_ then body_
            else body_ +:+ String LF EmptyString))).
Proof.
  intros Hm Hms Ht Hts Hhs.
  assert (getlines LF (request_text method_ target hs body_)
          = (method_ +:+ String " " (target +:+ String " " ("HTTP/1.1"
                       +:+ String CR EmptyString)))
              :: (header_line_of <$> hs)
              ++ String CR EmptyString :: getlines LF body_) as Hlines.
  { unfold request_text.
    replace (method_ +:+ " " +:+ target +:+ " HTTP/1.1" +:+ crlf
               +:+ header_text hs +:+ crlf +:+ body_)
      with ((method_ +:+ " " +:+ target +:+ " HTTP/1.1") +:+ crlf
               +:+ (header_text hs +:+ (EmptyString +:+ crlf +:+ body_)))
      by (rewrite !string_app_assoc; done).
    rewrite getlines_crlf, getlines_header_text, getlines_crlf.
    - f_equal. by rewrite !string_app_assoc.
    - done.
    - eapply Forall_impl; [exact Hhs|]. by intros kv (_ & ? & ?).
    - rewrite !contains_char_app. split_and!; try done; by apply no_space_no_lf. }
  unfold parse_request. rewrite Hlines.
  destruct (extract_word method_ " "%char
              (target +:+ String " " ("HTTP/1.1" +:+ String CR EmptyString)))
    as [-> _]; [done | done | done |].
  destruct (extract_word target " "%char ("HTTP/1.1" +:+ String CR EmptyString))
    as [_ ->]; [done | done | done |].
  rewrite header_block_lines.
  destruct (match find target "?" 0 with
            | Some query_pos =>
                p ← substr target 0 query_pos;
                _ ← substr_from target (query_pos + 1);
                Ok p
            | None => Ok target
            end) as [path_|e]; [|done].
  cbn [mbind result_bind].
  rewrite parse_header_lines_entries
    by (eapply Forall_impl; [exact Hhs|]; by intros kv (? & _)).
  cbn [mbind result_bind]. unfold headers_of. by rewrite join_getlines.
Qed.

(** X17: [parse_request] on a request written in the usual way -- a method and a
    target without white space, header lines [name: value] whose names hold
    no colon, CR LF line ends, an empty line, a body -- returns the method,
    the target up to its first question mark as the path, one header per
    name (the last line of a name wins), and the body with a line feed added
    at its end unless it is empty or already ends with one. *)
Theorem parse_request_well_formed method_ p query hs body_ :
  method_ <> EmptyString -> no_space method_ = true ->
  p <> EmptyString -> contains p "?" = false ->
  query = EmptyString \/ (exists q, query = String "?" q) ->
  no_space (p +:+ query) = true ->
  Forall (fun kv : string * string =>
            contains kv.1 ":" = false
            /\ contains kv.1 (String LF EmptyString) = false
            /\ contains kv.2 (String LF EmptyString) = false) hs ->
  parse_request (request_text method_ (p +:+ query) hs body_)
  = Ok (Request method_ p (headers_of hs)
          (if bool_decide (body_ = EmptyString) || ends_with_lf body_ then body_
           else body_ +:+ String LF EmptyString)).
Proof.
  intros Hm Hms Hp Hpq Hquery Hts Hhs.
  rewrite parse_request_of_text by (try done; by destruct p).
  by rewrite target_path.
Qed.

Lemma parse_request_well_formed_witness :
  parse_request
    (request_text "GET" "/room/abc/host?token=1"
       [("Upgrade", "websocket"); ("Connection", "Upgrade");
        ("Sec-WebSocket-Key", "dGhlIHNhbXBsZSBub25jZQ==")] EmptyString)
  = Ok (Request "GET" "/room/abc/host"
          (headers_of [("Upgrade", "websocket"); ("Connection", "Upgrade");
                       ("Sec-WebSocket-Key", "dGhlIHNhbXBsZSBub25jZQ==")])
          EmptyString).
Proof.
  apply (parse_request_well_formed "GET" "/room/abc/host" "?token=1"
           [("Upgrade", "websocket"); ("Connection", "Upgrade");
            ("Sec-WebSocket-Key", "dGhlIHNhbXBsZSBub25jZQ==")] EmptyString).
  - discriminate.
  - reflexivity.
  - discriminate.
  - reflexivity.
  - right. by exists "token=1".
  - reflexivity.
  - repeat constructor.
Defined.

Lemma header_block_no_cr lines :
  Forall (fun l => l <> String CR EmptyString) lines -> header_block lines = (lines, []).
Proof.
  induction 1 as [|l lines Hl _ IH]; [done|].
  cbn [header_block]. by rewrite decide_False, IH.
Qed.

(** X18: only a line that is exactly a carriage return ends the headers.  In a
    request without such a line -- one written with bare line feeds, say --
    every line after the first is read as a header line and the body comes
    out empty. *)
Theorem parse_request_without_cr_line raw first rest :
  getlines LF raw = first :: rest ->
  Forall (fun l => l <> String CR EmptyString) rest ->
  exists req headers_,
    parse_request raw = Ok req
    /\ body req = EmptyString
    /\ parse_header_lines rest ∅ = Ok headers_
    /\ headers req = headers_.
Proof.
  intros Hlines Hrest.
  destruct (parse_request_total raw) as [req Hreq].
  destruct (parse_header_lines_total rest ∅) as [hm Hhm].
  exists req, hm. split; [done|].
  revert Hreq. unfold parse_request. rewrite Hlines.
  destruct (extract first) as [method_ after].
  destruct (extract after) as [path_query ?].
  rewrite (header_block_no_cr rest Hrest), Hhm.
  destruct (match find path_query "?" 0 with
            | Some query_pos =>
                p ← substr path_query 0 query_pos;
                _ ← substr_from path_query (query_pos + 1);
                Ok p
            | None => Ok path_query
            end) as [path_|]; [|done].
  simpl. by intros [= <-].
Qed.

Lemma parse_request_without_cr_line_witness :
  exists req,
    parse_request
      ("POST /room/create HTTP/1.1" +:+ String LF ("Host: h" +:+ String LF
         (String LF ("{" +:+ quoted "post_id" +:+ ": " +:+ quoted "p" +:+ "}"))))
    = Ok req
    /\ body req = EmptyString
    /\ headers req !! ("{" +:+ quoted "post_id") = Some (quoted "p" +:+ "}").
Proof.
  destruct (parse_request_without_cr_line
              ("POST /room/create HTTP/1.1" +:+ String LF ("Host: h" +:+ String LF
                 (String LF ("{" +:+ quoted "post_id" +:+ ": " +:+ quoted "p" +:+ "}"))))
              "POST /room/create HTTP/1.1"
              ["Host: h"; EmptyString;
               "{" +:+ quoted "post_id" +:+ ": " +:+ quoted "p" +:+ "}"])
    as (req & hm & Hreq & Hbody & Hhm & Hheaders).
  - reflexivity.
  - repeat constructor; discriminate.
  - exists req. split_and!; [done | done |].
    rewrite Hheaders. vm_compute in Hhm. injection Hhm as <-. reflexivity.
Defined.







Section UpgradeFromText.

Context {SS : Type}.
Implicit Types w : World SS.


End UpgradeFromText.


(** ** Routing *)

Lemma setup_routes_GET :
  setup_routes !! "GET"
  = Some [("/health", handle_health_check_route);
          ("/room/:room_id/stats", handle_get_room_stats_route);
          ("/stats", handle_get_server_stats_route)].
Proof. reflexivity. Qed.

Lemma setup_routes_POST :
  setup_routes !! "POST"
  = Some [("/room/:room_id/stop", handle_delete_room_route);
          ("/room/create", handle_create_room_route)].
Proof. reflexivity. Qed.

Lemma setup_routes_other method_ :
  method_ <> "GET" -> method_ <> "POST" -> setup_routes !! method_ = None.
Proof.
  intros HG HP. unfold setup_routes, register_route. cbv zeta.
  rewrite !lookup_insert_ne by done. apply lookup_empty.
Qed.

(** What [match_route] does for a GET, and for a POST, once the exact routes
    are out of the way: the one parametrized pattern of the method is tried
    on the pieces of the path. *)
Lemma match_route_GET_parts path_ parts :
  getlines "/" path_ = parts ->
  path_ <> "/health" -> path_ <> "/stats" ->
  match_route setup_routes "GET" path_
  = (matched ← match_parts [EmptyString; "room"; ":room_id"; "stats"] parts ∅;
     Ok (match matched with
         | Some params => Some (handle_get_room_stats_route, params)
         | None => None
         end)).
Proof.
  intros Hparts H1 H2. unfold match_route. rewrite setup_routes_GET.
  cbn [match_exact].
  change (contains "/health" ":") with false.
  change (contains "/room/:room_id/stats" ":") with true.
  change (contains "/stats" ":") with false.
  rewrite !bool_decide_eq_false_2 by (intros ?; by subst).
  cbn [negb andb match_parametrized].
  change (contains "/health" ":") with false.
  change (contains "/room/:room_id/stats" ":") with true.
  change (contains "/stats" ":") with false.
  cbn iota.
  change (getlines "/" "/room/:room_id/stats")
    with [EmptyString; "room"; ":room_id"; "stats"].
  rewrite Hparts.
  rewrite ?bool_decide_eq_false_2 by (intros ?; by subst).
  by destruct (match_parts _ parts ∅) as [[?|]|].
Qed.

Lemma match_route_POST_parts path_ parts :
  getlines "/" path_ = parts ->
  path_ <> "/room/create" ->
  match_route setup_routes "POST" path_
  = (matched ← match_parts [EmptyString; "room"; ":room_id"; "stop"] parts ∅;
     Ok (match matched with
         | Some params => Some (handle_delete_room_route, params)
         | None => None
         end)).
Proof.
  intros Hparts H1. unfold match_route. rewrite setup_routes_POST.
  cbn [match_exact].
  change (contains "/room/:room_id/stop" ":") with true.
  change (contains "/room/create" ":") with false.
  cbn [negb andb match_parametrized].
  change (contains "/room/:room_id/stop" ":") with true.
  change (contains "/room/create" ":") with false.
  cbn iota.
  change (getlines "/" "/room/:room_id/stop")
    with [EmptyString; "room"; ":room_id"; "stop"].
  rewrite Hparts.
  rewrite ?bool_decide_eq_false_2 by (intros ?; by subst).
  by destruct (match_parts _ parts ∅) as [[?|]|].
Qed.

Lemma getlines_room id last_ :
  contains id "/" = false ->
  last_ <> EmptyString -> contains last_ "/" = false ->
  getlines "/" ("/room/" +:+ id +:+ "/" +:+ last_) = [EmptyString; "room"; id; last_].
Proof.
  intros Hid Hne Hlast.
  change ("/room/" +:+ id +:+ "/" +:+ last_)
    with (EmptyString +:+ String "/" ("room" +:+ String "/" (id +:+ String "/" last_))).
  rewrite (getlines_app "/" EmptyString _ eq_refl).
  rewrite (getlines_app "/" "room" _ eq_refl).
  rewrite (getlines_app "/" id last_ Hid).
  by rewrite getlines_last.
Qed.

Lemma getlines_room_short id :
  id <> EmptyString -> contains id "/" = false ->
  getlines "/" ("/room/" +:+ id) = [EmptyString; "room"; id].
Proof.
  intros Hne Hid.
  change ("/room/" +:+ id) with (EmptyString +:+ String "/" ("room" +:+ String "/" id)).
  rewrite (getlines_app "/" EmptyString _ eq_refl).
  rewrite (getlines_app "/" "room" _ eq_refl).
  by rewrite getlines_last.
Qed.

Lemma match_parts_room last_ id tail_ :
  last_ <> EmptyString ->
  String.get 0 last_ <> Some ":"%char ->
  match_parts [EmptyString; "room"; ":room_id"; last_]
              (EmptyString :: "room" :: id :: tail_) ∅
  = match tail_ with
    | [] => Ok (Some {[ "room_id" := id ]})
    | [x] => if decide (last_ = x) then Ok (Some {[ "room_id" := id ]}) else Ok None
    | x :: _ :: _ => Ok None
    end.
Proof.
  intros Hne Hcolon. cbn [match_parts].
  rewrite decide_True by done.
  rewrite (decide_False (P := "room" = EmptyString /\ "room" = EmptyString))
    by (by intros [? _]).
  change (String.get 0 "room") with (Some "r"%char).
  rewrite (bool_decide_eq_false_2 (Some "r"%char = Some ":"%char)) by done.
  rewrite (decide_False (P := "room" <> "room")) by (intros H; by apply H).
  rewrite (decide_False (P := ":room_id" = EmptyString /\ id = EmptyString))
    by (by intros [? _]).
  change (String.get 0 ":room_id") with (Some ":"%char).
  rewrite bool_decide_eq_true_2 by done.
  change (substr_from ":room_id" 1) with (Ok "room_id" : result string).
  cbn [mbind result_bind].
  change (<["room_id" := id]> (∅ : gmap string string)) with ({[ "room_id" := id ]} : gmap string string).
  destruct tail_ as [|x [|y tail_]]; [done | |].
  - rewrite (decide_False (P := last_ = EmptyString /\ x = EmptyString))
      by (by intros [? _]).
    rewrite bool_decide_eq_false_2 by done.
    destruct (decide (last_ = x)) as [->|Hx].
    + by rewrite decide_False by (intros H; by apply H).
    + by rewrite decide_True.
  - rewrite (decide_False (P := last_ = EmptyString /\ x = EmptyString))
      by (by intros [? _]).
    rewrite bool_decide_eq_false_2 by done.
    destruct (decide (last_ <> x)); [done|]. done.
Qed.

(** X20: the routes with a room parameter: the path [/room/<id>/stats] of a GET
    and [/room/<id>/stop] of a POST reach their handlers with [room_id]
    bound to [<id>], an empty [<id>] included; a method other than GET and
    POST has no route. *)
Theorem match_route_room_parameter id :
  contains id "/" = false ->
  match_route setup_routes "GET" ("/room/" +:+ id +:+ "/" +:+ "stats")
  = Ok (Some (handle_get_room_stats_route, {[ "room_id" := id ]}))
  /\ match_route setup_routes "POST" ("/room/" +:+ id +:+ "/" +:+ "stop")
     = Ok (Some (handle_delete_room_route, {[ "room_id" := id ]}))
  /\ (forall method_ path_,
        method_ <> "GET" -> method_ <> "POST" ->
        match_route setup_routes method_ path_ = Ok None).
Proof.
  intros Hid. split_and!.
  - rewrite (match_route_GET_parts _ _ (getlines_room id "stats" Hid ltac:(done) eq_refl))
      by (intros Hd; apply (f_equal (String.get 1)) in Hd; vm_compute in Hd; discriminate Hd).
    rewrite match_parts_room by done. by rewrite decide_True.
  - pose proof (getlines_room id "stop" Hid ltac:(done) eq_refl) as Hparts.
    rewrite (match_route_POST_parts _ _ Hparts)
      by (intros Hd; rewrite Hd in Hparts; vm_compute in Hparts; discriminate Hparts).
    rewrite match_parts_room by done. by rewrite decide_True.
  - intros method_ path_ HG HP. unfold match_route.
    by rewrite setup_routes_other.
Qed.

(** X21: a path that lacks the last segment of a parametrized pattern matches it
    all the same: [GET /room/<id>] is routed to the room statistics and
    [POST /room/<id>] to the handler that stops the room, as if [/stats] or
    [/stop] had been written; [POST /room/create] is saved by the pass over
    the exact routes, which comes first. *)
Theorem match_route_short_path id :
  id <> EmptyString ->
  contains id "/" = false ->
  match_route setup_routes "GET" ("/room/" +:+ id)
  = Ok (Some (handle_get_room_stats_route, {[ "room_id" := id ]}))
  /\ (id <> "create" ->
      match_route setup_routes "POST" ("/room/" +:+ id)
      = Ok (Some (handle_delete_room_route, {[ "room_id" := id ]})))
  /\ match_route setup_routes "POST" "/room/create"
     = Ok (Some (handle_create_room_route, ∅)).
Proof.
  intros Hne Hid. split_and!.
  - rewrite (match_route_GET_parts _ _ (getlines_room_short id Hne Hid))
      by (intros Hd; apply (f_equal (String.get 1)) in Hd; vm_compute in Hd; discriminate Hd).
    by rewrite match_parts_room.
  - intros Hcreate.
    rewrite (match_route_POST_parts _ _ (getlines_room_short id Hne Hid)).
    + by rewrite match_parts_room.
    + str_simpl. intros [= ?]. done.
  - reflexivity.
Qed.

Lemma match_route_room_parameter_witness :
  match_route setup_routes "GET" "/room/abc/stats"
  = Ok (Some (handle_get_room_stats_route, {[ "room_id" := "abc" ]})).
Proof.
  apply (proj1 (match_route_room_parameter "abc" eq_refl)).
Defined.

Lemma match_route_short_path_witness :
  match_route setup_routes "POST" "/room/abc"
  = Ok (Some (handle_delete_room_route, {[ "room_id" := "abc" ]})).
Proof.
  apply (proj1 (proj2 (match_route_short_path "abc" ltac:(discriminate) eq_refl))).
  discriminate.
Defined.

(** ** The room handlers and the routes that reach them *)

(** The field block never throws, never yields more than 256 characters,
    and leaves the field empty when the key is not in the body. *)
Lemma quoted_field_total body_ key :
  exists r, quoted_field body_ key = Ok r
    /\ (forall v, r = Some v -> (String.length v <= 256)%nat)
    /\ (contains body_ (quoted key) = false -> r = Some EmptyString).
Proof.
  unfold quoted_field.
  destruct (find body_ (quoted key) 0) as [key_pos|] eqn:Hkey.
  2: { eexists; split_and!; [done | intros ? [= <-]; simpl; lia | done]. }
  assert (contains body_ (quoted key) = false -> False) as Hc.
  { rewrite contains_false. congruence. }
  destruct (find body_ ":" key_pos) as [colon_pos|];
    [|eexists; split_and!; [done | intros ? [= <-]; simpl; lia | done]].
  destruct (find body_ dq colon_pos) as [quote_start|];
    [|eexists; split_and!; [done | intros ? [= <-]; simpl; lia | done]].
  cbn zeta. case_decide;
    [|eexists; split_and!; [done | intros ? [= <-]; simpl; lia | done]].
  destruct (find body_ dq (quote_start + 1)) as [end_|];
    [|eexists; split_and!; [done | intros ? [= <-]; simpl; lia | done]].
  case_decide;
    [|eexists; split_and!; [done | intros ? [= <-]; simpl; lia | done]].
  rewrite substr_in_range by lia. cbn.
  case_decide.
  - eexists; split_and!; [done | done | by intros ?%Hc].
  - eexists; split_and!; [done | intros ? [= <-]; lia | by intros ?%Hc].
Qed.

(** [find_char_after], from the end of a prefix. *)
Lemma find_char_from s1 id c rest :
  contains id (String c EmptyString) = false ->
  find (s1 +:+ id +:+ String c rest) (String c EmptyString) (String.length s1)
  = Some (String.length s1 + String.length id)%nat.
Proof.
  intros H. rewrite find_skip. by rewrite find_char_after.
Qed.

(** The value the field block reads for a field that is where [field_at]
    says. *)
Lemma quoted_field_value body_ key pre gap0 gap1 v post :
  body_ = pre +:+ quoted key +:+ gap0 +:+ ":" +:+ gap1 +:+ dq +:+ v +:+ dq +:+ post ->
  find body_ (quoted key) 0 = Some (String.length pre) ->
  contains key ":" = false ->
  contains gap0 ":" = false ->
  contains gap1 dq = false ->
  contains v dq = false ->
  quoted_field body_ key
  = Ok (if decide (256 < String.length v)%nat then None else Some v).
Proof.
  intros Hbody Hkey Hk Hg0 Hg1 Hv. unfold quoted_field. rewrite Hkey.
  assert (find body_ ":" (String.length pre)
          = Some (String.length pre + String.length (quoted key +:+ gap0))%nat) as ->.
  { rewrite Hbody.
    rewrite <- (find_char_from pre (quoted key +:+ gap0) ":"
                  (gap1 +:+ dq +:+ v +:+ dq +:+ post)).
    - by rewrite !string_app_assoc.
    - apply contains_char_app. split; [|done]. unfold quoted.
      apply contains_char_app. split; [done|].
      apply contains_char_app. by split. }
  set (A := pre +:+ quoted key +:+ gap0).
  replace (String.length pre + String.length (quoted key +:+ gap0))%nat
    with (String.length A) by (unfold A; by rewrite string_app_length).
  set (B := A +:+ (":" +:+ gap1) +:+ dq).
  assert (body_ = A +:+ (":" +:+ gap1) +:+ dq +:+ v +:+ dq +:+ post) as HA
    by (rewrite Hbody; unfold A; by rewrite !string_app_assoc).
  assert (body_ = B +:+ v +:+ dq +:+ post) as HB
    by (rewrite HA; unfold B; by rewrite !string_app_assoc).
  assert (String.length B = (String.length A + String.length (":" +:+ gap1) + 1)%nat) as HlenB
    by (unfold B; rewrite !string_app_length; simpl; lia).
  assert (find body_ dq (String.length A)
          = Some (String.length A + String.length (":" +:+ gap1))%nat) as ->.
  { rewrite HA.
    refine (find_char_from A (":" +:+ gap1) (ascii_of_nat 34) (v +:+ dq +:+ post) _).
    apply (contains_char_app ":" gap1). by split. }
  cbn zeta.
  replace (String.length A + String.length (":" +:+ gap1) + 1)%nat
    with (String.length B) by lia.
  rewrite decide_True by (rewrite HB, !string_app_length; simpl; lia).
  assert (find body_ dq (String.length B)
          = Some (String.length B + String.length v)%nat) as ->.
  { rewrite HB.
    exact (find_char_from B v (ascii_of_nat 34) post Hv). }
  destruct v as [|c v].
  - rewrite decide_False by (simpl; lia). reflexivity.
  - rewrite decide_True by (simpl; lia).
    replace (String.length B + String.length (String c v) - String.length B)%nat
      with (String.length (String c v)) by lia.
    rewrite HB, substr_app_mid. cbn [mbind result_bind].
    by destruct (decide (256 < String.length (String c v))%nat).
Qed.

(** The segment loop on the pattern [/room/:room_id/<last>], piece by piece. *)
Lemma match_parts_first pattern_rest a path_rest params :
  match_parts (EmptyString :: pattern_rest) (a :: path_rest) params
  = if decide (a = EmptyString) then match_parts pattern_rest path_rest params
    else Ok None.
Proof.
  cbn [match_parts].
  change (String.get 0 EmptyString) with (@None ascii).
  rewrite bool_decide_eq_false_2 by done.
  destruct (decide (a = EmptyString)) as [->|Ha].
  - by rewrite decide_True.
  - rewrite decide_False by (by intros [_ ?]).
    by rewrite decide_True by (intros ?; by subst).
Qed.

Lemma match_parts_room_segment pattern_rest b path_rest params :
  match_parts ("room" :: pattern_rest) (b :: path_rest) params
  = if decide (b = "room") then match_parts pattern_rest path_rest params
    else Ok None.
Proof.
  cbn [match_parts].
  rewrite (decide_False (P := "room" = EmptyString /\ b = EmptyString))
    by (by intros [? _]).
  change (String.get 0 "room") with (Some "r"%char).
  rewrite (bool_decide_eq_false_2 (Some "r"%char = Some ":"%char)) by done.
  destruct (decide (b = "room")) as [->|Hb].
  - by rewrite decide_False by (intros H; by apply H).
  - by rewrite decide_True by (intros ?; by subst).
Qed.

Lemma match_parts_room_any last_ parts :
  last_ <> EmptyString ->
  String.get 0 last_ <> Some ":"%char ->
  exists r,
    match_parts [EmptyString; "room"; ":room_id"; last_] parts ∅ = Ok r
    /\ forall params, r = Some params ->
         exists id, params = {[ "room_id" := id ]}
           /\ exists tail_, parts = EmptyString :: "room" :: id :: tail_.
Proof.
  intros Hne Hcolon.
  destruct parts as [|a parts]; [by exists None|].
  destruct (decide (a = EmptyString)) as [->|];
    [|rewrite match_parts_first, decide_False by done; by exists None].
  destruct parts as [|b parts];
    [rewrite match_parts_first, decide_True by done; by exists None|].
  destruct (decide (b = "room")) as [->|];
    [|rewrite match_parts_first, decide_True, match_parts_room_segment,
        decide_False by done; by exists None].
  destruct parts as [|c tail_];
    [rewrite match_parts_first, decide_True, match_parts_room_segment,
       decide_True by done; by exists None|].
  rewrite match_parts_room by done.
  destruct tail_ as [|x [|y tail_]].
  - eexists. split; [done|]. intros ? [= <-]. eauto.
  - case_decide.
    + eexists. split; [done|]. intros ? [= <-]. eauto.
    + by exists None.
  - by exists None.
Qed.

(** A pattern that begins with [d] is not found in a text without [d]. *)
Lemma find_skip_no_first s1 s2 d pat :
  contains s1 (String d EmptyString) = false ->
  find (s1 +:+ s2) (String d pat) 0
  = (fun k => (String.length s1 + k)%nat) <$> find s2 (String d pat) 0.
Proof.
  unfold find. induction s1 as [|c s1 IH]; intros H; str_simpl.
  - by destruct (String.index 0 (String d pat) s2).
  - apply contains_char_cons in H as [Hc Hs].
    rewrite prefix_cons, decide_False by done.
    rewrite (IH Hs). by destruct (String.index 0 (String d pat) s2).
Qed.

Lemma find_step_mismatch c s pat :
  String.prefix pat (String c s) = false ->
  find (String c s) pat 0 = S <$> find s pat 0.
Proof. intros H. unfold find. simpl. by rewrite H. Qed.

(** X22: on the routes the server registers, [match_route] never throws.  The
    routes without parameters hand no parameter to their handler; the two
    routes with a parameter hand exactly one, [room_id], bound to the third
    piece of the path, whose first two pieces are empty and [room]. *)
Theorem match_route_outcomes method_ path_ :
  exists r, match_route setup_routes method_ path_ = Ok r
    /\ forall h params, r = Some (h, params) ->
         (params = ∅
          /\ (h = handle_health_check_route \/ h = handle_get_server_stats_route
              \/ h = handle_create_room_route))
         \/ ((h = handle_get_room_stats_route \/ h = handle_delete_room_route)
             /\ exists id tail_,
                  params = {[ "room_id" := id ]}
                  /\ getlines "/" path_ = EmptyString :: "room" :: id :: tail_).
Proof.
  destruct (decide (method_ = "GET")) as [->|HG].
  - destruct (decide (path_ = "/health")) as [->|H1].
    { eexists. split; [reflexivity|]. intros ?? [= <- <-]. left. tauto. }
    destruct (decide (path_ = "/stats")) as [->|H2].
    { eexists. split; [reflexivity|]. intros ?? [= <- <-]. left. tauto. }
    rewrite (match_route_GET_parts _ _ eq_refl) by done.
    destruct (match_parts_room_any "stats" (getlines "/" path_))
      as (r & -> & Hr); [done | done |].
    eexists. split; [reflexivity|].
    destruct r as [params'|]; [|done]. intros ?? [= <- <-].
    destruct (Hr _ eq_refl) as (id & -> & tail_ & ->). right.
    split; [by left|]. by exists id, tail_.
  - destruct (decide (method_ = "POST")) as [->|HP].
    + destruct (decide (path_ = "/room/create")) as [->|H1].
      { eexists. split; [reflexivity|]. intros ?? [= <- <-]. left. tauto. }
      rewrite (match_route_POST_parts _ _ eq_refl) by done.
      destruct (match_parts_room_any "stop" (getlines "/" path_))
        as (r & -> & Hr); [done | done |].
      eexists. split; [reflexivity|].
      destruct r as [params'|]; [|done]. intros ?? [= <- <-].
      destruct (Hr _ eq_refl) as (id & -> & tail_ & ->). right.
      split; [by right|]. by exists id, tail_.
    + exists None. split; [|done]. unfold match_route.
      by rewrite setup_routes_other.
Qed.

Section HandlerFacts.

Context {StreamingServer : Type}.
Variable create_room : string -> string -> StreamingServer -> string * StreamingServer.
Variable delete_room : string -> StreamingServer -> bool * StreamingServer.

(** X23: [handle_create_room] never throws, whatever the body.  Either it answers
    400 without calling the collaborator, or it calls [create_room] exactly
    once, with a post id and a host user id that both have between 1 and 256
    characters and with both quoted keys present in the body. *)
Theorem handle_create_room_guard req srv :
  exists resp srv' calls,
    handle_create_room create_room req srv = Ok (resp, srv', calls)
    /\ ((calls = [] /\ srv' = srv /\ exists message, resp = [set_error 400 message])
        \/ (exists post host,
              calls = [create_room_call post host]
              /\ (0 < String.length post <= 256)%nat
              /\ (0 < String.length host <= 256)%nat
              /\ contains (body req) (quoted "post_id") = true
              /\ contains (body req) (quoted "host_user_id") = true
              /\ srv' = (create_room post host srv).2)).
Proof.
  unfold handle_create_room.
  destruct (quoted_field_total (body req) "post_id") as (r1 & -> & Hlen1 & Hmiss1).
  cbn [mbind result_bind].
  destruct r1 as [post|]; [|do 3 eexists; split; [done|]; left; eauto].
  destruct (quoted_field_total (body req) "host_user_id") as (r2 & -> & Hlen2 & Hmiss2).
  cbn [mbind result_bind].
  destruct r2 as [host|]; [|do 3 eexists; split; [done|]; left; eauto].
  case_decide as Hempty; [do 3 eexists; split; [done|]; left; eauto|].
  assert (post <> EmptyString /\ host <> EmptyString) as [Hp Hh] by tauto.
  assert (forall s, s <> EmptyString -> (0 < String.length s)%nat) as Hpos
    by (intros [|??] ?; [done | simpl; lia]).
  destruct (create_room post host srv) as [room srv'] eqn:Hroom.
  assert (contains (body req) (quoted "post_id") = true) as Hc1.
  { destruct (contains (body req) (quoted "post_id")); [done|].
    by specialize (Hmiss1 eq_refl) as [= ->]. }
  assert (contains (body req) (quoted "host_user_id") = true) as Hc2.
  { destruct (contains (body req) (quoted "host_user_id")); [done|].
    by specialize (Hmiss2 eq_refl) as [= ->]. }
  case_decide; do 3 eexists; (split; [done|]); right; exists post, host;
    rewrite Hroom; split_and!; auto.
Qed.

(** X24: a body that holds the two fields, in any order, with anything around
    them and with or without blanks around the colon, creates the room for
    exactly these values: the answer is 201 with the ids of the room and of
    the post, or 500 when the collaborator answers an empty room id. *)
Theorem handle_create_room_fields req srv pre1 gap1 gap1' post_id rest1
    pre2 gap2 gap2' host_user_id rest2 :
  field_at (body req) "post_id" pre1 gap1 gap1' post_id rest1 ->
  field_at (body req) "host_user_id" pre2 gap2 gap2' host_user_id rest2 ->
  (0 < String.length post_id <= 256)%nat ->
  (0 < String.length host_user_id <= 256)%nat ->
  handle_create_room create_room req srv
  = Ok (let '(room, srv') := create_room post_id host_user_id srv in
        (if decide (room = EmptyString) then [set_error 500 "Failed to create room"]
         else [assign_status_code 201; set_json (created_json room post_id)],
         srv', [create_room_call post_id host_user_id])).
Proof.
  intros (Hb1 & Hf1 & Hg1 & Hg1' & Hv1) (Hb2 & Hf2 & Hg2 & Hg2' & Hv2) Hl1 Hl2.
  unfold handle_create_room.
  rewrite (quoted_field_value _ _ _ _ _ _ _ Hb1 Hf1 eq_refl Hg1 Hg1' Hv1).
  rewrite (quoted_field_value _ _ _ _ _ _ _ Hb2 Hf2 eq_refl Hg2 Hg2' Hv2).
  rewrite !decide_False by lia. cbn [mbind result_bind].
  rewrite decide_False
    by (intros [-> | ->]; simpl in *; lia).
  destruct (create_room post_id host_user_id srv) as [room srv'].
  by case_decide.
Qed.

(** X25: whenever a POST is routed to [handle_delete_room], the handler finds its
    [room_id] parameter, the third piece of the path: it never answers
    400, and calls [delete_room] exactly once, for that room; the answer is
    the stopped room or 404 as the collaborator says. *)
Theorem delete_route_calls_delete_room path_ params srv :
  match_route setup_routes "POST" path_ = Ok (Some (handle_delete_room_route, params)) ->
  exists id tail_,
    getlines "/" path_ = EmptyString :: "room" :: id :: tail_
    /\ handle_delete_room delete_room params srv
       = let '(deleted, srv') := delete_room id srv in
         (if deleted : bool then [set_json (stopped_json id)]
          else [set_error 404 "Room not found"],
          srv', [delete_room_call id]).
Proof.
  intros Hroute.
  destruct (decide (path_ = "/room/create")) as [->|Hne]; [done|].
  rewrite (match_route_POST_parts _ _ eq_refl) in Hroute by done.
  destruct (match_parts_room_any "stop" (getlines "/" path_))
    as (r & Hr & Hshape); [done | done |].
  rewrite Hr in Hroute. cbn [mbind result_bind] in Hroute.
  destruct r as [params'|]; [|done]. injection Hroute as <-.
  destruct (Hshape _ eq_refl) as (id & -> & tail_ & Hparts).
  exists id, tail_. split; [done|].
  unfold handle_delete_room. rewrite lookup_singleton_eq.
  destruct (delete_room id srv) as [[] srv']; done.
Qed.



(** X26: a [post_id] that is not written between quotes, a number for example,
    is not refused: the field block takes the next quoted text of the body
    for its value, so that the room is created for the post called
    [host_user_id]. *)
Theorem handle_create_room_unquoted_post_id req srv n host_user_id rest :
  body req = "{" +:+ quoted "post_id" +:+ ":" +:+ n +:+ "," +:+ quoted "host_user_id"
                 +:+ ":" +:+ dq +:+ host_user_id +:+ dq +:+ rest ->
  contains n dq = false ->
  contains host_user_id dq = false ->
  (0 < String.length host_user_id <= 256)%nat ->
  exists resp srv',
    handle_create_room create_room req srv
    = Ok (resp, srv', [create_room_call "host_user_id" host_user_id]).
Proof.
  intros Hbody Hn Hh Hlen.
  assert (field_at (body req) "post_id" "{" EmptyString (n +:+ ",") "host_user_id"
            (":" +:+ dq +:+ host_user_id +:+ dq +:+ rest)) as F1.
  { split_and!.
    - rewrite Hbody. unfold quoted. by rewrite !string_app_assoc.
    - rewrite Hbody.
      etransitivity;
        [exact (find_step_mismatch "{"%char _ (quoted "post_id") eq_refl)|].
      by rewrite find_at_start.
    - done.
    - apply contains_char_app. by split.
    - done. }
  assert (field_at (body req) "host_user_id"
            ("{" +:+ quoted "post_id" +:+ ":" +:+ n +:+ ",") EmptyString EmptyString
            host_user_id rest) as F2.
  { split_and!; [| |done..].
    - rewrite Hbody. by rewrite !string_app_assoc.
    - rewrite Hbody.
      set (Y := ":" +:+ dq +:+ host_user_id +:+ dq +:+ rest).
      set (pat := quoted "host_user_id").
      etransitivity; [exact (find_step_mismatch "{"%char _ pat eq_refl)|].
      etransitivity.
      { apply (f_equal (fmap S)).
        exact (find_step_mismatch (ascii_of_nat 34)
                 ("post_id" +:+ dq +:+ ":" +:+ n +:+ "," +:+ pat +:+ Y) pat eq_refl). }
      rewrite (find_skip_no_first "post_id" _ (ascii_of_nat 34) ("host_user_id" +:+ dq) eq_refl).
      etransitivity.
      { apply (f_equal (fmap S)), (f_equal (fmap S)), (f_equal (fmap _)).
        exact (find_step_mismatch (ascii_of_nat 34)
                 (":" +:+ n +:+ "," +:+ pat +:+ Y) pat eq_refl). }
      replace (":" +:+ n +:+ "," +:+ pat +:+ Y)
        with ((":" +:+ n +:+ ",") +:+ pat +:+ Y) by (by rewrite !string_app_assoc).
      rewrite (find_skip_no_first (":" +:+ n +:+ ",") _ (ascii_of_nat 34)
                 ("host_user_id" +:+ dq)).
      2: { apply (contains_char_app ":" (n +:+ ",")). split; [done|].
           apply contains_char_app. by split. }
      fold pat. rewrite find_at_start. cbn [fmap option_fmap option_map].
      f_equal. rewrite !string_app_length. simpl. lia. }
  destruct (create_room "host_user_id" host_user_id srv) as [room srv'] eqn:Hroom.
  destruct F1 as (Hb1 & Hf1 & Hg1 & Hg1' & Hv1), F2 as (Hb2 & Hf2 & Hg2 & Hg2' & Hv2).
  unfold handle_create_room.
  rewrite (quoted_field_value _ _ _ _ _ _ _ Hb1 Hf1 eq_refl Hg1 Hg1' Hv1).
  rewrite (quoted_field_value _ _ _ _ _ _ _ Hb2 Hf2 eq_refl Hg2 Hg2' Hv2).
  rewrite (decide_False (P := (256 < String.length "host_user_id")%nat))
    by (simpl; lia).
  rewrite (decide_False (P := (256 < String.length host_user_id)%nat)) by lia.
  cbn [mbind result_bind].
  rewrite decide_False by (intros [? | ->]; [done | simpl in Hlen; lia]).
  rewrite Hroom. case_decide; by eexists _, srv'.
Qed.

End HandlerFacts.

Lemma handle_create_room_fields_witness :
  handle_create_room counting_create_room sample_create 0%nat
  = Ok ([assign_status_code 201; set_json (created_json "room_p1" "p1")], 1%nat,
        [create_room_call "p1" "u1"]).
Proof.
  apply (handle_create_room_fields counting_create_room sample_create 0%nat
           "{" EmptyString EmptyString "p1"
           ("," +:+ quoted "host_user_id" +:+ ": " +:+ dq +:+ "u1" +:+ dq +:+ "}")
           ("{" +:+ quoted "post_id" +:+ ":" +:+ dq +:+ "p1" +:+ dq +:+ ",")
           EmptyString " " "u1" "}").
  - unfold field_at. repeat split; reflexivity.
  - unfold field_at. repeat split; reflexivity.
  - simpl. lia.
  - simpl. lia.
Defined.

Lemma delete_route_calls_delete_room_witness :
  exists id tail_,
    getlines "/" "/room/abc/stop" = EmptyString :: "room" :: id :: tail_
    /\ handle_delete_room counting_delete_room {[ "room_id" := "abc" ]} 7%nat
       = let '(deleted, srv') := counting_delete_room id 7%nat in
         (if deleted : bool then [set_json (stopped_json id)]
          else [set_error 404 "Room not found"],
          srv', [delete_room_call id]).
Proof.
  apply (delete_route_calls_delete_room counting_delete_room "/room/abc/stop"
           {[ "room_id" := "abc" ]} 7%nat).
  reflexivity.
Defined.

Lemma handle_create_room_unquoted_post_id_witness :
  exists resp srv',
    handle_create_room counting_create_room sample_create_number 0%nat
    = Ok (resp, srv', [create_room_call "host_user_id" "u1"]).
Proof.
  apply (handle_create_room_unquoted_post_id counting_create_room
           sample_create_number 0%nat "42" "u1" "}").
  - reflexivity.
  - reflexivity.
  - reflexivity.
  - simpl. lia.
Defined.

(** ** The read loop of [handle_client] *)

(** Two ways to cut one text: the shorter first piece begins the longer. *)
Lemma string_app_eq_prefix a b c d :
  a +:+ b = c +:+ d -> (String.length a <= String.length c)%nat ->
  exists e, c = a +:+ e.
Proof.
  revert c. induction a as [|x a IH]; intros c H Hlen; [by exists c|].
  destruct c as [|y c]; [simpl in Hlen; lia|].
  str_simpl in H. injection H as -> H.
  destruct (IH c H) as [e ->]; [simpl in Hlen; lia|]. by exists e.
Qed.

Lemma prefix_app_r pat x y :
  String.prefix pat x = true -> String.prefix pat (x +:+ y) = true.
Proof.
  intros [post ->]%prefix_inv. rewrite string_app_assoc. apply prefix_app.
Qed.

Lemma prefix_app_short pat x y :
  String.prefix pat (x +:+ y) = true -> (String.length pat <= String.length x)%nat ->
  String.prefix pat x = true.
Proof.
  intros [post H]%prefix_inv Hlen.
  destruct (string_app_eq_prefix pat post x y) as [e ->]; [done | done |].
  apply prefix_app.
Qed.

(** An occurrence found in a text, and lying within a beginning of it, is
    found in that beginning. *)
Lemma find_prefix x y pat m :
  find (x +:+ y) pat 0 = Some m ->
  (m + String.length pat <= String.length x)%nat ->
  find x pat 0 = Some m.
Proof.
  unfold find. revert m. induction x as [|c x IH]; intros m H Hlen.
  - simpl in Hlen. assert (m = 0%nat /\ pat = EmptyString) as [-> ->].
    { split; [lia|]. destruct pat; [done | simpl in Hlen; lia]. }
    done.
  - str_simpl in H. simpl.
    destruct (String.prefix pat (String c (x +:+ y))) eqn:Hp.
    + injection H as <-.
      change (String c (x +:+ y)) with (String c x +:+ y) in Hp.
      by rewrite (prefix_app_short _ _ _ Hp) by (simpl in *; lia).
    + destruct (String.prefix pat (String c x)) eqn:Hp'.
      { apply (prefix_app_r _ _ y) in Hp'. str_simpl in Hp'. congruence. }
      destruct (String.index 0 pat (x +:+ y)) as [k|] eqn:Hk; [|done].
      injection H as <-. rewrite (IH k); [done | done | simpl in Hlen; lia].
Qed.

Lemma skip_blanks_skip a b :
  skip_blanks (a +:+ b) (String.length a) = (String.length a + skip_blanks b 0)%nat.
Proof. induction a as [|c a IH]; str_simpl; [done | by rewrite IH]. Qed.

(** Blanks stop at a character that is none. *)
Lemma skip_blanks_stop v c z :
  c <> " "%char -> c <> ascii_of_nat 9 ->
  skip_blanks (v +:+ String c z) 0 = skip_blanks v 0.
Proof.
  intros H1 H2. induction v as [|d v IH]; str_simpl.
  - by rewrite !bool_decide_eq_false_2.
  - destruct (bool_decide (d = " "%char) || bool_decide (d = ascii_of_nat 9));
      [by rewrite IH | done].
Qed.

(** The blanks at the head of a text are white space to [std::stoul]. *)
Lemma skip_blanks_split v :
  exists b v', v = b +:+ v' /\ String.length b = skip_blanks v 0
               /\ stoul v' = stoul v.
Proof.
  induction v as [|d v (b & v' & Hv & Hb & Hs)]; [by exists EmptyString, EmptyString|].
  simpl.
  destruct (bool_decide (d = " "%char) || bool_decide (d = ascii_of_nat 9)) eqn:Hd.
  - exists (String d b), v'. split_and!.
    + str_simpl. by rewrite <- Hv.
    + simpl. by rewrite Hb.
    + rewrite Hs. unfold stoul. simpl.
      assert (isspace d = true) as ->; [|done].
      apply orb_true_iff in Hd as [->%bool_decide_eq_true | ->%bool_decide_eq_true];
        reflexivity.
  - by exists EmptyString, (String d v).
Qed.

Section ReadLoopFacts.

Context {SS : Type}.
Implicit Types w : World SS.

(** X27: a head in which the first [Content-Length:] is followed, up to the
    next carriage return, by text that [std::stoul] refuses makes
    [handle_client] close the socket without any answer.  The read loop looks
    for the text anywhere in the head, the request line included, so this
    happens to any request, an upgrade request too, whose target holds
    it. *)
Theorem content_length_not_a_number w fd env pre v rest header_end e more :
  let raw_request := pre +:+ "Content-Length:" +:+ v +:+ String CR rest in
  find raw_request "Content-Length:" 0 = Some (String.length pre) ->
  find raw_request (crlf +:+ crlf) 0 = Some header_end ->
  (String.length pre + 15 + String.length v < header_end)%nat ->
  contains v (String CR EmptyString) = false ->
  stoul v = Throw e ->
  handle_client_from_socket w fd (read_bytes raw_request :: more) env
  = (w, [socket_close fd]).
Proof.
  intros raw_request Hcl Hend Hlen Hv Hstoul.
  assert (raw_request <> EmptyString) as Hne.
  { intros H. apply (f_equal String.length) in H. unfold raw_request in H.
    rewrite !string_app_length in H. simpl in H. lia. }
  assert (request_complete raw_request = Throw e) as Hcomplete.
  { unfold request_complete. rewrite Hend.
    destruct (find_Some_split _ _ _ _ Hend) as (headers & post & Hraw & Hh & _).
    assert (substr raw_request 0 header_end = Ok headers) as ->.
    { rewrite Hraw, <- Hh. exact (substr_app_mid EmptyString headers _). }
    cbn [mbind result_bind].
    destruct (string_app_eq_prefix (pre +:+ "Content-Length:" +:+ v +:+ String CR EmptyString)
                rest headers ((crlf +:+ crlf) +:+ post)) as [tail_ Hheaders].
    { rewrite <- Hraw. unfold raw_request. by rewrite !string_app_assoc. }
    { rewrite !string_app_length. simpl. lia. }
    assert (headers = pre +:+ "Content-Length:" +:+ v +:+ String CR tail_) as Hheaders'
      by (rewrite Hheaders; by rewrite !string_app_assoc).
    unfold content_length_of.
    rewrite (find_prefix headers ((crlf +:+ crlf) +:+ post) "Content-Length:"
               (String.length pre)).
    2: { by rewrite <- Hraw. }
    2: { rewrite Hheaders, !string_app_length. simpl. lia. }
    destruct (skip_blanks_split v) as (b & v' & Hbv & Hb & Hs).
    assert (skip_blanks headers (String.length pre + 15)
            = String.length (pre +:+ "Content-Length:" +:+ b)) as ->.
    { rewrite Hheaders'.
      replace (String.length pre + 15)%nat
        with (String.length (pre +:+ "Content-Length:"))
        by (rewrite string_app_length; simpl; lia).
      replace (pre +:+ "Content-Length:" +:+ v +:+ String CR tail_)
        with ((pre +:+ "Content-Length:") +:+ (v +:+ String CR tail_))
        by (by rewrite !string_app_assoc).
      rewrite skip_blanks_skip, skip_blanks_stop by done.
      rewrite <- Hb, !string_app_length. simpl. lia. }
    assert (contains v' (String CR EmptyString) = false) as Hv'.
    { rewrite Hbv in Hv. by apply contains_char_app in Hv as [_ ?]. }
    assert (headers = (pre +:+ "Content-Length:" +:+ b) +:+ v' +:+ String CR tail_) as Hh3
      by (rewrite Hheaders', Hbv; by rewrite !string_app_assoc).
    rewrite Hh3 at 1. rewrite find_char_from by done.
    replace (String.length (pre +:+ "Content-Length:" +:+ b) + String.length v'
             - String.length (pre +:+ "Content-Length:" +:+ b))%nat
      with (String.length v') by lia.
    rewrite Hh3, substr_app_mid. cbn [mbind result_bind].
    by rewrite Hs, Hstoul. }
  unfold handle_client_from_socket. cbn [read_request].
  rewrite decide_False by done. cbn zeta. rewrite string_app_nil_l.
  fold raw_request. by rewrite Hcomplete.
Qed.

End ReadLoopFacts.

Lemma content_length_not_a_number_witness :
  handle_client_from_socket (initial_world 0%nat true) 5
    [read_bytes sample_upgrade_trap] sample_env
  = (initial_world 0%nat true, [socket_close 5]).
Proof.
  exact (content_length_not_a_number (initial_world 0%nat true) 5 sample_env
           "GET /room/abc/host?" "x HTTP/1.1"
           (String LF (header_text [("Upgrade", "WebSocket"); ("Connection", "Upgrade");
                                    ("Sec-WebSocket-Key", "dGhlIHNhbXBsZSBub25jZQ==")]
                       +:+ crlf))
           130%nat std_invalid_argument []
           eq_refl eq_refl ltac:(simpl; lia) eq_refl eq_refl).
Defined.
